(** * Ledgerly: typed-table data model, query, aggregation and documents

    A shallow embedding of the client-side data routines of the ledger
    application, and proofs of the properties its specification states:

    - [src/pages/TablesPage.tsx]: value coercion ([toNumberSafe]), the table
      handlers ([handleDeleteTable], [handleAddColumn], [handleColumnUpdate]),
      the derived view ([filteredAndSortedRows]) and [columnTotals];
    - the dashboard and analytics pages: their own [toNumberSafe] and the
      revenue/expense classification of columns;
    - [src/pages/InvoicesPage.tsx]: the line-item editor ([recalcTotals],
      [updateItem], [addItem], [removeItem]).

    The last part covers the rest of the two pages: the handlers of the
    tables, rows and cells ([loadTables], [loadTableData],
    [handleCreateTable], [handleRenameTable], [handleDeleteColumn],
    [handleAddRow], [handleDeleteRow], [saveCell], [moveFromCell],
    [handleEasyCount]), the file names of the exports ([safeFileName]) and
    the persistence of the documents ([refresh], [save], [openEdit],
    [saveEdit], [deleteDoc]).

    Conventions of the embedding.
    - A JavaScript number is an IEEE 754 binary64 value: the primitive
      [float], with its own [+], [*], [/], [-] and comparisons.
    - A JavaScript string is modelled by its UTF-8 encoding, a [string] of
      bytes.
    - A row's [row_data] (a JSON object) is a finite map from its own keys
      to values; the values are the ones the application writes and JSON
      [null]: strings, numbers, [null].  Its prototype is [Object.prototype]:
      reading a key the object does not own gives the member of
      [Object.prototype] of that name, if there is one, and [undefined]
      otherwise, and an assignment to [__proto__] goes to the setter of
      [Object.prototype].  [Object.prototype] has the members of ECMAScript
      2023, Annex B included, and no other.
    - [String.prototype.localeCompare], [String.prototype.toLowerCase] (its
      tables are those of the host's version of Unicode), the [Date] parser
      and the text of a built-in function are host defined; they are the
      fields of the class [Host].  The calendar of [toISOString] is the one
      of the standard.
    - The persistence service is a store with one list per relation, kept in
      creation order, and a script of injected failures.
    - A stored document keeps the JSON of the request: a number that is not
      finite is stored as [null], [-0] as [0]. *)

From Stdlib Require Import ZArith String Ascii List Bool Lia.
From Stdlib Require Import PrimFloat SpecFloat FloatOps FloatAxioms.
From stdpp Require Import gmap strings list pretty sorting.

Local Open Scope string_scope.

(** ** ECMAScript strings *)

Module JsString.

Definition code (c : ascii) : N := N_of_ascii c.

(** One white-space code point ([WhiteSpace] or [LineTerminator]) at the
    head of [s]: the rest of [s] after it.  This is the class [\s] of
    regular expressions and what [trim] removes. *)
Definition ws_prefix (s : string) : option string :=
  match s with
  | String a s1 =>
    let x := code a in
    if ((9 <=? x) && (x <=? 13) || (x =? 32))%N then Some s1
    else
      match s1 with
      | String b s2 =>
        let y := code b in
        if ((x =? 194) && (y =? 160))%N then Some s2          (* U+00A0 *)
        else
          match s2 with
          | String c s3 =>
            let z := code c in
            if ((x =? 225) && (y =? 154) && (z =? 128)          (* U+1680 *)
                || (x =? 226) && (y =? 128)
                   && ((128 <=? z) && (z <=? 138)               (* U+2000..U+200A *)
                       || (z =? 168) || (z =? 169)              (* U+2028, U+2029 *)
                       || (z =? 175))                           (* U+202F *)
                || (x =? 226) && (y =? 129) && (z =? 159)       (* U+205F *)
                || (x =? 227) && (y =? 128) && (z =? 128)       (* U+3000 *)
                || (x =? 239) && (y =? 187) && (z =? 191))%N    (* U+FEFF *)
            then Some s3 else None
          | EmptyString => None
          end
      | EmptyString => None
      end
  | EmptyString => None
  end.

Fixpoint trimStart_fuel (n : nat) (s : string) : string :=
  match n with
  | O => s
  | S n' => match ws_prefix s with
            | Some s' => trimStart_fuel n' s'
            | None => s
            end
  end.

Definition trimStart (s : string) : string := trimStart_fuel (String.length s) s.

(** [s] is white space only. *)
Definition blank (s : string) : bool :=
  match trimStart s with EmptyString => true | _ => false end.

Fixpoint trimEnd (s : string) : string :=
  match s with
  | EmptyString => EmptyString
  | String a s' => if blank s then EmptyString else String a (trimEnd s')
  end.

(** [s.trim()] *)
Definition trim (s : string) : string := trimEnd (trimStart s).

Definition lower_ascii (c : ascii) : ascii :=
  let x := code c in
  if ((65 <=? x) && (x <=? 90))%N then ascii_of_N (x + 32) else c.

(** The letters [A]-[Z] of [s] in lower case, every other byte as it is:
    [s.toLowerCase()] for a string of ASCII characters.  For any string it
    is what the flag [i] of a regular expression (without the flag [u])
    compares an ASCII letter of the pattern with, and it has an occurrence
    of a word of the letters [a]-[z] other than [i] and [k] where, and only
    where, [s.toLowerCase()] has one: no character outside ASCII has one of
    these letters in its lower-case form. *)
Fixpoint toLowerCase (s : string) : string :=
  match s with
  | EmptyString => EmptyString
  | String a s' => String (lower_ascii a) (toLowerCase s')
  end.

(** [s.includes(p)]: [p] occurs in [s]. *)
Fixpoint includes (p s : string) : bool :=
  String.prefix p s
  || match s with
     | EmptyString => false
     | String _ s' => includes p s'
     end.

(** [s.replace(/,/g, "")] *)
Fixpoint removeCommas (s : string) : string :=
  match s with
  | EmptyString => EmptyString
  | String a s' =>
    if (code a =? 44)%N then removeCommas s' else String a (removeCommas s')
  end.

(** The rupee sign U+20B9 at the head of [s]: the rest of [s]. *)
Definition rupee_prefix (s : string) : option string :=
  match s with
  | String a (String b (String c s3)) =>
    if ((code a =? 226) && (code b =? 130) && (code c =? 185))%N
    then Some s3 else None
  | _ => None
  end.

(** [s.replace(/[₹,\s]/g, "")] *)
Fixpoint removeGlyphs_fuel (n : nat) (s : string) : string :=
  match n with
  | O => s
  | S n' =>
    match rupee_prefix s with
    | Some s' => removeGlyphs_fuel n' s'
    | None =>
      match ws_prefix s with
      | Some s' => removeGlyphs_fuel n' s'
      | None =>
        match s with
        | EmptyString => EmptyString
        | String a s' =>
          if (code a =? 44)%N then removeGlyphs_fuel n' s'
          else String a (removeGlyphs_fuel n' s')
        end
      end
    end
  end.

Definition removeGlyphs (s : string) : string :=
  removeGlyphs_fuel (String.length s) s.

(** An ASCII letter. *)
Definition isLetter (c : ascii) : bool :=
  let x := code c in
  ((65 <=? x) && (x <=? 90) || (97 <=? x) && (x <=? 122))%N.

Fixpoint noLetters (s : string) : bool :=
  match s with
  | EmptyString => true
  | String a s' => negb (isLetter a) && noLetters s'
  end.

Definition startsWithLetter (s : string) : bool :=
  match s with
  | EmptyString => false
  | String a _ => isLetter a
  end.

Fixpoint endsWithLetter (s : string) : bool :=
  match s with
  | EmptyString => false
  | String a EmptyString => isLetter a
  | String _ s' => endsWithLetter s'
  end.

End JsString.

(** ** ECMAScript numbers *)

Module JsNumber.

Import JsString.

Local Open Scope Z_scope.

(** [Number.isFinite(x)] *)
Definition isFinite (x : float) : bool := PrimFloat.is_finite x.

(** [isNaN(x)] on a number *)
Definition isNaN (x : float) : bool := PrimFloat.is_nan x.

(** A number is falsy when it is [+0], [-0] or [NaN]. *)
Definition falsy (x : float) : bool := PrimFloat.is_nan x || PrimFloat.is_zero x.

(** [x || 0] on a number ([Number(x || 0)] is the same value). *)
Definition or0 (x : float) : float := if falsy x then PrimFloat.zero else x.

(** The number nearest to [(-1)^neg * m * 10^e10], ties to even
    ([RoundMVResult]); [m >= 0]. *)
Definition round_decimal (neg : bool) (m e10 : Z) : float :=
  if m =? 0 then (if neg then PrimFloat.neg_zero else PrimFloat.zero)
  else if 400 <? e10 then (if neg then PrimFloat.neg_infinity else PrimFloat.infinity)
  else if (Z.log2 m + 1) / 3 + 1 + e10 <? -400 then
    (if neg then PrimFloat.neg_zero else PrimFloat.zero)
  else if 0 <=? e10 then
    SF2Prim (binary_round_aux prec emax neg (m * 10 ^ e10) 0 loc_Exact)
  else
    let d := 10 ^ (- e10) in
    let s := Z.max 0 (Z.log2 d + 64 - Z.log2 m) in
    let n := m * 2 ^ s in
    let q := n / d in
    let r := n mod d in
    let loc := if r =? 0 then loc_Exact else loc_Inexact (2 * r ?= d) in
    SF2Prim (binary_round_aux prec emax neg q (- s) loc).

Definition digit_of (base : Z) (c : ascii) : option Z :=
  let x := Z.of_N (code c) in
  let v := if (48 <=? x) && (x <=? 57) then x - 48
           else if (97 <=? x) && (x <=? 102) then x - 87
           else if (65 <=? x) && (x <=? 70) then x - 55
           else 99 in
  if v <? base then Some v else None.

(** The longest run of digits at the head of [s]: its value on top of
    [acc], the number of digits, and the rest of [s]. *)
Fixpoint digits (base : Z) (s : string) (acc n : Z) : Z * Z * string :=
  match s with
  | EmptyString => (acc, n, s)
  | String c s' =>
    match digit_of base c with
    | Some d => digits base s' (acc * base + d) (n + 1)
    | None => (acc, n, s)
    end
  end.

(** [NonDecimalIntegerLiteral] without its two-character prefix. *)
Definition radix_literal (base : Z) (s : string) : float :=
  let '(v, n, rest) := digits base s 0 0 in
  if (0 <? n) && (String.length rest =? 0)%nat
  then SF2Prim (binary_normalize prec emax v 0 false)
  else PrimFloat.nan.

(** [ExponentPart] (or nothing) up to the end of the string. *)
Definition exponent_part (s : string) : option Z :=
  match s with
  | EmptyString => Some 0
  | String c s1 =>
    if (code c =? 101)%N || (code c =? 69)%N then
      let '(neg, s2) :=
        match s1 with
        | String sg s2' =>
          if (code sg =? 45)%N then (true, s2')
          else if (code sg =? 43)%N then (false, s2')
          else (false, s1)
        | EmptyString => (false, s1)
        end in
      let '(v, n, rest) := digits 10 s2 0 0 in
      if (0 <? n) && (String.length rest =? 0)%nat
      then Some (if neg then - v else v) else None
    else None
  end.

(** [StrUnsignedDecimalLiteral] *)
Definition unsigned_decimal (neg : bool) (s : string) : float :=
  if String.eqb s "Infinity" then
    (if neg then PrimFloat.neg_infinity else PrimFloat.infinity)
  else
    let '(i, ni, s1) := digits 10 s 0 0 in
    let '(m, nf, s2) :=
      match s1 with
      | String c s1' =>
        if (code c =? 46)%N then
          let '(m, nd, s2) := digits 10 s1' i ni in (m, nd - ni, s2)
        else (i, 0, s1)
      | EmptyString => (i, 0, s1)
      end in
    if ni + nf =? 0 then PrimFloat.nan
    else
      match exponent_part s2 with
      | Some e => round_decimal neg m (e - nf)
      | None => PrimFloat.nan
      end.

(** [Number(s)] for a string [s] ([StringToNumber]). *)
Definition ofString (s : string) : float :=
  match trim s with
  | EmptyString => PrimFloat.zero
  | String a (String b s2) as t =>
    if (code a =? 48)%N && ((code b =? 120)%N || (code b =? 88)%N) then radix_literal 16 s2
    else if (code a =? 48)%N && ((code b =? 111)%N || (code b =? 79)%N) then radix_literal 8 s2
    else if (code a =? 48)%N && ((code b =? 98)%N || (code b =? 66)%N) then radix_literal 2 s2
    else if (code a =? 45)%N then unsigned_decimal true (String b s2)
    else if (code a =? 43)%N then unsigned_decimal false (String b s2)
    else unsigned_decimal false t
  | t => unsigned_decimal false t
  end.

(** *** [Number::toString] *)

(** [p/q ?= 10^n] for positive [p], [q]. *)
Definition cmp_pow10 (p q n : Z) : comparison :=
  if 0 <=? n then p ?= q * 10 ^ n else p * 10 ^ (- n) ?= q.

Fixpoint raise_exp (fuel : nat) (p q n : Z) : Z :=
  match fuel with
  | O => n
  | S f => match cmp_pow10 p q n with
           | Lt => n
           | _ => raise_exp f p q (n + 1)
           end
  end.

Fixpoint lower_exp (fuel : nat) (p q n : Z) : Z :=
  match fuel with
  | O => n
  | S f => match cmp_pow10 p q (n - 1) with
           | Lt => lower_exp f p q (n - 1)
           | _ => n
           end
  end.

(** The [n] with [10^(n-1) <= p/q < 10^n]. *)
Definition decimal_exponent (p q : Z) : Z :=
  let est := ((Z.log2 p - Z.log2 q) * 30103) / 100000 in
  lower_exp 4 p q (raise_exp 4 p q est).

Definition decimal_digits (z : Z) : string := pretty (Z.to_N z).

Fixpoint strip_zeros_rev (s : list ascii) : list ascii :=
  match s with
  | c :: s' => if (code c =? 48)%N then strip_zeros_rev s' else s
  | [] => []
  end.

Definition strip_trailing_zeros (s : string) : string :=
  string_of_list_ascii (rev (strip_zeros_rev (rev (list_ascii_of_string s)))).

(** The shortest digit string [d] and the exponent [n] such that
    [0.d * 10^n] reads back as [x]; the nearest such to [x].
    [x = p/q > 0]; [k] counts the digits tried so far. *)
Fixpoint shortest (fuel : nat) (x : float) (p q n0 k : Z) : string * Z :=
  match fuel with
  | O => (decimal_digits 0, 1)
  | S f =>
    let j := n0 - k in
    let a := if 0 <=? j then p else p * 10 ^ (- j) in
    let b := if 0 <=? j then q * 10 ^ j else q in
    let lo := a / b in
    let r := a mod b in
    let hi := lo + 1 in
    let ok_lo := PrimFloat.eqb (round_decimal false lo j) x in
    let ok_hi := PrimFloat.eqb (round_decimal false hi j) x in
    let pick (s : Z) :=
      let d := decimal_digits s in
      (strip_trailing_zeros d, n0 + (Z.of_nat (String.length d) - k)) in
    if ok_lo && ok_hi then
      match 2 * r ?= b with
      | Lt => pick lo
      | Gt => pick hi
      | Eq => if Z.even lo then pick lo else pick hi
      end
    else if ok_lo then pick lo
    else if ok_hi then pick hi
    else shortest f x p q n0 (k + 1)
  end.

Definition zeros (n : Z) : string := string_of_list_ascii (repeat "0"%char (Z.to_nat n)).

Definition take_str (n : Z) (s : string) : string := String.substring 0 (Z.to_nat n) s.
Definition drop_str (n : Z) (s : string) : string :=
  String.substring (Z.to_nat n) (String.length s - Z.to_nat n) s.

Definition format_digits (d : string) (n : Z) : string :=
  let k := Z.of_nat (String.length d) in
  if (k <=? n) && (n <=? 21) then d ++ zeros (n - k)
  else if (0 <? n) && (n <=? 21) then take_str n d ++ "." ++ drop_str n d
  else if (-6 <? n) && (n <=? 0) then "0." ++ zeros (- n) ++ d
  else
    let e := n - 1 in
    let es := (if e <? 0 then "-" else "+") ++ decimal_digits (Z.abs e) in
    if k =? 1 then d ++ "e" ++ es
    else take_str 1 d ++ "." ++ drop_str 1 d ++ "e" ++ es.

(** [String(x)] for a number [x]. *)
Definition toString (x : float) : string :=
  match Prim2SF x with
  | S754_nan => "NaN"
  | S754_zero _ => "0"
  | S754_infinity s => if s then "-Infinity" else "Infinity"
  | S754_finite s m e =>
    let p := if 0 <=? e then Zpos m * 2 ^ e else Zpos m in
    let q := if 0 <=? e then 1 else 2 ^ (- e) in
    let '(d, n) := shortest 17 (PrimFloat.abs x) p q (decimal_exponent p q) 1 in
    (if s then "-" else "") ++ format_digits d n
  end.

End JsNumber.

(** ** Dates *)

Module JsDate.

Local Open Scope Z_scope.

Definition msPerDay : Z := 86400000.

(** [Day(t)] for a time value [t], in milliseconds since the epoch *)
Definition Day (t : Z) : Z := t / msPerDay.

Definition DayFromYear (y : Z) : Z :=
  365 * (y - 1970) + (y - 1969) / 4 - (y - 1901) / 100 + (y - 1601) / 400.

(** [YearFromTime]: the largest [y] with [DayFromYear y <= day].  The year
    is at most one off the quotient by the mean length of a year. *)
Definition YearFromDay (day : Z) : Z :=
  let y0 := 1970 + (400 * day) / 146097 in
  if day <? DayFromYear y0 then y0 - 1
  else if DayFromYear (y0 + 1) <=? day then y0 + 1
  else y0.

Definition DaysInYear (y : Z) : Z :=
  if negb (y mod 4 =? 0) then 365
  else if negb (y mod 100 =? 0) then 366
  else if negb (y mod 400 =? 0) then 365
  else 366.

Definition InLeapYear (y : Z) : Z := if DaysInYear y =? 366 then 1 else 0.

(** [MonthFromTime] and [DateFromTime], from the day within the year and
    [InLeapYear]. *)
Definition MonthAndDate (d leap : Z) : Z * Z :=
  if d <? 31 then (0, d + 1)
  else if d <? 59 + leap then (1, d - 30)
  else if d <? 90 + leap then (2, d - 58 - leap)
  else if d <? 120 + leap then (3, d - 89 - leap)
  else if d <? 151 + leap then (4, d - 119 - leap)
  else if d <? 181 + leap then (5, d - 150 - leap)
  else if d <? 212 + leap then (6, d - 180 - leap)
  else if d <? 243 + leap then (7, d - 211 - leap)
  else if d <? 273 + leap then (8, d - 242 - leap)
  else if d <? 304 + leap then (9, d - 272 - leap)
  else if d <? 334 + leap then (10, d - 303 - leap)
  else (11, d - 333 - leap).

(** The year, the month (from 1) and the day of the month of a time
    value, in UTC. *)
Definition civil (t : Z) : Z * Z * Z :=
  let day := Day t in
  let y := YearFromDay day in
  let '(m, d) := MonthAndDate (day - DayFromYear y) (InLeapYear y) in
  (y, m + 1, d).

(** The last [w] decimal digits of [n]. *)
Fixpoint fixedWidth (w : nat) (n : Z) : string :=
  match w with
  | O => ""
  | S w' => fixedWidth w' (n / 10) ++ String (ascii_of_N (48 + Z.to_N (n mod 10))) ""
  end.

(** The year of [toISOString]: four digits from 0 to 9999, a sign and six
    digits otherwise. *)
Definition isoYear (y : Z) : string :=
  if (0 <=? y) && (y <=? 9999) then fixedWidth 4 y
  else (if y <? 0 then "-" else "+") ++ fixedWidth 6 (Z.abs y).

(** The part of [new Date(t).toISOString()] before the [T]. *)
Definition isoDay (t : Z) : string :=
  let '(y, m, d) := civil t in
  isoYear y ++ "-" ++ fixedWidth 2 m ++ "-" ++ fixedWidth 2 d.

(** [new Date(t).toISOString().slice(0, 10)] *)
Definition isoDate (t : Z) : string := String.substring 0 10 (isoDay t).

(** The days of the year before the month [m] (from 1). *)
Definition daysBefore (m leap : Z) : Z :=
  if m =? 1 then 0
  else if m =? 2 then 31
  else if m =? 3 then 59 + leap
  else if m =? 4 then 90 + leap
  else if m =? 5 then 120 + leap
  else if m =? 6 then 151 + leap
  else if m =? 7 then 181 + leap
  else if m =? 8 then 212 + leap
  else if m =? 9 then 243 + leap
  else if m =? 10 then 273 + leap
  else if m =? 11 then 304 + leap
  else if m =? 12 then 334 + leap
  else 365 + leap.

Definition digit (c : ascii) : option Z :=
  let x := Z.of_N (N_of_ascii c) in
  if (48 <=? x) && (x <=? 57) then Some (x - 48) else None.

Fixpoint digitsValue (l : list ascii) (acc : Z) : option Z :=
  match l with
  | [] => Some acc
  | c :: l' =>
    match digit c with
    | Some d => digitsValue l' (10 * acc + d)
    | None => None
    end
  end.

(** The time value of the date-only form [YYYY-MM-DD] of the standard's
    date-time format, which is read as UTC; [None] for any other string and
    for a month or a day that the calendar does not have. *)
Definition parseDateOnly (s : string) : option Z :=
  match list_ascii_of_string s with
  | [y1; y2; y3; y4; h1; m1; m2; h2; d1; d2] =>
    match digitsValue [y1; y2; y3; y4] 0, digitsValue [m1; m2] 0,
          digitsValue [d1; d2] 0 with
    | Some y, Some m, Some d =>
      let leap := InLeapYear y in
      if (N_of_ascii h1 =? 45)%N && (N_of_ascii h2 =? 45)%N
         && (1 <=? m) && (m <=? 12) && (1 <=? d)
         && (d <=? daysBefore (m + 1) leap - daysBefore m leap)
      then Some ((DayFromYear y + daysBefore m leap + d - 1) * msPerDay)
      else None
    | _, _, _ => None
    end
  | _ => None
  end.

(** [TimeClip]: a time value is at most 8.64e15 milliseconds away from the
    epoch. *)
Definition timeClip (t : Z) : option Z :=
  if Z.abs t <=? 8640000000000000 then Some t else None.

End JsDate.

(** ** Values of [row_data] *)

(** [JObj text] is an object or a function, known by the string that
    [String] makes of it: what reading a member of [Object.prototype]
    gives. *)
Inductive JsVal : Type :=
| JUndefined
| JNull
| JNum (x : float)
| JStr (s : string)
| JObj (text : string).

(** Host-defined built-ins.  [localeCompare a b] is [a.localeCompare(b)];
    [dateParse s] is what the parser of [Date] makes of [s], in milliseconds
    since the epoch, [None] where it is [NaN];
    [lowerCase s] is [s.toLowerCase()], which makes the empty string of
    the empty string only; [memberText k] is [String(Object.prototype[k])]
    for a method [k] of [Object.prototype]. *)
Class Host : Type := {
  localeCompare : string -> string -> float;
  dateParse : string -> option Z;
  lowerCase : string -> string;
  memberText : string -> string;
  lowerCase_empty : forall s, lowerCase s = "" <-> s = ""
}.

(** A host for the examples: it collates by byte order, reads the dates
    written [YYYY-MM-DD] and no other, knows the letters of ASCII only, and
    prints a built-in function on one line. *)
Definition plainHost : Host :=
  {| localeCompare := fun a b =>
       match String.compare a b with
       | Lt => (-1)%float
       | Eq => 0%float
       | Gt => 1%float
       end;
     dateParse := JsDate.parseDateOnly;
     lowerCase := JsString.toLowerCase;
     memberText := fun k =>
       "function " ++ (if String.eqb k "constructor" then "Object" else k)
       ++ "() { [native code] }";
     lowerCase_empty := fun s =>
       match s with
       | EmptyString => conj (fun _ => eq_refl) (fun _ => eq_refl)
       | String a s' =>
         conj (fun H : JsString.toLowerCase (String a s') = "" =>
                 match H in _ = t return match t with
                                         | EmptyString => String a s' = ""
                                         | String _ _ => True
                                         end with
                 | eq_refl => I
                 end)
              (fun H : String a s' = "" =>
                 match H in _ = t return match t with
                                         | EmptyString =>
                                           JsString.toLowerCase (String a s') = ""
                                         | String _ _ => True
                                         end with
                 | eq_refl => I
                 end)
       end |}.

(** The time value of [new Date(s)]: the parser's, clipped; [None] for an
    invalid date, whose [getTime()] is [NaN]. *)
Definition newDate `{Host} (s : string) : option Z :=
  match dateParse s with
  | Some t => JsDate.timeClip t
  | None => None
  end.

Module JsValue.

(** [String(v)] *)
Definition toStr (v : JsVal) : string :=
  match v with
  | JUndefined => "undefined"
  | JNull => "null"
  | JNum x => JsNumber.toString x
  | JStr s => s
  | JObj text => text
  end.

(** [v === null || v === undefined] *)
Definition nullish (v : JsVal) : bool :=
  match v with
  | JUndefined | JNull => true
  | _ => false
  end.

(** [v ?? d] *)
Definition orElse (v d : JsVal) : JsVal := if nullish v then d else v.

(** [v === ""] *)
Definition isEmptyStr (v : JsVal) : bool :=
  match v with
  | JStr EmptyString => true
  | _ => false
  end.

(** [!v] *)
Definition falsy (v : JsVal) : bool :=
  match v with
  | JUndefined | JNull => true
  | JNum x => JsNumber.falsy x
  | JStr s => match s with EmptyString => true | _ => false end
  | JObj _ => false
  end.

(** The names of the members of [Object.prototype]. *)
Definition prototypeNames : list string :=
  ["constructor"; "__defineGetter__"; "__defineSetter__"; "hasOwnProperty";
   "__lookupGetter__"; "__lookupSetter__"; "isPrototypeOf";
   "propertyIsEnumerable"; "toString"; "valueOf"; "__proto__"; "toLocaleString"].

Definition inPrototype (k : string) : bool :=
  existsb (String.eqb k) prototypeNames.

(** What the prototype chain of an object holds under a key: nothing, a
    data property, or the accessor [__proto__], with the value that reading
    it gives. *)
Inductive Inherited : Type :=
| Nothing
| Data (v : JsVal)
| Accessor (v : JsVal).

Definition fromChain (c : Inherited) : JsVal :=
  match c with
  | Nothing => JUndefined
  | Data v | Accessor v => v
  end.

Section Objects.

Context `{Host}.

(** What an object whose prototype is [Object.prototype] inherits under
    [k]: the methods are data properties, and the getter of [__proto__]
    gives [Object.prototype] itself, whose string is [[object Object]]. *)
Definition inherited (k : string) : Inherited :=
  if String.eqb k "__proto__" then Accessor (JObj "[object Object]")
  else if inPrototype k then Data (JObj (memberText k))
  else Nothing.

(** [rd[k]], for the own properties [rd] of an object whose prototype is
    [Object.prototype] *)
Definition get (rd : gmap string JsVal) (k : string) : JsVal :=
  match rd !! k with
  | Some v => v
  | None => fromChain (inherited k)
  end.

(** [row_data?.[k]] *)
Definition getOptional (row_data : option (gmap string JsVal)) (k : string) : JsVal :=
  match row_data with
  | Some rd => get rd k
  | None => JUndefined
  end.

End Objects.

(** [k in rd] *)
Definition has (rd : gmap string JsVal) (k : string) : bool :=
  bool_decide (is_Some (rd !! k)) || inPrototype k.

(** An object under construction: its own properties, and what its
    prototype chain holds under the one key that the code reads and
    assigns. *)
Definition Slot : Type := gmap string JsVal * Inherited.

(** [o[k]] *)
Definition read (k : string) (o : Slot) : JsVal :=
  match fst o !! k with
  | Some v => v
  | None => fromChain (snd o)
  end.

(** [o[k] = v].  An own property is written, and one is made when the chain
    has nothing, or a data property (those of [Object.prototype] can be
    written), under [k].  With the accessor [__proto__] in the chain the
    value goes to its setter, which makes no property: it makes an object
    the prototype, so that the getter gives that object; it takes the
    prototype away for [null], so that the chain holds nothing any more; and
    it ignores every other value. *)
Definition assign (k : string) (v : JsVal) (o : Slot) : Slot :=
  match fst o !! k, snd o with
  | None, Accessor _ =>
    (fst o,
     match v with
     | JObj _ => Accessor v
     | JNull => Nothing
     | _ => snd o
     end)
  | _, _ => (<[k := v]> (fst o), snd o)
  end.

(** [delete o[k]], for a key other than the one of the slot *)
Definition remove (k : string) (o : Slot) : Slot := (delete k (fst o), snd o).

(** [o[k] = a] for a number or a string [a] and an object [o] whose
    prototype is [Object.prototype]: the setter of [__proto__] ignores it. *)
Definition assignPrimitive {A} (k : string) (a : A) (o : gmap string A) : gmap string A :=
  if String.eqb k "__proto__" && bool_decide (o !! k = None) then o
  else <[k := a]> o.

(** [Object.values(rd)] *)
Definition values (rd : gmap string JsVal) : list JsVal :=
  (map_to_list rd).*2.

End JsValue.

(** ** The persistence service *)

Module Store.

(** [ColumnType] *)
Inductive ColumnType : Type := text | number | currency | date.

Definition typeName (t : ColumnType) : string :=
  match t with
  | text => "text"
  | number => "number"
  | currency => "currency"
  | date => "date"
  end.

Record DbTable : Type := {
  t_id : string;
  t_user_id : string;
  t_name : string;
  t_created_at : string
}.

Record DbColumn : Type := {
  c_id : string;
  c_table_id : string;
  c_name : string;
  c_type : string;
  c_created_at : string
}.

Record DbRow : Type := {
  r_id : string;
  r_table_id : string;
  row_data : option (gmap string JsVal);
  r_created_at : string
}.

(** [(r.row_data ?? {})] *)
Definition rd (r : DbRow) : gmap string JsVal := default ∅ (row_data r).

Definition with_row_data (r : DbRow) (d : gmap string JsVal) : DbRow :=
  {| r_id := r_id r; r_table_id := r_table_id r;
     row_data := Some d; r_created_at := r_created_at r |}.

(** The three relations, each in creation order, and the counter new
    identifiers and timestamps are taken from. *)
Record Db : Type := {
  user_tables : list DbTable;
  user_columns : list DbColumn;
  user_rows : list DbRow;
  clock : nat
}.

(** The calls the handlers make. *)
Inductive Query : Type :=
| SelectTables (uid : string)
| SelectColumns (tid : string)
| SelectRows (tid : string)
| InsertColumn (tid name type : string)
| UpdateColumn (cid name type : string)
| UpdateRowData (rid : string) (d : gmap string JsVal)
| DeleteRows (tid : string)
| DeleteColumns (tid : string)
| DeleteTable (id : string).

Inductive Data : Type :=
| Tables (l : list DbTable)
| Columns (l : list DbColumn)
| Rows (l : list DbRow)
| NoData.

(** [{ data, error }] *)
Inductive Response : Type :=
| Ok (data : Data)
| Error (message : string).

Definition tablesOf (d : Data) : list DbTable :=
  match d with Tables l => l | _ => [] end.
Definition columnsOf (d : Data) : list DbColumn :=
  match d with Columns l => l | _ => [] end.
Definition rowsOf (d : Data) : list DbRow :=
  match d with Rows l => l | _ => [] end.

Definition withTables (l : list DbTable) (d : Db) : Db :=
  {| user_tables := l; user_columns := user_columns d; user_rows := user_rows d;
     clock := clock d |}.

Definition withColumns (l : list DbColumn) (d : Db) : Db :=
  {| user_tables := user_tables d; user_columns := l; user_rows := user_rows d;
     clock := clock d |}.

Definition withRows (l : list DbRow) (d : Db) : Db :=
  {| user_tables := user_tables d; user_columns := user_columns d; user_rows := l;
     clock := clock d |}.

Definition tick (d : Db) : Db :=
  {| user_tables := user_tables d; user_columns := user_columns d;
     user_rows := user_rows d; clock := S (clock d) |}.

(** [update({ row_data: data }).eq("id", rid)] on one row. *)
Definition updateRow (rid : string) (data : gmap string JsVal) (r : DbRow) : DbRow :=
  if decide (r_id r = rid) then with_row_data r data else r.

(** [update({ name, type }).eq("id", cid)] on one column. *)
Definition updateColumn (cid name type : string) (c : DbColumn) : DbColumn :=
  if decide (c_id c = cid)
  then {| c_id := c_id c; c_table_id := c_table_id c; c_name := name;
          c_type := type; c_created_at := c_created_at c |}
  else c.

(** What a call that succeeds does to the store. *)
Definition run (q : Query) (d : Db) : Data * Db :=
  match q with
  | SelectTables uid =>
    (Tables (filter (fun t => t_user_id t = uid) (user_tables d)), d)
  | SelectColumns tid =>
    (Columns (filter (fun c => c_table_id c = tid) (user_columns d)), d)
  | SelectRows tid =>
    (Rows (filter (fun r => r_table_id r = tid) (user_rows d)), d)
  | InsertColumn tid name type =>
    (NoData,
     tick (withColumns
             (user_columns d ++
              [{| c_id := "col-" ++ pretty (clock d); c_table_id := tid;
                  c_name := name; c_type := type;
                  c_created_at := pretty (clock d) |}])
             d))
  | UpdateColumn cid name type =>
    (NoData, withColumns (map (updateColumn cid name type) (user_columns d)) d)
  | UpdateRowData rid data =>
    (NoData, withRows (map (updateRow rid data) (user_rows d)) d)
  | DeleteRows tid =>
    (NoData, withRows (filter (fun r => r_table_id r <> tid) (user_rows d)) d)
  | DeleteColumns tid =>
    (NoData, withColumns (filter (fun c => c_table_id c <> tid) (user_columns d)) d)
  | DeleteTable id =>
    (NoData, withTables (filter (fun t => t_id t <> id) (user_tables d)) d)
  end.

(** The calls that delete. *)
Definition isDeletion (q : Query) : bool :=
  match q with
  | DeleteRows _ | DeleteColumns _ | DeleteTable _ => true
  | _ => false
  end.

Inductive Toast : Type :=
| ToastError (message : string)
| ToastSuccess (message : string).

(** The world a handler runs in: the store, the outcome of the calls to
    come ([Some m]: the call fails with message [m] and changes nothing;
    [None], or no entry left: it succeeds), the calls made so far and the
    toasts shown so far, both oldest first. *)
Record World : Type := {
  db : Db;
  faults : list (option string);
  calls : list Query;
  toasts : list Toast
}.

Definition M (A : Type) : Type := World -> A * World.

Definition ret {A} (a : A) : M A := fun w => (a, w).

Definition bind {A B} (m : M A) (k : A -> M B) : M B :=
  fun w => let '(a, w') := m w in k a w'.

(** [await supabase.from(..)...] *)
Definition supabase (q : Query) : M Response :=
  fun w =>
    match faults w with
    | Some m :: fs =>
      (Error m,
       {| db := db w; faults := fs; calls := calls w ++ [q]; toasts := toasts w |})
    | _ =>
      let '(data, d') := run q (db w) in
      (Ok data,
       {| db := d'; faults := tail (faults w); calls := calls w ++ [q];
          toasts := toasts w |})
    end.

Definition toast (t : Toast) : M unit :=
  fun w =>
    (tt, {| db := db w; faults := faults w; calls := calls w;
            toasts := toasts w ++ [t] |}).

(** [await Promise.all(l.map(f))], the calls taken in the order of [l]. *)
Fixpoint forEach {A} (f : A -> M unit) (l : list A) : M unit :=
  match l with
  | [] => ret tt
  | a :: l' => bind (f a) (fun _ => forEach f l')
  end.

End Store.

Notation "x <~ c1 ;; c2" := (Store.bind c1 (fun x => c2))
  (at level 100, c1 at next level, right associativity).
Notation "c1 ;;; c2" := (Store.bind c1 (fun _ => c2))
  (at level 100, right associativity).

(** ** [Array.prototype.sort] *)

Module JsArray.

Section Sort.

Context {A : Type} (cmp : A -> A -> float).

(** [x], which came before every element of [l], ends up after [y] only
    when the comparator puts it strictly after: [cmp x y > 0].  A
    comparator result that is [NaN] counts as [0]. *)
Definition after (x y : A) : bool := PrimFloat.ltb PrimFloat.zero (cmp x y).

Fixpoint insert (x : A) (l : list A) : list A :=
  match l with
  | [] => [x]
  | y :: l' => if after x y then y :: insert x l' else x :: l
  end.

(** The sort is stable (ECMAScript 2019); for a consistent comparator
    the result is the one of every stable sort. *)
Fixpoint sort (l : list A) : list A :=
  match l with
  | [] => []
  | x :: l' => insert x (sort l')
  end.

(** The comparator orders the elements of [l] strictly: two different
    elements never compare equal, and it is asymmetric and transitive. *)
Definition strictOn (l : list A) : Prop :=
  (forall a b, a ∈ l -> b ∈ l -> a <> b -> after a b = true \/ after b a = true)
  /\ (forall a b, a ∈ l -> b ∈ l -> after a b = true -> after b a = false)
  /\ (forall a b c, a ∈ l -> b ∈ l -> c ∈ l ->
         after a b = true -> after b c = true -> after a c = true).

End Sort.

(** [a] comes before [b] in [l]. *)
Definition before {A} (a b : A) (l : list A) : Prop := [a; b] `sublist_of` l.

End JsArray.

(** ** The tables page ([src/pages/TablesPage.tsx]) *)

Module TablesPage.

Import JsString Store.

Definition toNumberSafe (v : JsVal) : float :=
  match v with
  | JNull | JUndefined => PrimFloat.zero
  | JStr EmptyString => PrimFloat.zero
  | JNum x => if JsNumber.isFinite x then x else PrimFloat.zero
  | JStr s | JObj s =>
    let n := JsNumber.ofString (removeCommas s) in
    if JsNumber.isFinite n then n else PrimFloat.zero
  end.

Inductive SortDirection : Type := asc | desc.

(** The state of the component that the handlers below read or write. *)
Record Page : Type := {
  userId : option string;
  tables : list DbTable;
  selectedTable : option DbTable;
  columns : list DbColumn;
  rows : list DbRow;
  isColumnDialogOpen : bool;
  newColumnName : string;
  newColumnType : ColumnType;
  searchQuery : string;
  sortColumnName : option string;
  sortDirection : SortDirection;
  editingColumnId : option string;
  editingColumnName : string;
  editingColumnType : ColumnType
}.

Definition setTables (l : list DbTable) (p : Page) : Page :=
  {| userId := userId p; tables := l; selectedTable := selectedTable p;
     columns := columns p; rows := rows p;
     isColumnDialogOpen := isColumnDialogOpen p;
     newColumnName := newColumnName p; newColumnType := newColumnType p;
     searchQuery := searchQuery p; sortColumnName := sortColumnName p;
     sortDirection := sortDirection p; editingColumnId := editingColumnId p;
     editingColumnName := editingColumnName p;
     editingColumnType := editingColumnType p |}.

Definition setSelectedTable (t : option DbTable) (p : Page) : Page :=
  {| userId := userId p; tables := tables p; selectedTable := t;
     columns := columns p; rows := rows p;
     isColumnDialogOpen := isColumnDialogOpen p;
     newColumnName := newColumnName p; newColumnType := newColumnType p;
     searchQuery := searchQuery p; sortColumnName := sortColumnName p;
     sortDirection := sortDirection p; editingColumnId := editingColumnId p;
     editingColumnName := editingColumnName p;
     editingColumnType := editingColumnType p |}.

Definition setColumns (l : list DbColumn) (p : Page) : Page :=
  {| userId := userId p; tables := tables p; selectedTable := selectedTable p;
     columns := l; rows := rows p;
     isColumnDialogOpen := isColumnDialogOpen p;
     newColumnName := newColumnName p; newColumnType := newColumnType p;
     searchQuery := searchQuery p; sortColumnName := sortColumnName p;
     sortDirection := sortDirection p; editingColumnId := editingColumnId p;
     editingColumnName := editingColumnName p;
     editingColumnType := editingColumnType p |}.

Definition setRows (l : list DbRow) (p : Page) : Page :=
  {| userId := userId p; tables := tables p; selectedTable := selectedTable p;
     columns := columns p; rows := l;
     isColumnDialogOpen := isColumnDialogOpen p;
     newColumnName := newColumnName p; newColumnType := newColumnType p;
     searchQuery := searchQuery p; sortColumnName := sortColumnName p;
     sortDirection := sortDirection p; editingColumnId := editingColumnId p;
     editingColumnName := editingColumnName p;
     editingColumnType := editingColumnType p |}.

(** [setNewColumnName(""); setNewColumnType("text"); setIsColumnDialogOpen(false)] *)
Definition closeColumnDialog (p : Page) : Page :=
  {| userId := userId p; tables := tables p; selectedTable := selectedTable p;
     columns := columns p; rows := rows p;
     isColumnDialogOpen := false;
     newColumnName := ""; newColumnType := text;
     searchQuery := searchQuery p; sortColumnName := sortColumnName p;
     sortDirection := sortDirection p; editingColumnId := editingColumnId p;
     editingColumnName := editingColumnName p;
     editingColumnType := editingColumnType p |}.

(** [setEditingColumnId(null); setEditingColumnName(""); setEditingColumnType("text")] *)
Definition closeColumnEdit (p : Page) : Page :=
  {| userId := userId p; tables := tables p; selectedTable := selectedTable p;
     columns := columns p; rows := rows p;
     isColumnDialogOpen := isColumnDialogOpen p;
     newColumnName := newColumnName p; newColumnType := newColumnType p;
     searchQuery := searchQuery p; sortColumnName := sortColumnName p;
     sortDirection := sortDirection p; editingColumnId := None;
     editingColumnName := ""; editingColumnType := text |}.

(** Typing into the dialog of a new column. *)
Definition setNewColumn (name : string) (type : ColumnType) (p : Page) : Page :=
  {| userId := userId p; tables := tables p; selectedTable := selectedTable p;
     columns := columns p; rows := rows p;
     isColumnDialogOpen := true;
     newColumnName := name; newColumnType := type;
     searchQuery := searchQuery p; sortColumnName := sortColumnName p;
     sortDirection := sortDirection p; editingColumnId := editingColumnId p;
     editingColumnName := editingColumnName p;
     editingColumnType := editingColumnType p |}.

(** Typing into the editor of a column. *)
Definition setEditingColumn (cid name : string) (type : ColumnType) (p : Page) : Page :=
  {| userId := userId p; tables := tables p; selectedTable := selectedTable p;
     columns := columns p; rows := rows p;
     isColumnDialogOpen := isColumnDialogOpen p;
     newColumnName := newColumnName p; newColumnType := newColumnType p;
     searchQuery := searchQuery p; sortColumnName := sortColumnName p;
     sortDirection := sortDirection p; editingColumnId := Some cid;
     editingColumnName := name; editingColumnType := type |}.

Definition setSearchQuery (s : string) (p : Page) : Page :=
  {| userId := userId p; tables := tables p; selectedTable := selectedTable p;
     columns := columns p; rows := rows p;
     isColumnDialogOpen := isColumnDialogOpen p;
     newColumnName := newColumnName p; newColumnType := newColumnType p;
     searchQuery := s; sortColumnName := sortColumnName p;
     sortDirection := sortDirection p; editingColumnId := editingColumnId p;
     editingColumnName := editingColumnName p;
     editingColumnType := editingColumnType p |}.

Definition setSort (c : option string) (d : SortDirection) (p : Page) : Page :=
  {| userId := userId p; tables := tables p; selectedTable := selectedTable p;
     columns := columns p; rows := rows p;
     isColumnDialogOpen := isColumnDialogOpen p;
     newColumnName := newColumnName p; newColumnType := newColumnType p;
     searchQuery := searchQuery p; sortColumnName := c;
     sortDirection := d; editingColumnId := editingColumnId p;
     editingColumnName := editingColumnName p;
     editingColumnType := editingColumnType p |}.

(** A handler reads the state of the render it was created in ([p0]) and
    queues its updates on the state to come ([p]). *)

Definition loadTables (p0 p : Page) : M Page :=
  match userId p0 with
  | None => ret p
  | Some uid =>
    res <~ supabase (SelectTables uid) ;;
    match res with
    | Error m => toast (ToastError m) ;;; ret p
    | Ok data =>
      let list := tablesOf data in
      let p1 := setTables list p in
      ret match selectedTable p0 with
          | Some sel =>
            if existsb (fun t => String.eqb (t_id t) (t_id sel)) list then p1
            else setSelectedTable (head list) p1
          | None =>
            match list with
            | t :: _ => setSelectedTable (Some t) p1
            | [] => p1
            end
          end
    end
  end.

Definition loadTableData (tableId : string) (p : Page) : M Page :=
  colRes <~ supabase (SelectColumns tableId) ;;
  rowRes <~ supabase (SelectRows tableId) ;;
  match colRes with Error m => toast (ToastError m) | Ok _ => ret tt end ;;;
  match rowRes with Error m => toast (ToastError m) | Ok _ => ret tt end ;;;
  let cols := match colRes with Ok d => columnsOf d | Error _ => [] end in
  let rws := match rowRes with Ok d => rowsOf d | Error _ => [] end in
  ret (setRows (map (fun r => with_row_data r (rd r)) rws) (setColumns cols p)).

(** [e?.message || "Table delete failed"] *)
Definition deleteFailure (m : string) : string :=
  match m with
  | EmptyString => "Table delete failed"
  | _ => m
  end.

Definition handleDeleteTable (tableId : string) (p : Page) : M Page :=
  rowsDel <~ supabase (DeleteRows tableId) ;;
  match rowsDel with
  | Error m => toast (ToastError (deleteFailure m)) ;;; ret p
  | Ok _ =>
    colsDel <~ supabase (DeleteColumns tableId) ;;
    match colsDel with
    | Error m => toast (ToastError (deleteFailure m)) ;;; ret p
    | Ok _ =>
      tableDel <~ supabase (DeleteTable tableId) ;;
      match tableDel with
      | Error m => toast (ToastError (deleteFailure m)) ;;; ret p
      | Ok _ =>
        toast (ToastSuccess "Table deleted") ;;;
        let p1 :=
          match selectedTable p with
          | Some sel =>
            if String.eqb (t_id sel) tableId
            then setRows [] (setColumns [] (setSelectedTable None p))
            else p
          | None => p
          end in
        loadTables p p1
      end
    end
  end.

Section WithHost.

Context `{Host}.

(** In the loop, [{ ...rd, [colName]: "" }] defines the key whatever its
    name. *)
Definition handleAddColumn (p : Page) : M Page :=
  match selectedTable p with
  | None => ret p
  | Some sel =>
    match trim (newColumnName p) with
    | EmptyString => toast (ToastError "Please enter a column name") ;;; ret p
    | colName =>
      res <~ supabase (InsertColumn (t_id sel) colName (typeName (newColumnType p))) ;;
      match res with
      | Error m => toast (ToastError m) ;;; ret p
      | Ok _ =>
        forEach
          (fun r =>
             match JsValue.get (rd r) colName with
             | JUndefined =>
               _ <~ supabase (UpdateRowData (r_id r) (<[colName := JStr ""]> (rd r))) ;;
               ret tt
             | _ => ret tt
             end)
          (rows p) ;;;
        toast (ToastSuccess "Column added") ;;;
        loadTableData (t_id sel) (closeColumnDialog p)
      end
    end
  end.

(** The value [handleColumnUpdate] stores under the column's key for the
    new type. *)
Definition sanitize (newType : ColumnType) (v : JsVal) : JsVal :=
  match newType with
  | number | currency =>
    if JsValue.isEmptyStr v || JsValue.nullish v then JStr ""
    else JNum (toNumberSafe v)
  | date =>
    if JsValue.falsy v then JStr ""
    else
      match newDate (JsValue.toStr v) with
      | None => JStr ""
      | Some t => JStr (JsDate.isoDate t)
      end
  | text =>
    if JsValue.nullish v then JStr "" else JStr (JsValue.toStr v)
  end.

(** The body of the loop of [handleColumnUpdate]: [updated] starts as a
    copy of the row's data, with [Object.prototype] for its prototype; the
    key is moved when the name changes; then the value under the new name
    is read, sanitized and assigned. *)
Definition updatedRowData (oldName newName : string) (newType : ColumnType)
    (d : gmap string JsVal) : gmap string JsVal :=
  let updated : JsValue.Slot := (d, JsValue.inherited newName) in
  let updated :=
    if decide (oldName = newName) then updated
    else JsValue.remove oldName
           (JsValue.assign newName (JsValue.get d oldName) updated) in
  let v := JsValue.read newName updated in
  fst (JsValue.assign newName (sanitize newType v) updated).

Definition handleColumnUpdate (col : DbColumn) (p : Page) : M Page :=
  match selectedTable p with
  | None => ret p
  | Some sel =>
    let newType := editingColumnType p in
    match trim (editingColumnName p) with
    | EmptyString => toast (ToastError "Column name required") ;;; ret p
    | newName =>
      res <~ supabase (UpdateColumn (c_id col) newName (typeName newType)) ;;
      match res with
      | Error m => toast (ToastError m) ;;; ret p
      | Ok _ =>
        forEach
          (fun r =>
             _ <~ supabase
                    (UpdateRowData (r_id r)
                       (updatedRowData (c_name col) newName newType (rd r))) ;;
             ret tt)
          (rows p) ;;;
        toast (ToastSuccess "Column updated") ;;;
        loadTableData (t_id sel) (closeColumnEdit p)
      end
    end
  end.

Definition isNumeric (type : string) : bool :=
  String.eqb type "number" || String.eqb type "currency".

(** [columns.find((c) => c.name === name)?.type ?? "text"] *)
Definition typeOfColumn (cols : list DbColumn) (name : string) : string :=
  match List.find (fun c => String.eqb (c_name c) name) cols with
  | Some c => c_type c
  | None => "text"
  end.

(** The test of the search filter on one row. *)
Definition rowMatches (q : string) (r : DbRow) : bool :=
  existsb
    (fun v => includes q (lowerCase (JsValue.toStr (JsValue.orElse v (JStr "")))))
    (JsValue.values (rd r)).

(** The comparator handed to [sort]. *)
Definition compareRows (type name : string) (dir : SortDirection) (a b : DbRow) : float :=
  let aVal := JsValue.orElse (JsValue.get (rd a) name) (JStr "") in
  let bVal := JsValue.orElse (JsValue.get (rd b) name) (JStr "") in
  if isNumeric type then
    let na := toNumberSafe aVal in
    let nb := toNumberSafe bVal in
    match dir with
    | asc => PrimFloat.sub na nb
    | desc => PrimFloat.sub nb na
    end
  else
    let sa := JsValue.toStr aVal in
    let sb := JsValue.toStr bVal in
    match dir with
    | asc => localeCompare sa sb
    | desc => localeCompare sb sa
    end.

Definition filtered (p : Page) : list DbRow :=
  match trim (searchQuery p) with
  | EmptyString => rows p
  | _ => List.filter (rowMatches (lowerCase (searchQuery p))) (rows p)
  end.

Definition filteredAndSortedRows (p : Page) : list DbRow :=
  let list := filtered p in
  match sortColumnName p with
  | None | Some EmptyString => list
  | Some name =>
    JsArray.sort (compareRows (typeOfColumn (columns p) name) name (sortDirection p)) list
  end.

Definition handleSort (colName : string) (p : Page) : Page :=
  if decide (sortColumnName p = Some colName) then
    setSort (sortColumnName p)
            (match sortDirection p with asc => desc | desc => asc end) p
  else setSort (Some colName) asc p.

(** [rows.reduce((sum, r) => sum + toNumberSafe(r.row_data[name]), 0)] *)
Definition sumColumn (name : string) (rs : list DbRow) : float :=
  fold_left (fun sum r => PrimFloat.add sum (toNumberSafe (JsValue.get (rd r) name)))
            rs PrimFloat.zero.

(** [totals] is an object: [totals[c.name] = ...] is an assignment. *)
Definition columnTotals (p : Page) : gmap string float :=
  fold_left
    (fun totals c =>
       if String.eqb (c_type c) "number" || String.eqb (c_type c) "currency"
       then JsValue.assignPrimitive (c_name c) (sumColumn (c_name c) (rows p)) totals
       else totals)
    (columns p) ∅.

(** The text of a cell that the search looks at: [String(v ?? "")]. *)
Definition cellText (v : JsVal) : string :=
  JsValue.toStr (JsValue.orElse v (JStr "")).

(** [text] contains [term], letter case ignored: it does once both are in
    lower case. *)
Definition containsIgnoringCase (term text : string) : bool :=
  includes (lowerCase term) (lowerCase text).

(** The rows and the columns of a table as [loadTableData] sets them. *)
Definition loadedRows (tableId : string) (d : Db) : list DbRow :=
  map (fun r => with_row_data r (rd r))
      (filter (fun r => r_table_id r = tableId) (user_rows d)).

Definition loadedColumns (tableId : string) (d : Db) : list DbColumn :=
  filter (fun c => c_table_id c = tableId) (user_columns d).

(** [id] is the primary key of [user_rows]. *)
Definition uniqueRowIds (d : Db) : Prop := NoDup (map r_id (user_rows d)).

(** The store's rows after the updates [upd] asks for, one row of [l] after
    the other. *)
Definition applyUpdates (upd : DbRow -> option (gmap string JsVal))
    (l rs : list DbRow) : list DbRow :=
  fold_left
    (fun rs r =>
       match upd r with
       | Some data => map (updateRow (r_id r) data) rs
       | None => rs
       end)
    l rs.

(** The call, if any, that a loop over the rows makes for a row, when
    [upd] gives the data to store. *)
Definition updateOf (upd : DbRow -> option (gmap string JsVal)) (r : DbRow) : M unit :=
  match upd r with
  | Some data => _ <~ supabase (UpdateRowData (r_id r) data) ;; ret tt
  | None => ret tt
  end.

(** What the updates for the rows of [l] make of one stored row. *)
Definition updatedBy (upd : DbRow -> option (gmap string JsVal))
    (l : list DbRow) (r0 : DbRow) : DbRow :=
  fold_left
    (fun acc r =>
       match upd r with
       | Some data => updateRow (r_id r) data acc
       | None => acc
       end)
    l r0.

(** A row's data after the loop of [handleAddColumn]: with the empty
    string under the key where reading the key gave [undefined], as it was
    otherwise. *)
Definition backfilled (colName : string) (d : gmap string JsVal) : gmap string JsVal :=
  match JsValue.get d colName with
  | JUndefined => <[colName := JStr ""]> d
  | _ => d
  end.

End WithHost.

(** The [n]-th call to come fails with message [m]. *)
Definition fails (w : World) (n : nat) (m : string) : Prop :=
  faults w !! n = Some (Some m).

(** The [n]-th call to come does not fail. *)
Definition succeeds (w : World) (n : nat) : Prop :=
  forall m, faults w !! n <> Some (Some m).

End TablesPage.

(** ** Revenue and expense in the analytics of all tables *)

Inductive Bucket : Type := revenue | expense.

(** [/(p1|p2|...)/i.test(s)] for alternatives that are lower-case words. *)
Definition regexTest (alternatives : list string) (s : string) : bool :=
  existsb (fun p => JsString.includes p (JsString.toLowerCase s)) alternatives.

(** The bucket the specification gives a column of type [type] named
    [name]: none unless the type is number or currency and the name matches
    one of the two patterns; expense when it matches the expense pattern,
    revenue otherwise. *)
Definition claimedBucket (amountPattern expensePattern : list string)
    (type name : string) : option Bucket :=
  if (String.eqb type "number" || String.eqb type "currency")
     && (regexTest amountPattern name || regexTest expensePattern name)
  then Some (if regexTest expensePattern name then expense else revenue)
  else None.

(** The dashboard's table analytics. *)
Module Dashboard.

Import JsString Store.

Definition toNumberSafe (v : JsVal) : float :=
  match v with
  | JNull | JUndefined => PrimFloat.zero
  | JStr EmptyString => PrimFloat.zero
  | JNum x => if JsNumber.isFinite x then x else PrimFloat.zero
  | JStr s | JObj s =>
    let cleaned := removeGlyphs s in
    let n := JsNumber.ofString cleaned in
    if JsNumber.isFinite n then n else PrimFloat.zero
  end.

Definition amountNameRegex : list string :=
  ["amount"; "revenue"; "income"; "sale"; "sales"; "price"; "paid"; "payment";
   "total"; "subtotal"].

Definition expenseNameRegex : list string :=
  ["expense"; "cost"; "spent"; "purchase"; "fee"; "charges"; "rent"; "salary";
   "tax"; "gst"; "vat"].

(** The body of [colsData.forEach]: the entry a column adds to
    [colsByTable], if any. *)
Definition entryOf (c : DbColumn) : option (string * Bucket) :=
  let typeOk := String.eqb (c_type c) "number" || String.eqb (c_type c) "currency" in
  if negb typeOk then None
  else
    match trim (c_name c) with
    | EmptyString => None
    | colName =>
      let looksRelevant :=
        regexTest amountNameRegex colName || regexTest expenseNameRegex colName in
      if negb looksRelevant then None
      else Some (colName, if regexTest expenseNameRegex colName then expense else revenue)
    end.

Definition colsByTable (colsData : list DbColumn) : gmap string (list (string * Bucket)) :=
  fold_left
    (fun m c =>
       match entryOf c with
       | None => m
       | Some e => <[c_table_id c := (default [] (m !! c_table_id c) ++ [e])%list]> m
       end)
    colsData ∅.

(** [tblRev] and [tblExp] after the loop over [rowsData]. *)
Definition tableMoney `{Host} (colsData : list DbColumn) (rowsData : list DbRow)
    : float * float :=
  let byTable := colsByTable colsData in
  fold_left
    (fun acc r =>
       fold_left
         (fun '(tblRev, tblExp) '(name, bucket) =>
            let num := toNumberSafe (JsValue.getOptional (row_data r) name) in
            if negb (JsNumber.isFinite num) then (tblRev, tblExp)
            else
              match bucket with
              | revenue => (PrimFloat.add tblRev num, tblExp)
              | expense => (tblRev, PrimFloat.add tblExp num)
              end)
         (default [] (byTable !! r_table_id r)) acc)
    rowsData (PrimFloat.zero, PrimFloat.zero).

End Dashboard.

(** The analytics page. *)
Module Analytics.

Import JsString Store.

Definition toNumberSafe (v : JsVal) : float :=
  if JsValue.falsy v then PrimFloat.zero
  else
    let cleaned := removeGlyphs (JsValue.toStr v) in
    let n := JsNumber.ofString cleaned in
    if JsNumber.isFinite n then n else PrimFloat.zero.

Definition currencyCols (columns : list DbColumn) : list DbColumn :=
  List.filter (fun c => String.eqb (c_type c) "currency") columns.

(** The body of the inner [forEach] of [moneySummary]: where the value of
    a currency column is added. *)
Definition bucketOfName (colName : string) : option Bucket :=
  let name := toLowerCase colName in
  if includes "total" name then None
  else if includes "expense" name || includes "cost" name then Some expense
  else Some revenue.

Record Summary : Type := { sum_revenue : float; sum_expense : float; profit : float }.

Section WithHost.

Context `{Host}.

Definition moneySummary (columns : list DbColumn) (rows : list DbRow) : Summary :=
  let '(rev, exp) :=
    fold_left
      (fun acc r =>
         fold_left
           (fun '(rev, exp) c =>
              let value := toNumberSafe (JsValue.getOptional (row_data r) (c_name c)) in
              match bucketOfName (c_name c) with
              | None => (rev, exp)
              | Some expense => (rev, PrimFloat.add exp value)
              | Some revenue => (PrimFloat.add rev value, exp)
              end)
           (List.filter (fun c => String.eqb (c_table_id c) (r_table_id r))
                        (currencyCols columns))
           acc)
      rows (PrimFloat.zero, PrimFloat.zero) in
  {| sum_revenue := rev; sum_expense := exp; profit := PrimFloat.sub rev exp |}.

(** The bucket a column's values go to in [moneySummary], if any. *)
Definition bucketOf (c : DbColumn) : option Bucket :=
  if String.eqb (c_type c) "currency" then bucketOfName (c_name c) else None.

(** The inner loop of [moneySummary] over all the columns, with [bucketOf]. *)
Definition addRow (columns : list DbColumn) (acc : float * float) (r : DbRow)
    : float * float :=
  fold_left
    (fun '(rev, exp) c =>
       if String.eqb (c_table_id c) (r_table_id r) then
         match bucketOf c with
         | None => (rev, exp)
         | Some expense =>
           (rev,
            PrimFloat.add exp
              (toNumberSafe (JsValue.getOptional (row_data r) (c_name c))))
         | Some revenue =>
           (PrimFloat.add rev
              (toNumberSafe (JsValue.getOptional (row_data r) (c_name c))),
            exp)
         end
       else (rev, exp))
    columns acc.

End WithHost.

End Analytics.

(** ** The document editor ([src/pages/InvoicesPage.tsx]) *)

Module InvoicesPage.

Inductive DocType : Type := invoice | quotation | bill.

Record InvoiceItem : Type := {
  description : string;
  hsn : string;
  qty : float;
  rate : float;
  amount : float
}.

Record Totals : Type := {
  subtotal : float;
  tax_percent : float;
  tax_amount : float;
  total : float;
  terms : string;
  note : string
}.

Record InvoiceData : Type := {
  id : option string;
  type : DocType;
  doc_no : string;
  customer_name : string;
  customer_address : string;
  customer_phone : string;
  items : list InvoiceItem;
  totals : Totals;
  currency_code : string
}.

Definition DEFAULT_TERMS : string :=
  "1. Goods/Services once sold/provided will not be taken back.
2. Payment is due within 7 days from the document date.
3. Please verify all details before making payment.
4. This is a computer generated document and does not require signature.
5. Subject to local jurisdiction.".

Definition DEFAULT_NOTE : string :=
  "Dear Sir / Madam,
Thank you for your business. Please find the document details below.".

(** [{ description: "", hsn: "", qty: 1, rate: 0, amount: 0 }] *)
Definition blankItem : InvoiceItem :=
  {| description := ""; hsn := ""; qty := PrimFloat.one;
     rate := PrimFloat.zero; amount := PrimFloat.zero |}.

(** The initial value of [form]. *)
Definition initialForm : InvoiceData :=
  {| id := None; type := invoice; doc_no := ""; customer_name := "";
     customer_address := ""; customer_phone := "";
     items := [blankItem];
     totals := {| subtotal := PrimFloat.zero; tax_percent := PrimFloat.zero;
                  tax_amount := PrimFloat.zero; total := PrimFloat.zero;
                  terms := DEFAULT_TERMS; note := DEFAULT_NOTE |};
     currency_code := "INR" |}.

Definition hundred : float := 100%float.

(** [items.reduce((s, i) => s + Number(i.amount || 0), 0)] *)
Definition sumAmounts (its : list InvoiceItem) : float :=
  fold_left (fun s i => PrimFloat.add s (JsNumber.or0 (amount i))) its PrimFloat.zero.

Definition recalcTotals (its : list InvoiceItem) (taxPercent : float)
    (prev : InvoiceData) : InvoiceData :=
  let subtotal' := sumAmounts its in
  let tax_amount' :=
    PrimFloat.mul subtotal' (PrimFloat.div (JsNumber.or0 taxPercent) hundred) in
  let total' := PrimFloat.add subtotal' tax_amount' in
  {| id := id prev; type := type prev; doc_no := doc_no prev;
     customer_name := customer_name prev;
     customer_address := customer_address prev;
     customer_phone := customer_phone prev;
     items := its;
     totals := {| subtotal := subtotal'; tax_percent := JsNumber.or0 taxPercent;
                  tax_amount := tax_amount'; total := total';
                  terms := terms (totals prev); note := note (totals prev) |};
     currency_code := currency_code prev |}.

(** A field of [InvoiceItem] with a value of its type. *)
Inductive FieldValue : Type :=
| Description (value : string)
| Hsn (value : string)
| Qty (value : float)
| Rate (value : float)
| Amount (value : float).

(** [(items[idx] as any)[field] = value] and, for [qty] and [rate], the
    new [amount]. *)
Definition assign (fv : FieldValue) (i : InvoiceItem) : InvoiceItem :=
  match fv with
  | Description v =>
    {| description := v; hsn := hsn i; qty := qty i; rate := rate i; amount := amount i |}
  | Hsn v =>
    {| description := description i; hsn := v; qty := qty i; rate := rate i;
       amount := amount i |}
  | Qty v =>
    {| description := description i; hsn := hsn i; qty := v; rate := rate i;
       amount := PrimFloat.mul (JsNumber.or0 v) (JsNumber.or0 (rate i)) |}
  | Rate v =>
    {| description := description i; hsn := hsn i; qty := qty i; rate := v;
       amount := PrimFloat.mul (JsNumber.or0 (qty i)) (JsNumber.or0 v) |}
  | Amount v =>
    {| description := description i; hsn := hsn i; qty := qty i; rate := rate i;
       amount := v |}
  end.

(** [None]: [items[idx]] is [undefined] and the assignment throws.  The
    assignment writes into the item object that the previous state shares with
    the copied array; the previous state is dropped by [setForm], so the form
    is given the new item here.  A listed document that holds the same item
    object sees the assignment too: [DocumentPage.docsAfter]. *)
Definition updateItem (idx : nat) (fv : FieldValue) (form : InvoiceData)
    : option InvoiceData :=
  match items form !! idx with
  | None => None
  | Some i =>
    Some (recalcTotals (<[idx := assign fv i]> (items form))
                       (tax_percent (totals form)) form)
  end.

Definition addItem (form : InvoiceData) : InvoiceData :=
  recalcTotals (items form ++ [blankItem])%list (tax_percent (totals form)) form.

Definition removeItem (idx : nat) (form : InvoiceData) : InvoiceData :=
  let its := delete idx (items form) in
  recalcTotals (match its with [] => [blankItem] | _ => its end)
               (tax_percent (totals form)) form.

(** What the form's controls do: the item inputs, the two item buttons
    and the tax input. *)
Inductive Event : Type :=
| ClickAddItem
| ClickRemove (idx : nat)
| ChangeDescription (idx : nat) (value : string)
| ChangeHsn (idx : nat) (value : string)
| ChangeQty (idx : nat) (value : float)
| ChangeRate (idx : nat) (value : float)
| ChangeTaxPercent (value : float).

Definition handle (e : Event) (form : InvoiceData) : option InvoiceData :=
  match e with
  | ClickAddItem => Some (addItem form)
  | ClickRemove idx => Some (removeItem idx form)
  | ChangeDescription idx v => updateItem idx (Description v) form
  | ChangeHsn idx v => updateItem idx (Hsn v) form
  | ChangeQty idx v => updateItem idx (Qty v) form
  | ChangeRate idx v => updateItem idx (Rate v) form
  | ChangeTaxPercent v => Some (recalcTotals (items form) v form)
  end.

(** The forms the editor shows for a new document: the initial one and
    what the events make of it.  The forms shown for a stored document start
    from [DocumentPage.openEdit]. *)
Inductive reachable : InvoiceData -> Prop :=
| reachable_initial : reachable initialForm
| reachable_step e form form' :
    reachable form -> handle e form = Some form' -> reachable form'.

(** The totals shown agree with the items and the tax percent shown. *)
Definition totalsCurrent (form : InvoiceData) : Prop :=
  subtotal (totals form) = sumAmounts (items form)
  /\ tax_amount (totals form)
     = PrimFloat.mul (subtotal (totals form))
                     (PrimFloat.div (tax_percent (totals form)) hundred)
  /\ total (totals form)
     = PrimFloat.add (subtotal (totals form)) (tax_amount (totals form)).

(** An item whose amount is its quantity times its rate, as [updateItem]
    computes it. *)
Definition itemCurrent (i : InvoiceItem) : Prop :=
  amount i = PrimFloat.mul (JsNumber.or0 (qty i)) (JsNumber.or0 (rate i)).

(** The numbers [x || 0] leaves alone: every number but [NaN] and [-0]. *)
Definition ordinary (x : float) : Prop :=
  x = PrimFloat.zero \/ JsNumber.falsy x = false.

(** The sum of the amounts, from the left. *)
Definition sumOfAmounts (its : list InvoiceItem) : float :=
  fold_left (fun s i => PrimFloat.add s (amount i)) its PrimFloat.zero.

(** A sequence of events; [None] once a handler has thrown. *)
Fixpoint handleAll (es : list Event) (form : InvoiceData) : option InvoiceData :=
  match es with
  | [] => Some form
  | e :: es' =>
    match handle e form with
    | Some form' => handleAll es' form'
    | None => None
    end
  end.

End InvoicesPage.

(** ** The table of the specification's scenario *)

Module Examples.

Import Store TablesPage.

Definition salesTable : DbTable :=
  {| t_id := "t1"; t_user_id := "u1"; t_name := "Sales"; t_created_at := "0" |}.

Definition amountColumn : DbColumn :=
  {| c_id := "c1"; c_table_id := "t1"; c_name := "Amount"; c_type := "currency";
     c_created_at := "1" |}.

Definition itemColumn : DbColumn :=
  {| c_id := "c2"; c_table_id := "t1"; c_name := "Item"; c_type := "text";
     c_created_at := "2" |}.

Definition penRow : DbRow :=
  {| r_id := "r1"; r_table_id := "t1";
     row_data := Some (<["Item" := JStr "Pen"]> (<["Amount" := JStr "100"]> ∅));
     r_created_at := "3" |}.

Definition bookRow : DbRow :=
  {| r_id := "r2"; r_table_id := "t1";
     row_data := Some (<["Item" := JStr "Book"]> (<["Amount" := JStr "250.50"]> ∅));
     r_created_at := "4" |}.

(** A third row, whose amount ties with the first. *)
Definition inkRow : DbRow :=
  {| r_id := "r3"; r_table_id := "t1";
     row_data := Some (<["Item" := JStr "Ink"]> (<["Amount" := JStr "100"]> ∅));
     r_created_at := "5" |}.

Definition salesDb : Db :=
  {| user_tables := [salesTable]; user_columns := [amountColumn; itemColumn];
     user_rows := [penRow; bookRow]; clock := 5 |}.

(** The page once the table is loaded. *)
Definition salesPage : Page :=
  {| userId := Some "u1"; tables := [salesTable]; selectedTable := Some salesTable;
     columns := [amountColumn; itemColumn]; rows := [penRow; bookRow];
     isColumnDialogOpen := false; newColumnName := ""; newColumnType := text;
     searchQuery := ""; sortColumnName := None; sortDirection := asc;
     editingColumnId := None; editingColumnName := ""; editingColumnType := text |}.

(** The same page with two rows of equal amount. *)
Definition tiePage : Page := setRows [penRow; inkRow] salesPage.

(** The dialog filled in for a new column Paid, and for a second column
    Amount. *)
Definition addPaid : Page := setNewColumn " Paid " number salesPage.
Definition addAmountAgain : Page := setNewColumn "Amount" number salesPage.

(** The editor of the column Amount: renamed to Total as a number, and only
    retyped to number. *)
Definition renameAmount : Page := setEditingColumn "c1" "Total" number salesPage.
Definition retypeAmount : Page := setEditingColumn "c1" "Amount" number salesPage.

(** A table of accounts: a currency column that is neither amount-like nor
    expense-like by its name, and one row. *)
Definition balanceColumn : DbColumn :=
  {| c_id := "c9"; c_table_id := "t2"; c_name := "Balance"; c_type := "currency";
     c_created_at := "6" |}.

Definition accountRow : DbRow :=
  {| r_id := "r9"; r_table_id := "t2";
     row_data := Some (<["Balance" := JNum 500]> ∅);
     r_created_at := "7" |}.

(** A currency column named [__proto__], and a row with a value under that
    key, as [saveCell] stores one. *)
Definition protoColumn : DbColumn :=
  {| c_id := "c7"; c_table_id := "t1"; c_name := "__proto__"; c_type := "currency";
     c_created_at := "8" |}.

Definition protoRow : DbRow :=
  {| r_id := "r7"; r_table_id := "t1";
     row_data := Some (<["__proto__" := JStr "5"]> ∅);
     r_created_at := "9" |}.

(** A world in which no call fails. *)
Definition calm (d : Db) : World :=
  {| db := d; faults := []; calls := []; toasts := [] |}.

End Examples.

(** ** The other writing calls *)

Module Mutation.

Import Store.

(** The calls of the handlers below that [Query] does not list. *)
Inductive Call : Type :=
| InsertTable (uid name : string)
| RenameTable (id name : string)
| DeleteColumn (cid : string)
| InsertRow (tid : string) (d : gmap string JsVal)
| DeleteRow (rid : string).

(** [update({ name }).eq("id", id)] on one table. *)
Definition renameTable (id name : string) (t : DbTable) : DbTable :=
  if decide (t_id t = id)
  then {| t_id := t_id t; t_user_id := t_user_id t; t_name := name;
          t_created_at := t_created_at t |}
  else t.

(** What a call that succeeds does to the store.  [InsertTable] ends in
    [.select("*").single()] and gives the record back. *)
Definition run (c : Call) (d : Db) : Data * Db :=
  match c with
  | InsertTable uid name =>
    let created :=
      {| t_id := "tbl-" ++ pretty (clock d); t_user_id := uid; t_name := name;
         t_created_at := pretty (clock d) |} in
    (Tables [created], tick (withTables (user_tables d ++ [created]) d))
  | RenameTable id name =>
    (NoData, withTables (map (renameTable id name) (user_tables d)) d)
  | DeleteColumn cid =>
    (NoData, withColumns (filter (fun c => c_id c <> cid) (user_columns d)) d)
  | InsertRow tid data =>
    (NoData,
     tick (withRows
             (user_rows d ++
              [{| r_id := "row-" ++ pretty (clock d); r_table_id := tid;
                  row_data := Some data; r_created_at := pretty (clock d) |}])
             d))
  | DeleteRow rid =>
    (NoData, withRows (filter (fun r => r_id r <> rid) (user_rows d)) d)
  end.

(** [await supabase.from(..)...] for these calls; the log [calls] keeps the
    calls of [Query] only. *)
Definition request (c : Call) : M Response :=
  fun w =>
    match faults w with
    | Some m :: fs =>
      (Error m,
       {| db := db w; faults := fs; calls := calls w; toasts := toasts w |})
    | _ =>
      let '(data, d') := run c (db w) in
      (Ok data,
       {| db := d'; faults := tail (faults w); calls := calls w;
          toasts := toasts w |})
    end.

End Mutation.

(** ** File names of the exports *)

Module FileName.

(** The characters that the exports keep out of a file name: the slash and
    the backslash, the colon, the asterisk, the question mark, the double
    quote, the angle brackets and the bar. *)
Definition reserved (c : ascii) : bool :=
  let x := JsString.code c in
  ((x =? 47) || (x =? 92) || (x =? 58) || (x =? 42) || (x =? 63) || (x =? 34)
   || (x =? 60) || (x =? 62) || (x =? 124))%N.

(** [s.replace(/[..]/g, "-")] for that class. *)
Fixpoint hyphenate (s : string) : string :=
  match s with
  | EmptyString => EmptyString
  | String a s' => String (if reserved a then "-"%char else a) (hyphenate s')
  end.

(** No character of [s] is reserved. *)
Definition clean (s : string) : bool :=
  forallb (fun c => negb (reserved c)) (list_ascii_of_string s).

(** The pattern of both [safeFileName]s, for the name used when nothing is
    left. *)
Definition safeOr (fallback name : string) : string :=
  let s := match name with EmptyString => fallback | _ => name end in
  match JsString.trim (hyphenate s) with
  | EmptyString => fallback
  | t => t
  end.

End FileName.

(** ** The other handlers of the tables page ([src/pages/TablesPage.tsx]) *)

Module TableHandlers.

Import JsString Store Mutation TablesPage.

(** [safeFileName] of the tables page. *)
Definition safeFileName (name : string) : string :=
  let s := match name with EmptyString => "table" | _ => name end in
  match trim (FileName.hyphenate s) with
  | EmptyString => "table"
  | t => t
  end.

(** The names [downloadSelectedTablePDF] and [downloadSelectedTableExcel]
    save the table [name] under. *)
Definition pdfFileName (name : string) : string :=
  "Ledgerly-" ++ safeFileName name ++ ".pdf".

Definition excelFileName (name : string) : string :=
  "Ledgerly-" ++ safeFileName name ++ ".xlsx".

(** The state of the component that [Page] leaves out. *)
Record Editor : Type := {
  page : Page;
  isCreateDialogOpen : bool;
  newTableName : string;
  editingCell : option (string * string);
  editValue : string;
  countConditions : list (string * string);
  countResult : option nat
}.

Definition setPage (p : Page) (e : Editor) : Editor :=
  {| page := p; isCreateDialogOpen := isCreateDialogOpen e;
     newTableName := newTableName e; editingCell := editingCell e;
     editValue := editValue e; countConditions := countConditions e;
     countResult := countResult e |}.

(** [setNewTableName(""); setIsCreateDialogOpen(false)] *)
Definition closeCreateDialog (e : Editor) : Editor :=
  {| page := page e; isCreateDialogOpen := false;
     newTableName := ""; editingCell := editingCell e;
     editValue := editValue e; countConditions := countConditions e;
     countResult := countResult e |}.

(** [setEditingCell(c); setEditValue(v)] *)
Definition setEditing (c : option (string * string)) (v : string) (e : Editor) : Editor :=
  {| page := page e; isCreateDialogOpen := isCreateDialogOpen e;
     newTableName := newTableName e; editingCell := c;
     editValue := v; countConditions := countConditions e;
     countResult := countResult e |}.

Definition setCountConditions (l : list (string * string)) (e : Editor) : Editor :=
  {| page := page e; isCreateDialogOpen := isCreateDialogOpen e;
     newTableName := newTableName e; editingCell := editingCell e;
     editValue := editValue e; countConditions := l;
     countResult := countResult e |}.

Definition setCountResult (n : option nat) (e : Editor) : Editor :=
  {| page := page e; isCreateDialogOpen := isCreateDialogOpen e;
     newTableName := newTableName e; editingCell := editingCell e;
     editValue := editValue e; countConditions := countConditions e;
     countResult := n |}.

Definition handleCreateTable (e : Editor) : M Editor :=
  match userId (page e) with
  | None => ret e
  | Some uid =>
    match trim (newTableName e) with
    | EmptyString => toast (ToastError "Please enter a table name") ;;; ret e
    | name =>
      res <~ request (InsertTable uid name) ;;
      match res with
      | Error m => toast (ToastError m) ;;; ret e
      | Ok data =>
        toast (ToastSuccess "Table created") ;;;
        let e1 := closeCreateDialog e in
        p2 <~ loadTables (page e) (page e1) ;;
        ret (setPage (setSelectedTable (head (tablesOf data)) p2) e1)
      end
    end
  end.

(** [answer] is what [prompt] gives back: [None] when it is cancelled. *)
Definition handleRenameTable (table : DbTable) (answer : option string) (p : Page)
    : M Page :=
  match answer with
  | None => ret p
  | Some newName =>
    match trim newName with
    | EmptyString => ret p
    | name =>
      res <~ request (RenameTable (t_id table) name) ;;
      match res with
      | Error m => toast (ToastError m) ;;; ret p
      | Ok _ =>
        toast (ToastSuccess "Table renamed") ;;;
        p1 <~ loadTables p p ;;
        ret match selectedTable p with
            | Some sel =>
              if String.eqb (t_id sel) (t_id table)
              then setSelectedTable
                     (Some {| t_id := t_id table; t_user_id := t_user_id table;
                              t_name := name; t_created_at := t_created_at table |})
                     p1
              else p1
            | None => p1
            end
      end
    end
  end.

(** The update [handleDeleteColumn] asks for on a row: none unless
    [name in rd]. *)
Definition withoutKey (name : string) (r : DbRow) : option (gmap string JsVal) :=
  if JsValue.has (rd r) name then Some (delete name (rd r)) else None.

Definition handleDeleteColumn (col : DbColumn) (p : Page) : M Page :=
  match selectedTable p with
  | None => ret p
  | Some sel =>
    res <~ request (DeleteColumn (c_id col)) ;;
    match res with
    | Error m => toast (ToastError m) ;;; ret p
    | Ok _ =>
      forEach
        (fun r =>
           if negb (JsValue.has (rd r) (c_name col)) then ret tt
           else
             _ <~ supabase (UpdateRowData (r_id r) (delete (c_name col) (rd r))) ;;
             ret tt)
        (rows p) ;;;
      toast (ToastSuccess "Column deleted") ;;;
      loadTableData (t_id sel) p
    end
  end.

(** [columns.forEach((c) => (empty[c.name] = ""))] *)
Definition emptyRow (cols : list DbColumn) : gmap string JsVal :=
  fold_left (fun empty c => JsValue.assignPrimitive (c_name c) (JStr "") empty) cols ∅.

Definition handleAddRow (p : Page) : M Page :=
  match selectedTable p with
  | None => ret p
  | Some sel =>
    match columns p with
    | [] => toast (ToastError "Add columns first") ;;; ret p
    | _ =>
      res <~ request (InsertRow (t_id sel) (emptyRow (columns p))) ;;
      match res with
      | Error m => toast (ToastError m) ;;; ret p
      | Ok _ => loadTableData (t_id sel) p
      end
    end
  end.

Definition handleDeleteRow (rowId : string) (p : Page) : M Page :=
  res <~ request (DeleteRow rowId) ;;
  match res with
  | Error m => toast (ToastError m) ;;; ret p
  | Ok _ =>
    toast (ToastSuccess "Row deleted") ;;;
    ret (setRows (filter (fun r => r_id r <> rowId) (rows p)) p)
  end.

Definition startEditCell (rowId colName : string) (current : JsVal) (e : Editor)
    : Editor :=
  setEditing (Some (rowId, colName))
             (if JsValue.nullish current then "" else JsValue.toStr current) e.

Section CellValues.

Context `{Host}.

(** The value [saveCell] stores for the text of the input. *)
Definition cellValue (type editValue : string) : JsVal :=
  let value := JStr editValue in
  let value :=
    if String.eqb type "number" || String.eqb type "currency" then
      match editValue with
      | EmptyString => JStr ""
      | _ => JNum (toNumberSafe (JStr editValue))
      end
    else value in
  if String.eqb type "date" then
    match editValue with
    | EmptyString => JStr ""
    | _ =>
      match newDate editValue with
      | None => JStr ""
      | Some t => JStr (JsDate.isoDate t)
      end
    end
  else value.

Definition saveCell (e : Editor) : M Editor :=
  match editingCell e with
  | None => ret e
  | Some (rowId, colName) =>
    let p := page e in
    let type := typeOfColumn (columns p) colName in
    let value := cellValue type (editValue e) in
    let local :=
      map (fun r =>
             if negb (String.eqb (r_id r) rowId) then r
             else with_row_data r (<[colName := value]> (rd r)))
          (rows p) in
    let row := List.find (fun r => String.eqb (r_id r) rowId) (rows p) in
    let rd0 := match row with Some r => rd r | None => ∅ end in
    let updated := <[colName := value]> rd0 in
    res <~ supabase (UpdateRowData rowId updated) ;;
    match res with Error m => toast (ToastError m) | Ok _ => ret tt end ;;;
    ret (setEditing None "" (setPage (setRows local p) e))
  end.

End CellValues.

(** [l.findIndex(f)] *)
Fixpoint findIndexFrom {A} (f : A -> bool) (l : list A) (i : Z) : Z :=
  match l with
  | [] => (-1)%Z
  | x :: l' => if f x then i else findIndexFrom f l' (i + 1)%Z
  end.

Definition findIndex {A} (f : A -> bool) (l : list A) : Z := findIndexFrom f l 0%Z.

(** [l[i]] for an integer [i] *)
Definition at_index {A} (l : list A) (i : Z) : option A :=
  if (i <? 0)%Z then None else l !! Z.to_nat i.

Inductive Direction : Type := dir_right | dir_left | dir_down | dir_up.

(** The cell [moveFromCell] goes to from the cell [(rowId, colName)] of the
    view [list] with the columns [cols]: [None] when it returns without
    saving, the row and the column it saves and then opens otherwise. *)
Definition moveTarget (cols : list DbColumn) (list : list DbRow)
    (rowId colName : string) (dir : Direction) : option (DbRow * DbColumn) :=
  let rIndex := findIndex (fun r => String.eqb (r_id r) rowId) list in
  let cIndex := findIndex (fun c => String.eqb (c_name c) colName) cols in
  if ((rIndex <? 0) || (cIndex <? 0))%Z then None
  else
    let nc :=
      match dir with
      | dir_right => Z.min (cIndex + 1) (Z.of_nat (length cols) - 1)
      | dir_left => Z.max (cIndex - 1) 0
      | _ => cIndex
      end in
    let nr :=
      match dir with
      | dir_down => Z.min (rIndex + 1) (Z.of_nat (length list) - 1)
      | dir_up => Z.max (rIndex - 1) 0
      | _ => rIndex
      end in
    match at_index list nr, at_index cols nc with
    | Some nextRow, Some nextCol => Some (nextRow, nextCol)
    | _, _ => None
    end.

(** The conditions of EasyCount that count: trimmed, with a column and a
    criteria. *)
Definition activeConditions (conds : list (string * string)) : list (string * string) :=
  List.filter
    (fun c => negb (String.eqb (fst c) "") && negb (String.eqb (snd c) ""))
    (map (fun c => (trim (fst c), trim (snd c))) conds).

Section Counting.

Context `{Host}.

(** The test of one row against the active conditions. *)
Definition rowSatisfies (active : list (string * string)) (r : DbRow) : bool :=
  forallb
    (fun cond =>
       let v :=
         lowerCase
           (JsValue.toStr (JsValue.orElse (JsValue.get (rd r) (fst cond)) (JStr ""))) in
       includes (lowerCase (snd cond)) v)
    active.

Definition handleEasyCount (e : Editor) : M Editor :=
  match selectedTable (page e) with
  | None => ret e
  | Some _ =>
    let active := activeConditions (countConditions e) in
    match active with
    | [] =>
      toast (ToastError "Add at least 1 condition") ;;;
      ret (setCountResult (Some 0) e)
    | _ =>
      let result := length (List.filter (rowSatisfies active) (rows (page e))) in
      toast (ToastSuccess ("Found " ++ pretty result ++ " matching rows")) ;;;
      ret (setCountResult (Some result) e)
    end
  end.

(** The update [handleAddColumn] asks for on a row. *)
Definition withKey (name : string) (r : DbRow) : option (gmap string JsVal) :=
  match JsValue.get (rd r) name with
  | JUndefined => Some (<[name := JStr ""]> (rd r))
  | _ => None
  end.

End Counting.

(** The number of calls a loop over [l] makes for the updates [upd]. *)
Definition updatesOf (upd : DbRow -> option (gmap string JsVal)) (l : list DbRow) : nat :=
  length (omap upd l).

(** Every table of the store has a name that is not blank and has no
    white space around it. *)
Definition namesTrimmed (d : Db) : Prop :=
  Forall (fun t => t_name t <> "" /\ trim (t_name t) = t_name t) (user_tables d).

(** The cell of the row [rowId] under [colName] set to [value]. *)
Definition withCell (rowId colName : string) (value : JsVal) (r : DbRow) : DbRow :=
  if decide (r_id r = rowId) then with_row_data r (<[colName := value]> (rd r)) else r.

End TableHandlers.

(** ** The other routines of the document editor ([src/pages/InvoicesPage.tsx]) *)

Module DocumentHandlers.

Import JsString InvoicesPage.

(** [safeFileName] of the document editor. *)
Definition safeFileName (name : string) : string :=
  let s := match name with EmptyString => "document" | _ => name end in
  match trim (FileName.hyphenate s) with
  | EmptyString => "document"
  | t => t
  end.

Definition docTitle (type : DocType) : string :=
  match type with
  | invoice => "INVOICE"
  | quotation => "QUOTATION"
  | bill => "BILL"
  end.

(** The name [downloadPDF] saves a document of type [type] under; [doc_no]
    is the stored number, [None] for [null]. *)
Definition pdfFileName (type : DocType) (doc_no : option string) : string :=
  let title := docTitle type in
  let docNo := match doc_no with
               | None | Some EmptyString => "-"
               | Some s => s
               end in
  safeFileName title ++ "-" ++ safeFileName docNo ++ ".pdf".

End DocumentHandlers.

(** ** The scenario continued *)

Module Scenario.

Import Store TablesPage TableHandlers.

(** The Sales page with nothing open. *)
Definition salesEditor : Editor :=
  {| page := Examples.salesPage; isCreateDialogOpen := false; newTableName := "";
     editingCell := None; editValue := ""; countConditions := [("", "")];
     countResult := None |}.

(** The amount of the first row being edited, with 1,200 typed in. *)
Definition editAmount : Editor :=
  setEditing (Some ("r1", "Amount")) "1,200" salesEditor.

(** The dialog of a new table filled in. *)
Definition createStock : Editor :=
  {| page := Examples.salesPage; isCreateDialogOpen := true; newTableName := " Stock ";
     editingCell := None; editValue := ""; countConditions := [("", "")];
     countResult := None |}.

(** EasyCount asked for the rows whose item contains [pen]. *)
Definition countPens : Editor :=
  setCountConditions [(" Item ", "PEN"); ("", "x")] salesEditor.

End Scenario.

(** ** Saving and reopening documents ([src/pages/InvoicesPage.tsx]) *)

Module DocumentStore.

Import JsString InvoicesPage.

(** The [totals] of a stored document: a JSON object whose members may be
    missing or [null] ([None]). *)
Record StoredTotals : Type := {
  s_subtotal : option float;
  s_tax_percent : option float;
  s_tax_amount : option float;
  s_total : option float;
  s_terms : option string;
  s_note : option string
}.

(** An item of a stored document: its numbers may be [null]. *)
Record StoredItem : Type := {
  s_description : string;
  s_hsn : string;
  s_qty : option float;
  s_rate : option float;
  s_amount : option float
}.

(** A record of [invoices] as the page reads it; [None] is [null].  The
    type is one of the three the page writes, the items have the members
    the editor gives them. *)
Record Doc : Type := {
  d_id : string;
  d_user_id : string;
  d_type : option DocType;
  d_doc_no : option string;
  d_customer_name : option string;
  d_customer_address : option string;
  d_customer_phone : option string;
  d_items : option (list StoredItem);
  d_totals : option StoredTotals;
  d_currency_code : option string;
  d_created_at : string
}.

(** The object [save] and [saveEdit] send. *)
Record Payload : Type := {
  p_type : DocType;
  p_doc_no : string;
  p_customer_name : string;
  p_customer_address : string;
  p_customer_phone : string;
  p_items : list InvoiceItem;
  p_totals : Totals;
  p_currency_code : string
}.

(** A number of the request body, which is JSON: [JSON.stringify] writes
    [null] for [NaN] and the infinities and [0] for [-0]. *)
Definition jsonNumber (x : float) : option float :=
  if PrimFloat.is_finite x
  then Some (if PrimFloat.is_zero x then PrimFloat.zero else x)
  else None.

Definition storedTotals (t : Totals) : StoredTotals :=
  {| s_subtotal := jsonNumber (subtotal t);
     s_tax_percent := jsonNumber (tax_percent t);
     s_tax_amount := jsonNumber (tax_amount t);
     s_total := jsonNumber (total t);
     s_terms := Some (terms t); s_note := Some (note t) |}.

Definition storedItem (i : InvoiceItem) : StoredItem :=
  {| s_description := description i; s_hsn := hsn i;
     s_qty := jsonNumber (qty i); s_rate := jsonNumber (rate i);
     s_amount := jsonNumber (amount i) |}.

(** The record of a payload: the store keeps the JSON that is sent. *)
Definition docOf (id uid created : string) (x : Payload) : Doc :=
  {| d_id := id; d_user_id := uid; d_type := Some (p_type x);
     d_doc_no := Some (p_doc_no x);
     d_customer_name := Some (p_customer_name x);
     d_customer_address := Some (p_customer_address x);
     d_customer_phone := Some (p_customer_phone x);
     d_items := Some (map storedItem (p_items x));
     d_totals := Some (storedTotals (p_totals x));
     d_currency_code := Some (p_currency_code x);
     d_created_at := created |}.

(** [update(payload).eq("id", id)] on one record. *)
Definition updateDoc (id : string) (x : Payload) (d : Doc) : Doc :=
  if decide (d_id d = id) then docOf (d_id d) (d_user_id d) (d_created_at d) x else d.

(** The relation [invoices], in creation order, and the counter new
    identifiers and timestamps are taken from. *)
Record Shelf : Type := {
  invoices : list Doc;
  clock : nat
}.

Inductive Call : Type :=
| SelectInvoices (uid : string)
| InsertInvoice (uid : string) (x : Payload)
| UpdateInvoice (id : string) (x : Payload)
| DeleteInvoice (id : string).

(** What a call that succeeds gives and does.  [SelectInvoices] orders by
    [created_at], newest first. *)
Definition run (c : Call) (s : Shelf) : list Doc * Shelf :=
  match c with
  | SelectInvoices uid =>
    (rev (filter (fun d => d_user_id d = uid) (invoices s)), s)
  | InsertInvoice uid x =>
    ([],
     {| invoices :=
          invoices s ++ [docOf ("doc-" ++ pretty (clock s)) uid (pretty (clock s)) x];
        clock := S (clock s) |})
  | UpdateInvoice id x =>
    ([], {| invoices := map (updateDoc id x) (invoices s); clock := clock s |})
  | DeleteInvoice id =>
    ([], {| invoices := filter (fun d => d_id d <> id) (invoices s); clock := clock s |})
  end.

(** The world of the page: the store, the outcome of the calls to come
    ([Some m]: the call fails with message [m] and changes nothing) and the
    toasts shown so far. *)
Record World : Type := {
  shelf : Shelf;
  faults : list (option string);
  toasts : list Store.Toast
}.

Definition M (A : Type) : Type := World -> A * World.

Definition ret {A} (a : A) : M A := fun w => (a, w).

Definition bind {A B} (m : M A) (k : A -> M B) : M B :=
  fun w => let '(a, w') := m w in k a w'.

(** [{ data, error }] *)
Inductive Response : Type :=
| Ok (data : list Doc)
| Error (message : string).

Definition supabase (c : Call) : M Response :=
  fun w =>
    match faults w with
    | Some m :: fs => (Error m, {| shelf := shelf w; faults := fs; toasts := toasts w |})
    | _ =>
      let '(data, s') := run c (shelf w) in
      (Ok data, {| shelf := s'; faults := tail (faults w); toasts := toasts w |})
    end.

Definition toast (t : Store.Toast) : M unit :=
  fun w => (tt, {| shelf := shelf w; faults := faults w; toasts := toasts w ++ [t] |}).

End DocumentStore.

Module DocumentPage.

Import JsString InvoicesPage DocumentStore.

Local Notation "x <-- c1 ;; c2" := (DocumentStore.bind c1 (fun x => c2))
  (at level 100, c1 at next level, right associativity).
Local Notation "c1 >>> c2" := (DocumentStore.bind c1 (fun _ => c2))
  (at level 100, right associativity).

Definition introText (type : DocType) : string :=
  match type with
  | quotation =>
    "Dear Sir / Madam,
We are pleased to submit the following quotation for your consideration."
  | bill =>
    "Dear Sir / Madam,
Thank you. Please find the bill details below."
  | invoice =>
    "Dear Sir / Madam,
Thank you for your business. Please find the invoice details below."
  end.

(** The state of the component.  [openEdit] puts the array of items of a
    listed document into the form, and [updateItem] assigns into the item
    objects of the form: [shared] tells which objects the form has in common
    with the list.  It names the listed document, by its [id] (the primary
    key of [invoices]), and gives for each item of the form its index among
    the items of that document, [None] for an item made since. *)
Record Screen : Type := {
  profile : option string;
  docs : list Doc;
  showCreate : bool;
  showEdit : bool;
  editingId : option string;
  form : InvoiceData;
  shared : option (string * list (option nat))
}.

(** [setDocs] with documents that are, or are among, the objects listed
    before. *)
Definition setDocs (l : list Doc) (s : Screen) : Screen :=
  {| profile := profile s; docs := l; showCreate := showCreate s;
     showEdit := showEdit s; editingId := editingId s; form := form s;
     shared := shared s |}.

(** [setDocs] with the documents of a response: the list has new objects,
    none of which the form holds. *)
Definition setFreshDocs (l : list Doc) (s : Screen) : Screen :=
  {| profile := profile s; docs := l; showCreate := showCreate s;
     showEdit := showEdit s; editingId := editingId s; form := form s;
     shared := None |}.

(** [setForm] with a form that has the items of the form before. *)
Definition setForm (f : InvoiceData) (s : Screen) : Screen :=
  {| profile := profile s; docs := docs s; showCreate := showCreate s;
     showEdit := showEdit s; editingId := editingId s; form := f;
     shared := shared s |}.

(** The inputs of the form other than the items and the tax percent. *)
Definition withTotals (t : Totals) (f : InvoiceData) : InvoiceData :=
  {| id := id f; type := type f; doc_no := doc_no f;
     customer_name := customer_name f; customer_address := customer_address f;
     customer_phone := customer_phone f; items := items f; totals := t;
     currency_code := currency_code f |}.

Definition withNote (s : string) (t : Totals) : Totals :=
  {| subtotal := subtotal t; tax_percent := tax_percent t;
     tax_amount := tax_amount t; total := total t; terms := terms t; note := s |}.

Definition withTerms (s : string) (t : Totals) : Totals :=
  {| subtotal := subtotal t; tax_percent := tax_percent t;
     tax_amount := tax_amount t; total := total t; terms := s; note := note t |}.

(** The type selector: the note becomes the introduction of the type. *)
Definition changeType (t : DocType) (f : InvoiceData) : InvoiceData :=
  {| id := id f; type := t; doc_no := doc_no f;
     customer_name := customer_name f; customer_address := customer_address f;
     customer_phone := customer_phone f; items := items f;
     totals := withNote (introText t) (totals f);
     currency_code := currency_code f |}.

Definition changeDocNo (s : string) (f : InvoiceData) : InvoiceData :=
  {| id := id f; type := type f; doc_no := s;
     customer_name := customer_name f; customer_address := customer_address f;
     customer_phone := customer_phone f; items := items f; totals := totals f;
     currency_code := currency_code f |}.

Definition changeCustomerName (s : string) (f : InvoiceData) : InvoiceData :=
  {| id := id f; type := type f; doc_no := doc_no f;
     customer_name := s; customer_address := customer_address f;
     customer_phone := customer_phone f; items := items f; totals := totals f;
     currency_code := currency_code f |}.

Definition changeCustomerPhone (s : string) (f : InvoiceData) : InvoiceData :=
  {| id := id f; type := type f; doc_no := doc_no f;
     customer_name := customer_name f; customer_address := customer_address f;
     customer_phone := s; items := items f; totals := totals f;
     currency_code := currency_code f |}.

Definition changeCustomerAddress (s : string) (f : InvoiceData) : InvoiceData :=
  {| id := id f; type := type f; doc_no := doc_no f;
     customer_name := customer_name f; customer_address := s;
     customer_phone := customer_phone f; items := items f; totals := totals f;
     currency_code := currency_code f |}.

Definition changeCurrency (s : string) (f : InvoiceData) : InvoiceData :=
  {| id := id f; type := type f; doc_no := doc_no f;
     customer_name := customer_name f; customer_address := customer_address f;
     customer_phone := customer_phone f; items := items f; totals := totals f;
     currency_code := s |}.

(** [setShowCreate] and [setShowEdit], which the dialogs call when they are
    opened and closed. *)
Definition setShowCreate (b : bool) (s : Screen) : Screen :=
  {| profile := profile s; docs := docs s; showCreate := b;
     showEdit := showEdit s; editingId := editingId s; form := form s;
     shared := shared s |}.

Definition setShowEdit (b : bool) (s : Screen) : Screen :=
  {| profile := profile s; docs := docs s; showCreate := showCreate s;
     showEdit := b; editingId := editingId s; form := form s;
     shared := shared s |}.

Definition refresh (s : Screen) : M Screen :=
  match profile s with
  | None => ret s
  | Some uid =>
    res <-- supabase (SelectInvoices uid) ;;
    match res with
    | Error m => toast (Store.ToastError m) >>> ret s
    | Ok data => ret (setFreshDocs data s)
    end
  end.

(** The object both [save] and [saveEdit] build from the form. *)
Definition payload (f : InvoiceData) : Payload :=
  {| p_type := type f;
     p_doc_no := trim (doc_no f);
     p_customer_name := trim (customer_name f);
     p_customer_address := customer_address f;
     p_customer_phone := customer_phone f;
     p_items := items f;
     p_totals := totals f;
     p_currency_code := currency_code f |}.

Definition save (s : Screen) : M Screen :=
  match profile s with
  | None => ret s
  | Some uid =>
    match trim (doc_no (form s)) with
    | EmptyString => toast (Store.ToastError "Document No. required") >>> ret s
    | _ =>
      match trim (customer_name (form s)) with
      | EmptyString => toast (Store.ToastError "Customer name required") >>> ret s
      | _ =>
        res <-- supabase (InsertInvoice uid (payload (form s))) ;;
        match res with
        | Error m => toast (Store.ToastError m) >>> ret s
        | Ok _ =>
          toast (Store.ToastSuccess "Document saved!") >>>
          refresh
            {| profile := profile s; docs := docs s; showCreate := false;
               showEdit := showEdit s; editingId := editingId s;
               form := initialForm; shared := None |}
        end
      end
    end
  end.

(** [v || fallback] for a string or [null] *)
Definition orString (v : option string) (fallback : string) : string :=
  match v with
  | Some (String a s) => String a s
  | _ => fallback
  end.

(** [Number(v || 0)] for a number or [null] *)
Definition orNumber (v : option float) : float :=
  match v with
  | Some x => JsNumber.or0 x
  | None => PrimFloat.zero
  end.

(** An item of a document in the form: [openEdit] puts the items of the
    document themselves into the form.  The form of this development holds
    numbers: a number that is [null] is held as [NaN], which [x || 0] and
    [JSON.stringify] treat as they treat [null]. *)
Definition heldItem (i : StoredItem) : InvoiceItem :=
  {| description := s_description i; hsn := s_hsn i;
     qty := default PrimFloat.nan (s_qty i);
     rate := default PrimFloat.nan (s_rate i);
     amount := default PrimFloat.nan (s_amount i) |}.

Definition openEdit (d : Doc) (s : Screen) : Screen :=
  {| profile := profile s; docs := docs s; showCreate := showCreate s;
     showEdit := true;
     editingId := Some (d_id d);
     form :=
       {| id := None;
          type := default invoice (d_type d);
          doc_no := orString (d_doc_no d) "";
          customer_name := orString (d_customer_name d) "";
          customer_address := orString (d_customer_address d) "";
          customer_phone := orString (d_customer_phone d) "";
          items := default [blankItem] (map heldItem <$> d_items d);
          totals :=
            {| subtotal := orNumber (d_totals d ≫= s_subtotal);
               tax_percent := orNumber (d_totals d ≫= s_tax_percent);
               tax_amount := orNumber (d_totals d ≫= s_tax_amount);
               total := orNumber (d_totals d ≫= s_total);
               terms := orString (d_totals d ≫= s_terms) DEFAULT_TERMS;
               note := orString (d_totals d ≫= s_note) DEFAULT_NOTE |};
          currency_code := orString (d_currency_code d) "INR" |};
     shared :=
       match d_items d with
       | Some l => Some (d_id d, map Some (seq 0 (length l)))
       | None => None
       end |}.

Definition saveEdit (s : Screen) : M Screen :=
  match editingId s with
  | None | Some EmptyString => ret s
  | Some eid =>
    match trim (doc_no (form s)) with
    | EmptyString => toast (Store.ToastError "Document No. required") >>> ret s
    | _ =>
      match trim (customer_name (form s)) with
      | EmptyString => toast (Store.ToastError "Customer name required") >>> ret s
      | _ =>
        res <-- supabase (UpdateInvoice eid (payload (form s))) ;;
        match res with
        | Error m => toast (Store.ToastError m) >>> ret s
        | Ok _ =>
          toast (Store.ToastSuccess "Document updated!") >>>
          refresh
            {| profile := profile s; docs := docs s; showCreate := showCreate s;
               showEdit := false; editingId := None; form := form s;
               shared := shared s |}
        end
      end
    end
  end.

Definition deleteDoc (id : string) (s : Screen) : M Screen :=
  res <-- supabase (DeleteInvoice id) ;;
  match res with
  | Error m => toast (Store.ToastError m) >>> ret s
  | Ok _ =>
    let s1 := setDocs (filter (fun d => d_id d <> id) (docs s)) s in
    toast (Store.ToastSuccess "Deleted") >>> ret s1
  end.

(** [(items[idx] as any)[field] = value] and the new [amount], on an item
    of a listed document. *)
Definition assignStored (fv : FieldValue) (i : StoredItem) : StoredItem :=
  match fv with
  | Description v =>
    {| s_description := v; s_hsn := s_hsn i; s_qty := s_qty i; s_rate := s_rate i;
       s_amount := s_amount i |}
  | Hsn v =>
    {| s_description := s_description i; s_hsn := v; s_qty := s_qty i;
       s_rate := s_rate i; s_amount := s_amount i |}
  | Qty v =>
    {| s_description := s_description i; s_hsn := s_hsn i; s_qty := Some v;
       s_rate := s_rate i;
       s_amount :=
         Some (PrimFloat.mul (JsNumber.or0 v)
                 (JsNumber.or0 (default PrimFloat.nan (s_rate i)))) |}
  | Rate v =>
    {| s_description := s_description i; s_hsn := s_hsn i; s_qty := s_qty i;
       s_rate := Some v;
       s_amount :=
         Some (PrimFloat.mul (JsNumber.or0 (default PrimFloat.nan (s_qty i)))
                 (JsNumber.or0 v)) |}
  | Amount v =>
    {| s_description := s_description i; s_hsn := s_hsn i; s_qty := s_qty i;
       s_rate := s_rate i; s_amount := Some v |}
  end.

Definition withItems (l : option (list StoredItem)) (d : Doc) : Doc :=
  {| d_id := d_id d; d_user_id := d_user_id d; d_type := d_type d;
     d_doc_no := d_doc_no d; d_customer_name := d_customer_name d;
     d_customer_address := d_customer_address d;
     d_customer_phone := d_customer_phone d; d_items := l;
     d_totals := d_totals d; d_currency_code := d_currency_code d;
     d_created_at := d_created_at d |}.

(** The field an event assigns, and the item it assigns it in. *)
Definition assignment (e : Event) : option (nat * FieldValue) :=
  match e with
  | ChangeDescription idx v => Some (idx, Description v)
  | ChangeHsn idx v => Some (idx, Hsn v)
  | ChangeQty idx v => Some (idx, Qty v)
  | ChangeRate idx v => Some (idx, Rate v)
  | _ => None
  end.

(** The list after the event: an assignment into an item that the form
    has in common with a listed document is seen in the list. *)
Definition docsAfter (e : Event) (s : Screen) : list Doc :=
  match assignment e, shared s with
  | Some (idx, fv), Some (id, links) =>
    match links !! idx with
    | Some (Some i) =>
      map (fun d =>
             if decide (d_id d = id)
             then withItems (alter (assignStored fv) i <$> d_items d) d
             else d)
          (docs s)
    | _ => docs s
    end
  | _, _ => docs s
  end.

(** The items in common after the event: [addItem] adds a new object,
    [removeItem] drops one, or puts a new blank item when none is left, and
    [updateItem] and [recalcTotals] keep the objects. *)
Definition sharedAfter (e : Event) (s : Screen) : option (string * list (option nat)) :=
  match shared s with
  | None => None
  | Some (id, links) =>
    Some (id,
          match e with
          | ClickAddItem => (links ++ [None])%list
          | ClickRemove idx =>
            match delete idx links with
            | [] => [None]
            | l => l
            end
          | _ => links
          end)
  end.

(** The page after an event of the form that gives the form [f]. *)
Definition edited (e : Event) (f : InvoiceData) (s : Screen) : Screen :=
  {| profile := profile s; docs := docsAfter e s; showCreate := showCreate s;
     showEdit := showEdit s; editingId := editingId s; form := f;
     shared := sharedAfter e s |}.

(** What happens on the page: the controls of the form, the buttons of the
    two dialogs and of the list. *)
Inductive Action : Type :=
| Edit (e : Event)
| ChangeType (t : DocType)
| ChangeDocNo (s : string)
| ChangeCustomerName (s : string)
| ChangeCustomerPhone (s : string)
| ChangeCustomerAddress (s : string)
| ChangeCurrency (s : string)
| ShowCreate (b : bool)
| ShowEdit (b : bool)
| ChangeNote (s : string)
| ChangeTerms (s : string)
| ClickSave
| ClickOpenEdit (d : Doc)
| ClickSaveEdit
| ClickDelete (id : string).

(** [None] when a handler throws. *)
Definition act (a : Action) (s : Screen) : M (option Screen) :=
  match a with
  | Edit e =>
    ret (match handle e (form s) with
         | Some f => Some (edited e f s)
         | None => None
         end)
  | ChangeType t => ret (Some (setForm (changeType t (form s)) s))
  | ChangeDocNo x => ret (Some (setForm (changeDocNo x (form s)) s))
  | ChangeCustomerName x => ret (Some (setForm (changeCustomerName x (form s)) s))
  | ChangeCustomerPhone x => ret (Some (setForm (changeCustomerPhone x (form s)) s))
  | ChangeCustomerAddress x => ret (Some (setForm (changeCustomerAddress x (form s)) s))
  | ChangeCurrency x => ret (Some (setForm (changeCurrency x (form s)) s))
  | ShowCreate b => ret (Some (setShowCreate b s))
  | ShowEdit b => ret (Some (setShowEdit b s))
  | ChangeNote x =>
    ret (Some (setForm (withTotals (withNote x (totals (form s))) (form s)) s))
  | ChangeTerms x =>
    ret (Some (setForm (withTotals (withTerms x (totals (form s))) (form s)) s))
  | ClickSave => s' <-- save s ;; ret (Some s')
  | ClickOpenEdit d => ret (Some (openEdit d s))
  | ClickSaveEdit => s' <-- saveEdit s ;; ret (Some s')
  | ClickDelete id => s' <-- deleteDoc id s ;; ret (Some s')
  end.

(** The list offers [openEdit] for the documents it shows. *)
Definition offered (a : Action) (s : Screen) : Prop :=
  match a with
  | ClickOpenEdit d => d ∈ docs s
  | _ => True
  end.

(** The states of the page and its world that follow one another. *)
Inductive step : Screen * World -> Screen * World -> Prop :=
| step_act a s w s' w' :
    offered a s -> act a s w = (Some s', w') -> step (s, w) (s', w').

(** The list shows the documents of the user, newest first. *)
Definition listed (s : Screen) (w : World) : Prop :=
  exists uid,
    profile s = Some uid
    /\ docs s = rev (filter (fun d => d_user_id d = uid) (invoices (shelf w))).

(** A document without its items, and their number. *)
Definition apartFromItems (d : Doc) : Doc * option nat :=
  (withItems None d, length <$> d_items d).

(** The list shows the documents of the user, newest first, each as it is
    stored but for what its items hold. *)
Definition listedButItems (s : Screen) (w : World) : Prop :=
  exists uid,
    profile s = Some uid
    /\ apartFromItems <$> docs s
       = apartFromItems
         <$> rev (filter (fun d => d_user_id d = uid) (invoices (shelf w))).

(** A document with a number and a customer name that are not blank and
    have no white space around them. *)
Definition wellNamed (d : Doc) : Prop :=
  exists n c,
    d_doc_no d = Some n /\ n <> "" /\ trim n = n
    /\ d_customer_name d = Some c /\ c <> "" /\ trim c = c.

(** A document with at least one item. *)
Definition hasItems (d : Doc) : Prop :=
  match d_items d with
  | Some [] => False
  | _ => True
  end.

(** The form has an item, and so has every document shown and every
    document stored. *)
Definition itemsKept (s : Screen) (w : World) : Prop :=
  items (form s) <> []
  /\ Forall hasItems (docs s)
  /\ Forall hasItems (invoices (shelf w)).

(** A form whose totals are finite and whose terms, note and currency are
    not empty: what [openEdit] does not replace by a default. *)
Definition plain (f : InvoiceData) : Prop :=
  PrimFloat.is_finite (subtotal (totals f)) = true
  /\ PrimFloat.is_finite (tax_percent (totals f)) = true
  /\ PrimFloat.is_finite (tax_amount (totals f)) = true
  /\ PrimFloat.is_finite (total (totals f)) = true
  /\ terms (totals f) <> "" /\ note (totals f) <> "" /\ currency_code f <> "".

End DocumentPage.

(** ** The documents of the scenario *)

Module DocumentScenario.

Import InvoicesPage DocumentStore DocumentPage.

(** The form filled in for a first invoice. *)
Definition firstInvoice : InvoiceData :=
  changeCustomerName "Asha Traders " (changeDocNo " INV-001 " initialForm).

(** The page of a user without documents, the dialog open on that form. *)
Definition newInvoice : Screen :=
  {| profile := Some "u1"; docs := []; showCreate := true; showEdit := false;
     editingId := None; form := firstInvoice; shared := None |}.

(** A world without documents in which no call fails. *)
Definition emptyWorld : World :=
  {| shelf := {| invoices := []; clock := 0 |}; faults := []; toasts := [] |}.

End DocumentScenario.

(** * Properties *)

(** ** The document editor *)

Section Documents.

Import InvoicesPage.

Local Open Scope float_scope.

Lemma or0_ordinary x : ordinary x -> JsNumber.or0 x = x.
Proof.
  intros [-> | Hx]; [reflexivity |].
  unfold JsNumber.or0. now rewrite Hx.
Qed.

Lemma sumAmounts_from (its : list InvoiceItem) :
  Forall (fun i => ordinary (amount i)) its ->
  forall acc,
    fold_left (fun s i => s + JsNumber.or0 (amount i)) its acc
    = fold_left (fun s i => s + amount i) its acc.
Proof.
  induction 1 as [| i its Hi _ IH]; intros acc; simpl; [reflexivity |].
  rewrite (or0_ordinary _ Hi). apply IH.
Qed.

Lemma sumAmounts_ordinary (its : list InvoiceItem) :
  Forall (fun i => ordinary (amount i)) its -> sumAmounts its = sumOfAmounts its.
Proof. intros Hits. apply sumAmounts_from, Hits. Qed.

Lemma recalcTotals_current its taxPercent prev :
  totalsCurrent (recalcTotals its taxPercent prev).
Proof. repeat split. Qed.

Lemma handle_shape e form form' :
  handle e form = Some form' ->
  exists its taxPercent, form' = recalcTotals its taxPercent form.
Proof.
  destruct e; simpl; unfold updateItem, addItem, removeItem;
    try destruct (items form !! idx); intros [= <-]; eauto.
Qed.

Lemma handle_current e form form' :
  handle e form = Some form' -> totalsCurrent form'.
Proof.
  intros He. destruct (handle_shape _ _ _ He) as (its & t & ->).
  apply recalcTotals_current.
Qed.

Lemma assign_current fv i :
  match fv with Amount _ => False | _ => True end ->
  itemCurrent i -> itemCurrent (assign fv i).
Proof. destruct fv; simpl; intros Hfv Hi; try exact Hi; try reflexivity; easy. Qed.

Lemma blankItem_current : itemCurrent blankItem.
Proof. reflexivity. Qed.

Lemma updateItem_items idx fv form form' :
  updateItem idx fv form = Some form' ->
  exists i, items form !! idx = Some i
            /\ items form' = <[idx := assign fv i]> (items form).
Proof.
  unfold updateItem. destruct (items form !! idx) as [i |] eqn:Hi; [| discriminate].
  intros [= <-]. eauto.
Qed.

Lemma Forall_delete_items {A} (P : A -> Prop) (l : list A) idx :
  Forall P l -> Forall P (delete idx l).
Proof.
  intros Hl. revert idx.
induction Hl as [| x l Hx Hl IH]; intros [| idx]; simpl; auto.
Qed.

Lemma updateItem_current idx fv form form' :
  match fv with Amount _ => False | _ => True end ->
  Forall itemCurrent (items form) ->
  updateItem idx fv form = Some form' ->
  Forall itemCurrent (items form').
Proof.
  intros Hfv Hall Hup.
  destruct (updateItem_items _ _ _ _ Hup) as (i & Hi & ->).
  apply Forall_insert; [exact Hall |].
  apply assign_current; [exact Hfv |].
  eapply Forall_lookup_1; eauto.
Qed.

Lemma handle_items_current e form form' :
  Forall itemCurrent (items form) ->
  handle e form = Some form' ->
  Forall itemCurrent (items form').
Proof.
  intros Hall. destruct e; simpl;
    try (apply updateItem_current; [exact I | exact Hall]).
  - intros [= <-]. simpl. apply Forall_app. split; [exact Hall |].
    constructor; [apply blankItem_current | constructor].
  - intros [= <-]. simpl.
    pose proof (Forall_delete_items _ _ idx Hall) as Hdel.
    destruct (delete idx (items form)); [| exact Hdel].
    constructor; [apply blankItem_current | constructor].
  - intros [= <-]. exact Hall.
Qed.

Lemma reachable_current form :
  reachable form -> totalsCurrent form /\ Forall itemCurrent (items form).
Proof.
  induction 1 as [| e form form' _ [_ IH] He].
  - split; [repeat split |]. constructor; [apply blankItem_current | constructor].
  - split; [eapply handle_current; eauto | eapply handle_items_current; eauto].
Qed.

Lemma removeItem_nonempty idx form : items (removeItem idx form) <> [].
Proof.
  unfold removeItem. simpl. destruct (delete idx (items form)); discriminate.
Qed.

Lemma handle_nonempty e form form' :
  items form <> [] -> handle e form = Some form' -> items form' <> [].
Proof.
  intros Hne. destruct e; simpl;
    try (intros Hup; destruct (updateItem_items _ _ _ _ Hup) as (i & Hi & ->);
         intros Heq; apply (f_equal length) in Heq;
         rewrite length_insert in Heq; destruct (items form); [easy | discriminate]).
  - intros [= <-]. simpl. destruct (items form); discriminate.
  - intros [= <-]. apply removeItem_nonempty.
  - intros [= <-]. exact Hne.
Qed.

Lemma reachable_nonempty form : reachable form -> items form <> [].
Proof.
  induction 1 as [| e form form' _ IH He]; [discriminate |].
  eapply handle_nonempty; eauto.
Qed.

End Documents.

(** C1. Whatever the items and the tax percent, [recalcTotals] shows the sum
    of the item amounts as subtotal, subtotal times tax percent over 100 as
    tax amount, and their sum as total; an edit of a quantity or a rate sets
    the item's amount to quantity times rate; every event of the editor (add,
    edit, remove, tax percent) goes through [recalcTotals], so every form the
    editor reaches shows current totals and amounts; and the items
    (qty 2, rate 50), (qty 1, rate 30) with 10 percent tax give 130, 13 and
    143.  Numbers are the ones [x || 0] leaves alone (not [NaN], not [-0]). *)
Theorem document_totals_current :
  (forall its taxPercent prev,
      Forall (fun i => InvoicesPage.ordinary (InvoicesPage.amount i)) its ->
      InvoicesPage.ordinary taxPercent ->
      let form := InvoicesPage.recalcTotals its taxPercent prev in
      let t := InvoicesPage.totals form in
      InvoicesPage.items form = its
      /\ InvoicesPage.subtotal t = InvoicesPage.sumOfAmounts its
      /\ InvoicesPage.tax_amount t
         = (InvoicesPage.subtotal t * (taxPercent / 100))%float
      /\ InvoicesPage.total t
         = (InvoicesPage.subtotal t + InvoicesPage.tax_amount t)%float)
  /\ (forall idx fv form form',
         (exists v, fv = InvoicesPage.Qty v \/ fv = InvoicesPage.Rate v) ->
         InvoicesPage.updateItem idx fv form = Some form' ->
         exists i i',
           InvoicesPage.items form !! idx = Some i
           /\ InvoicesPage.items form' = <[idx := i']> (InvoicesPage.items form)
           /\ InvoicesPage.qty i'
              = match fv with InvoicesPage.Qty v => v | _ => InvoicesPage.qty i end
           /\ InvoicesPage.rate i'
              = match fv with InvoicesPage.Rate v => v | _ => InvoicesPage.rate i end
           /\ (InvoicesPage.ordinary (InvoicesPage.qty i') ->
               InvoicesPage.ordinary (InvoicesPage.rate i') ->
               InvoicesPage.amount i'
               = (InvoicesPage.qty i' * InvoicesPage.rate i')%float))
  /\ (forall e form form',
         InvoicesPage.handle e form = Some form' ->
         InvoicesPage.totalsCurrent form'
         /\ exists its taxPercent,
              form' = InvoicesPage.recalcTotals its taxPercent form)
  /\ (forall form,
         InvoicesPage.reachable form ->
         InvoicesPage.totalsCurrent form
         /\ forall i,
              i ∈ InvoicesPage.items form ->
              InvoicesPage.itemCurrent i
              /\ (InvoicesPage.ordinary (InvoicesPage.qty i) ->
                  InvoicesPage.ordinary (InvoicesPage.rate i) ->
                  InvoicesPage.amount i
                  = (InvoicesPage.qty i * InvoicesPage.rate i)%float))
  /\ (exists form,
         InvoicesPage.handleAll
           [InvoicesPage.ChangeQty 0 2; InvoicesPage.ChangeRate 0 50;
            InvoicesPage.ClickAddItem;
            InvoicesPage.ChangeQty 1 1; InvoicesPage.ChangeRate 1 30;
            InvoicesPage.ChangeTaxPercent 10]
           InvoicesPage.initialForm = Some form
         /\ map (fun i => (InvoicesPage.qty i, InvoicesPage.rate i))
                (InvoicesPage.items form)
            = [(2, 50); (1, 30)]%float
         /\ InvoicesPage.subtotal (InvoicesPage.totals form) = 130%float
         /\ InvoicesPage.tax_amount (InvoicesPage.totals form) = 13%float
         /\ InvoicesPage.total (InvoicesPage.totals form) = 143%float).
Proof.
  split; [| split; [| split; [| split]]].
  - intros its taxPercent prev Hits Htax. simpl.
    rewrite (or0_ordinary _ Htax), (sumAmounts_ordinary _ Hits). auto.
  - intros idx fv form form' [v Hfv] Hup.
    destruct (updateItem_items _ _ _ _ Hup) as (i & Hi & Hitems).
    exists i, (InvoicesPage.assign fv i).
    destruct Hfv as [-> | ->]; simpl; repeat split; auto;
      intros Hq Hr; now rewrite (or0_ordinary _ Hq), (or0_ordinary _ Hr).
  - intros e form form' He. split; [eapply handle_current | eapply handle_shape]; eauto.
  - intros form Hform. destruct (reachable_current _ Hform) as [Htotals Hitems].
    split; [exact Htotals |]. intros i Hi.
    rewrite Forall_forall in Hitems. specialize (Hitems i Hi).
    split; [exact Hitems |]. intros Hq Hr.
    rewrite Hitems. now rewrite (or0_ordinary _ Hq), (or0_ordinary _ Hr).
  - eexists. vm_compute. repeat split.
Qed.

(** The first part of [document_totals_current] at the two items of the
    scenario, with their amounts, and 10 percent tax. *)
Lemma document_totals_current_witness :
  let its :=
    [ {| InvoicesPage.description := "Pen"; InvoicesPage.hsn := "";
         InvoicesPage.qty := 2; InvoicesPage.rate := 50;
         InvoicesPage.amount := 100 |};
      {| InvoicesPage.description := "Book"; InvoicesPage.hsn := "";
         InvoicesPage.qty := 1; InvoicesPage.rate := 30;
         InvoicesPage.amount := 30 |} ]%float in
  let form := InvoicesPage.recalcTotals its 10%float InvoicesPage.initialForm in
  Forall (fun i => InvoicesPage.ordinary (InvoicesPage.amount i)) its
  /\ InvoicesPage.ordinary 10%float
  /\ InvoicesPage.items form = its
  /\ InvoicesPage.subtotal (InvoicesPage.totals form) = InvoicesPage.sumOfAmounts its
  /\ InvoicesPage.tax_amount (InvoicesPage.totals form)
     = (InvoicesPage.subtotal (InvoicesPage.totals form) * (10 / 100))%float
  /\ InvoicesPage.total (InvoicesPage.totals form)
     = (InvoicesPage.subtotal (InvoicesPage.totals form)
        + InvoicesPage.tax_amount (InvoicesPage.totals form))%float.
Proof.
  intros its form.
  assert (Hits : Forall (fun i => InvoicesPage.ordinary (InvoicesPage.amount i)) its)
    by (repeat constructor; right; reflexivity).
  assert (Htax : InvoicesPage.ordinary 10%float) by (right; reflexivity).
  split; [exact Hits |]. split; [exact Htax |].
  destruct document_totals_current as [Hrecalc _].
  exact (Hrecalc its 10%float InvoicesPage.initialForm Hits Htax).
Defined.

(** ** Objects *)

Section Objects.

Import JsValue.

Lemma inPrototype_proto : inPrototype "__proto__" = true.
Proof. reflexivity. Qed.

Lemma eqb_proto (k : string) : String.eqb k "__proto__" = false <-> k <> "__proto__".
Proof. rewrite <- String.eqb_neq. reflexivity. Qed.

(** Reading a key that the object owns, and one that nothing has. *)
Lemma get_own `{Host} (rd : gmap string JsVal) (k : string) (v : JsVal) :
  rd !! k = Some v -> get rd k = v.
Proof. intros Hk. unfold get. now rewrite Hk. Qed.

Lemma inherited_plain `{Host} (k : string) : inPrototype k = false -> inherited k = Nothing.
Proof.
  intros Hk. unfold inherited. rewrite Hk.
  destruct (String.eqb k "__proto__") eqn:Hp; [| reflexivity].
  apply String.eqb_eq in Hp. subst k. discriminate.
Qed.

Lemma get_plain `{Host} (rd : gmap string JsVal) (k : string) :
  inPrototype k = false -> get rd k = default JUndefined (rd !! k).
Proof.
  intros Hk. unfold get. destruct (rd !! k); [reflexivity |].
  now rewrite inherited_plain.
Qed.

Lemma get_missing `{Host} (rd : gmap string JsVal) (k : string) :
  inPrototype k = false -> rd !! k = None -> get rd k = JUndefined.
Proof. intros Hk Hnone. rewrite get_plain by exact Hk. now rewrite Hnone. Qed.

(** Reading a name of [Object.prototype] never gives [undefined]. *)
Lemma get_inherited `{Host} (rd : gmap string JsVal) (k : string) :
  inPrototype k = true -> rd !! k = None -> exists text, get rd k = JObj text.
Proof.
  intros Hk Hnone. unfold get, inherited. rewrite Hnone, Hk.
  destruct (String.eqb k "__proto__"); eexists; reflexivity.
Qed.

Lemma has_plain (rd : gmap string JsVal) (k : string) :
  inPrototype k = false -> has rd k = bool_decide (is_Some (rd !! k)).
Proof. intros Hk. unfold has. rewrite Hk. apply orb_false_r. Qed.

Lemma assignPrimitive_plain {A} (k : string) (a : A) (o : gmap string A) :
  k <> "__proto__" -> assignPrimitive k a o = <[k := a]> o.
Proof.
  intros Hk. unfold assignPrimitive. apply eqb_proto in Hk. now rewrite Hk.
Qed.

Lemma assignPrimitive_other {A} (k k' : string) (a : A) (o : gmap string A) :
  k <> k' -> assignPrimitive k a o !! k' = o !! k'.
Proof.
  intros Hk. unfold assignPrimitive.
  destruct (String.eqb k "__proto__" && bool_decide (o !! k = None)); [reflexivity |].
  now apply lookup_insert_ne.
Qed.

Lemma assignPrimitive_proto {A} (k : string) (a : A) (o : gmap string A) :
  o !! "__proto__" = None -> assignPrimitive k a o !! "__proto__" = None.
Proof.
  intros Ho. destruct (decide (k = "__proto__")) as [-> | Hk].
  - unfold assignPrimitive. rewrite (bool_decide_eq_true_2 _ Ho). exact Ho.
  - now rewrite assignPrimitive_other.
Qed.

Lemma assignPrimitive_Some {A} (k k' : string) (a v : A) (o : gmap string A) :
  assignPrimitive k a o !! k' = Some v -> k = k' \/ o !! k' = Some v.
Proof.
  intros Hv. destruct (decide (k = k')) as [Heq | Hne]; [now left | right].
  now rewrite assignPrimitive_other in Hv.
Qed.

End Objects.

(** ** Column totals *)

Section ColumnTotals.

Import Store TablesPage.

Context `{Host}.

Lemma columnTotals_step_lookup (rs : list DbRow) (cols : list DbColumn) :
  forall c,
    c ∈ cols ->
    isNumeric (c_type c) = true ->
    c_name c <> "__proto__" ->
    fold_left
      (fun totals c =>
         if String.eqb (c_type c) "number" || String.eqb (c_type c) "currency"
         then JsValue.assignPrimitive (c_name c) (sumColumn (c_name c) rs) totals
         else totals)
      cols (∅ : gmap string float) !! c_name c
    = Some (sumColumn (c_name c) rs).
Proof.
  induction cols as [| c0 cols IH] using rev_ind; intros c Hc Hnum Hname.
  - inversion Hc.
  - rewrite fold_left_app. simpl.
    apply elem_of_app in Hc as [Hc | Hc].
    + specialize (IH c Hc Hnum Hname).
      destruct (String.eqb (c_type c0) "number" || String.eqb (c_type c0) "currency");
        [| exact IH].
      destruct (decide (c_name c0 = c_name c)) as [Heq | Hne].
      * rewrite Heq. rewrite assignPrimitive_plain by exact Hname.
        apply lookup_insert_eq.
      * rewrite assignPrimitive_other by exact Hne. exact IH.
    + apply list_elem_of_singleton in Hc as ->.
      unfold isNumeric in Hnum. rewrite Hnum.
      rewrite assignPrimitive_plain by exact Hname. apply lookup_insert_eq.
Qed.

Lemma columnTotals_step_keys (rs : list DbRow) (cols : list DbColumn) :
  forall name v,
    fold_left
      (fun totals c =>
         if String.eqb (c_type c) "number" || String.eqb (c_type c) "currency"
         then JsValue.assignPrimitive (c_name c) (sumColumn (c_name c) rs) totals
         else totals)
      cols (∅ : gmap string float) !! name = Some v ->
    exists c, c ∈ cols /\ isNumeric (c_type c) = true /\ c_name c = name.
Proof.
  induction cols as [| c0 cols IH] using rev_ind; intros name v.
  - simpl. rewrite lookup_empty. discriminate.
  - rewrite fold_left_app. simpl.
    destruct (String.eqb (c_type c0) "number" || String.eqb (c_type c0) "currency") eqn:Hnum.
    + intros Hv. apply assignPrimitive_Some in Hv as [Heq | Hv].
      * exists c0. split; [apply elem_of_app; right; constructor | auto].
      * destruct (IH _ _ Hv) as (c & Hc & Hc').
        exists c. split; [apply elem_of_app; now left | exact Hc'].
    + intros Hv. destruct (IH _ _ Hv) as (c & Hc & Hc').
      exists c. split; [apply elem_of_app; now left | exact Hc'].
Qed.

(** No column has its total under [__proto__]. *)
Lemma columnTotals_step_proto (rs : list DbRow) (cols : list DbColumn) :
  fold_left
    (fun totals c =>
       if String.eqb (c_type c) "number" || String.eqb (c_type c) "currency"
       then JsValue.assignPrimitive (c_name c) (sumColumn (c_name c) rs) totals
       else totals)
    cols (∅ : gmap string float) !! "__proto__" = None.
Proof.
  induction cols as [| c0 cols IH] using rev_ind; [apply lookup_empty |].
  rewrite fold_left_app. simpl.
  destruct (String.eqb (c_type c0) "number" || String.eqb (c_type c0) "currency");
    [| exact IH].
  now apply assignPrimitive_proto.
Qed.

Lemma isNumeric_true type :
  isNumeric type = true <-> type = "number" \/ type = "currency".
Proof.
  unfold isNumeric. rewrite orb_true_iff, !String.eqb_eq. reflexivity.
Qed.

End ColumnTotals.




(** ** Deleting a table *)

Section DeleteTable.

Import Store TablesPage.

Lemma loadTables_calls p0 p w :
  exists rest,
    calls (snd (loadTables p0 p w)) = (calls w ++ rest)%list
    /\ forallb (fun q => negb (isDeletion q)) rest = true
    /\ db (snd (loadTables p0 p w)) = db w
    /\ exists more, toasts (snd (loadTables p0 p w)) = (toasts w ++ more)%list.
Proof.
  unfold loadTables. destruct (userId p0) as [uid |].
  - unfold bind, supabase. destruct (faults w) as [| [m |] fs]; simpl.
    + exists [SelectTables uid]. repeat split. exists []. now rewrite app_nil_r.
    + exists [SelectTables uid]. repeat split. eauto.
    + exists [SelectTables uid]. repeat split. exists []. now rewrite app_nil_r.
  - exists []. simpl. rewrite app_nil_r. repeat split. exists []. now rewrite app_nil_r.
Qed.

End DeleteTable.

(** C9. Deleting a table makes three deleting calls, in this order: the
    rows of the table, its columns, the table itself.  A call that fails ends
    the handler: the calls after it are not made, the failure is shown with its
    message, and the page state is left as it was.  When the three succeed
    nothing of the table is left in the store and success is shown; the only
    call that may follow reads the list of tables. *)
Theorem delete_table_in_order (tableId : string) (p : TablesPage.Page) (w : Store.World) :
  let p' := fst (TablesPage.handleDeleteTable tableId p w) in
  let w' := snd (TablesPage.handleDeleteTable tableId p w) in
  (forall m,
      TablesPage.fails w 0 m ->
      Store.calls w' = (Store.calls w ++ [Store.DeleteRows tableId])%list
      /\ Store.toasts w'
         = (Store.toasts w ++ [Store.ToastError (TablesPage.deleteFailure m)])%list
      /\ Store.db w' = Store.db w
      /\ p' = p)
  /\ (forall m,
         TablesPage.succeeds w 0 -> TablesPage.fails w 1 m ->
         Store.calls w'
         = (Store.calls w ++ [Store.DeleteRows tableId; Store.DeleteColumns tableId])%list
         /\ Store.toasts w'
            = (Store.toasts w ++ [Store.ToastError (TablesPage.deleteFailure m)])%list
         /\ Store.user_columns (Store.db w') = Store.user_columns (Store.db w)
         /\ Store.user_tables (Store.db w') = Store.user_tables (Store.db w)
         /\ p' = p)
  /\ (forall m,
         TablesPage.succeeds w 0 -> TablesPage.succeeds w 1 -> TablesPage.fails w 2 m ->
         Store.calls w'
         = (Store.calls w
            ++ [Store.DeleteRows tableId; Store.DeleteColumns tableId;
                Store.DeleteTable tableId])%list
         /\ Store.toasts w'
            = (Store.toasts w ++ [Store.ToastError (TablesPage.deleteFailure m)])%list
         /\ Store.user_tables (Store.db w') = Store.user_tables (Store.db w)
         /\ p' = p)
  /\ (TablesPage.succeeds w 0 -> TablesPage.succeeds w 1 -> TablesPage.succeeds w 2 ->
      (exists rest,
          Store.calls w'
          = (Store.calls w
             ++ [Store.DeleteRows tableId; Store.DeleteColumns tableId;
                 Store.DeleteTable tableId] ++ rest)%list
          /\ forallb (fun q => negb (Store.isDeletion q)) rest = true)
      /\ (exists more,
             Store.toasts w'
             = (Store.toasts w ++ Store.ToastSuccess "Table deleted" :: more)%list)
      /\ Forall (fun r => Store.r_table_id r <> tableId) (Store.user_rows (Store.db w'))
      /\ Forall (fun c => Store.c_table_id c <> tableId) (Store.user_columns (Store.db w'))
      /\ Forall (fun t => Store.t_id t <> tableId) (Store.user_tables (Store.db w'))).
Proof.
  intros p' w'. subst p' w'.
  unfold TablesPage.fails, TablesPage.succeeds.
  destruct w as [d fs cs ts]. simpl.
  unfold TablesPage.handleDeleteTable, Store.bind, Store.supabase, Store.toast, Store.ret.
  simpl.
  assert (Hdone : forall fs' ts' p1,
    let w1 :=
      {| Store.db :=
           Store.withTables
             (filter (fun t => Store.t_id t <> tableId) (Store.user_tables d))
             (Store.withColumns
                (filter (fun c => Store.c_table_id c <> tableId) (Store.user_columns d))
                (Store.withRows
                   (filter (fun r => Store.r_table_id r <> tableId) (Store.user_rows d))
                   d));
         Store.faults := fs';
         Store.calls :=
           ((cs ++ [Store.DeleteRows tableId]) ++ [Store.DeleteColumns tableId])
           ++ [Store.DeleteTable tableId];
         Store.toasts := ts' ++ [Store.ToastSuccess "Table deleted"] |} in
    let w2 := snd (TablesPage.loadTables p p1 w1) in
    (exists rest,
        Store.calls w2
        = (cs ++ [Store.DeleteRows tableId; Store.DeleteColumns tableId;
                  Store.DeleteTable tableId] ++ rest)%list
        /\ forallb (fun q => negb (Store.isDeletion q)) rest = true)
    /\ (exists more,
           Store.toasts w2 = (ts' ++ Store.ToastSuccess "Table deleted" :: more)%list)
    /\ Forall (fun r => Store.r_table_id r <> tableId) (Store.user_rows (Store.db w2))
    /\ Forall (fun c => Store.c_table_id c <> tableId) (Store.user_columns (Store.db w2))
    /\ Forall (fun t => Store.t_id t <> tableId) (Store.user_tables (Store.db w2))).
  { intros fs' ts' p1 w1 w2.
    destruct (loadTables_calls p p1 w1) as (rest & Hcalls & Hrest & Hdb & more & Htoasts).
    fold w2 in Hcalls, Hdb, Htoasts. rewrite Hdb.
    split; [exists rest; split; [| exact Hrest] |].
    { rewrite Hcalls. simpl. now rewrite <- !app_assoc. }
    split; [exists more; rewrite Htoasts; simpl; now rewrite <- app_assoc |].
    simpl. repeat split; apply Forall_forall; intros x Hx;
      apply list_elem_of_filter in Hx; tauto. }
  destruct fs as [| [m1 |] [| [m2 |] [| [m3 |] fs]]]; simpl;
    (split; [intros m E; try discriminate E
            | split; [intros m H0 E; try discriminate E
                     | split; [intros m H0 H1 E; try discriminate E
                              | intros H0 H1 H2]]]);
    try solve [exfalso; eapply H0; reflexivity];
    try solve [exfalso; eapply H1; reflexivity];
    try solve [exfalso; eapply H2; reflexivity];
    try solve [injection E as <-; rewrite <- ?app_assoc; simpl; now repeat split];
    try apply Hdone.
Qed.

(** [delete_table_in_order] on the Sales table when the deletion of the
    columns is refused: the table record is not touched and the refusal is
    shown. *)
Lemma delete_table_in_order_witness :
  let w :=
    {| Store.db := Examples.salesDb;
       Store.faults := [None; Some "permission denied"];
       Store.calls := []; Store.toasts := [] |} in
  let w' := snd (TablesPage.handleDeleteTable "t1" Examples.salesPage w) in
  TablesPage.succeeds w 0
  /\ TablesPage.fails w 1 "permission denied"
  /\ Store.calls w' = [Store.DeleteRows "t1"; Store.DeleteColumns "t1"]
  /\ Store.toasts w' = [Store.ToastError "permission denied"]
  /\ Store.user_tables (Store.db w') = [Examples.salesTable].
Proof.
  intros w w'.
  assert (H0 : TablesPage.succeeds w 0) by (intros m; discriminate).
  assert (H1 : TablesPage.fails w 1 "permission denied") by reflexivity.
  split; [exact H0 |]. split; [exact H1 |].
  destruct (delete_table_in_order "t1" Examples.salesPage w) as (_ & Hcols & _).
  destruct (Hcols _ H0 H1) as (Hcalls & Htoasts & _ & Htables & _).
  split; [exact Hcalls |]. split; [exact Htoasts | exact Htables].
Defined.

(** ** Facts about [sort] *)

Section SortFacts.

Import JsArray.

Context {A : Type} (cmp : A -> A -> float).

Lemma insert_split x (l : list A) :
  exists l1 l2,
    l = (l1 ++ l2)%list
    /\ insert cmp x l = (l1 ++ x :: l2)%list
    /\ Forall (fun y => after cmp x y = true) l1
    /\ (forall y l2', l2 = y :: l2' -> after cmp x y = false).
Proof.
  induction l as [| y l IH]; simpl.
  - exists [], []. repeat split; [constructor | discriminate].
  - destruct (after cmp x y) eqn:Hxy.
    + destruct IH as (l1 & l2 & -> & -> & Hl1 & Hl2).
      exists (y :: l1), l2. repeat split; [now constructor | exact Hl2].
    + exists [], (y :: l). repeat split; [constructor |].
      now intros ? ? [= <- _].
Qed.

Lemma insert_perm x (l : list A) : insert cmp x l ≡ₚ x :: l.
Proof.
  destruct (insert_split x l) as (l1 & l2 & -> & -> & _).
  symmetry. apply Permutation_middle.
Qed.

Lemma sort_perm (l : list A) : sort cmp l ≡ₚ l.
Proof.
  induction l as [| x l IH]; simpl; [reflexivity |].
  rewrite insert_perm. now rewrite IH.
Qed.

Lemma elem_of_sort x (l : list A) : x ∈ sort cmp l <-> x ∈ l.
Proof. now rewrite sort_perm. Qed.

Lemma insert_keeps_order x (l k : list A) :
  k `sublist_of` l -> k `sublist_of` insert cmp x l.
Proof.
  intros Hk. destruct (insert_split x l) as (l1 & l2 & -> & -> & _).
  apply sublist_app_r in Hk as (k1 & k2 & -> & Hk1 & Hk2).
  apply sublist_app; [exact Hk1 |]. now apply sublist_cons.
Qed.

Lemma insert_first_before a b (l : list A) :
  b ∈ l -> after cmp a b = false -> before a b (insert cmp a l).
Proof.
  intros Hb Hab. unfold before.
  destruct (insert_split a l) as (l1 & l2 & -> & -> & Hl1 & _).
  apply sublist_inserts_l, sublist_skip, singleton_sublist_l.
  apply elem_of_app in Hb as [Hb | Hb]; [| exact Hb].
  rewrite Forall_forall in Hl1. specialize (Hl1 _ Hb). congruence.
Qed.

(** The sort is stable: an element stays before a later one that it is not
    put after. *)
Lemma sort_stable a b (l : list A) :
  before a b l -> after cmp a b = false -> before a b (sort cmp l).
Proof.
  unfold before. intros Hl Hab.
  induction l as [| x l IH]; simpl; [exact Hl |].
  apply sublist_cons_r in Hl as [Hl | (k & [= <- <-] & Hl)].
  - apply insert_keeps_order, IH, Hl.
  - apply insert_first_before; [| exact Hab].
    apply elem_of_sort. now apply singleton_sublist_l.
Qed.

Lemma insert_sorted x (l : list A) :
  strictOn cmp (x :: l) -> x ∉ l ->
  StronglySorted (fun u v => after cmp v u = true) l ->
  StronglySorted (fun u v => after cmp v u = true) (insert cmp x l).
Proof.
  intros (Htot & Hasym & Htrans) Hx Hl.
  destruct (insert_split x l) as (l1 & l2 & -> & -> & Hl1 & Hl2).
  apply StronglySorted_app in Hl as (H12 & Hs1 & Hs2).
  rewrite Forall_forall in Hl1.
  assert (Hin2 : forall z, z ∈ l2 -> z ∈ x :: (l1 ++ l2)%list).
  { intros z Hz. right. apply elem_of_app. now right. }
  assert (Hxl2 : forall z, z ∈ l2 -> after cmp z x = true).
  { intros z Hz. destruct l2 as [| y l2']; [inversion Hz |].
    assert (Hy : y ∈ y :: l2') by left.
    assert (Hyx : after cmp y x = true).
    { destruct (Htot x y) as [Hxy | Hyx]; [left | now apply Hin2 | | | exact Hyx].
      - intros ->. apply Hx, elem_of_app. now right.
      - rewrite (Hl2 y l2' eq_refl) in Hxy. discriminate. }
    apply elem_of_cons in Hz as [-> | Hz]; [exact Hyx |].
    apply StronglySorted_cons in Hs2 as [Hyl _].
    rewrite Forall_forall in Hyl.
    apply (Htrans z y x); [apply Hin2; now right | now apply Hin2 | left | | exact Hyx].
    now apply Hyl. }
  apply StronglySorted_app_2; [| exact Hs1 |].
  - intros u v Hu Hv. apply elem_of_cons in Hv as [-> | Hv]; [now apply Hl1 |].
    now apply H12.
  - apply StronglySorted_cons. split; [| exact Hs2].
    apply Forall_forall. exact Hxl2.
Qed.

Lemma strictOn_tail x (l : list A) : strictOn cmp (x :: l) -> strictOn cmp l.
Proof.
  intros (Htot & Hasym & Htrans). repeat split.
  - intros a b Ha Hb. apply Htot; now right.
  - intros a b Ha Hb. apply Hasym; now right.
  - intros a b c Ha Hb Hc. apply Htrans; now right.
Qed.

Lemma strictOn_perm (l k : list A) : l ≡ₚ k -> strictOn cmp l -> strictOn cmp k.
Proof.
  intros Hlk (Htot & Hasym & Htrans). repeat split.
  - intros a b Ha Hb. apply Htot; now rewrite Hlk.
  - intros a b Ha Hb. apply Hasym; now rewrite Hlk.
  - intros a b c Ha Hb Hc. apply Htrans; now rewrite Hlk.
Qed.

Lemma sort_sorted (l : list A) :
  NoDup l -> strictOn cmp l ->
  StronglySorted (fun u v => after cmp v u = true) (sort cmp l).
Proof.
  induction l as [| x l IH]; simpl; intros Hnd Hstrict; [constructor |].
  apply NoDup_cons in Hnd as [Hx Hnd].
  apply insert_sorted.
  - eapply strictOn_perm; [| exact Hstrict].
    constructor. symmetry. apply sort_perm.
  - now rewrite elem_of_sort.
  - apply IH; [exact Hnd | eapply strictOn_tail, Hstrict].
Qed.

End SortFacts.

Section SortReversed.

Import JsArray.

Context {A : Type} (cmp : A -> A -> float).

Lemma elem_of_rev (x : A) (l : list A) : x ∈ rev l <-> x ∈ l.
Proof. rewrite !list_elem_of_In. symmetry. apply in_rev. Qed.

Lemma strictOn_flip (l : list A) :
  strictOn cmp l -> strictOn (fun a b => cmp b a) l.
Proof.
  intros (Htot & Hasym & Htrans). unfold strictOn, after in *. repeat split.
  - intros a b Ha Hb Hab. destruct (Htot b a) as [H | H]; auto.
  - intros a b Ha Hb. now apply Hasym.
  - intros a b c Ha Hb Hc Hab Hbc. now apply (Htrans c b a).
Qed.

Lemma StronglySorted_reverse (R : A -> A -> Prop) (l : list A) :
  StronglySorted R l -> StronglySorted (fun u v => R v u) (rev l).
Proof.
  induction 1 as [| x l _ IH Hx]; simpl; [constructor |].
  apply StronglySorted_app_2; [| exact IH | repeat constructor].
  intros u v Hu Hv. apply list_elem_of_singleton in Hv as ->.
  rewrite Forall_forall in Hx. apply Hx. now apply elem_of_rev.
Qed.

(** With the arguments of a strict comparator swapped, the sort gives the
    reverse order. *)
Lemma sort_flip_rev (l : list A) :
  NoDup l -> strictOn cmp l ->
  sort (fun a b => cmp b a) l = rev (sort cmp l).
Proof.
  intros Hnd Hstrict.
  apply (StronglySorted_unique_strong (fun u v => after cmp u v = true)).
  - intros u v Hu Hv Huv Hvu.
    destruct Hstrict as (_ & Hasym & _).
    apply elem_of_sort in Hu. rewrite (Hasym u v) in Hvu; [discriminate | exact Hu | | exact Huv].
    now rewrite elem_of_rev, elem_of_sort in Hv.
  - apply (sort_sorted (fun a b => cmp b a)); [exact Hnd | now apply strictOn_flip].
  - apply (StronglySorted_reverse (fun u v => after cmp v u = true)).
    now apply sort_sorted.
  - rewrite sort_perm. rewrite <- Permutation_rev. symmetry. apply sort_perm.
Qed.

End SortReversed.

(** ** The derived view *)

Section View.

Import Store TablesPage.

Context `{Host}.

Lemma equal_not_after (x : float) :
  PrimFloat.eqb x PrimFloat.zero = true -> PrimFloat.ltb PrimFloat.zero x = false.
Proof.
  rewrite FloatAxioms.eqb_spec, FloatAxioms.ltb_spec.
  change (Prim2SF PrimFloat.zero) with (S754_zero false).
  destruct (Prim2SF x) as [s | s | | s m e];
    unfold SFeqb, SFltb; simpl; try destruct s; simpl; intros Hx;
    first [reflexivity | discriminate Hx].
Qed.

Lemma rowMatches_true (q : string) (r : DbRow) :
  rowMatches q r = true
  <-> exists k v, rd r !! k = Some v
                  /\ JsString.includes q (lowerCase (cellText v)) = true.
Proof.
  unfold rowMatches, JsValue.values, cellText. rewrite existsb_exists. split.
  - intros (v & Hv & Hq).
    apply list_elem_of_In, list_elem_of_fmap in Hv as ([k v'] & -> & Hkv).
    apply elem_of_map_to_list in Hkv. eauto.
  - intros (k & v & Hkv & Hq). exists v. split; [| exact Hq].
    apply list_elem_of_In, list_elem_of_fmap. exists (k, v).
    split; [reflexivity | now apply elem_of_map_to_list].
Qed.

Lemma elem_of_filtered (p : Page) (r : DbRow) :
  r ∈ filtered p
  <-> r ∈ rows p
      /\ (JsString.trim (searchQuery p) = ""
          \/ rowMatches (lowerCase (searchQuery p)) r = true).
Proof.
  unfold filtered. destruct (JsString.trim (searchQuery p)) eqn:Htrim.
  - tauto.
  - rewrite list_elem_of_In, filter_In, <- list_elem_of_In.
    split; [intros [? ?]; auto | intros [? [? | ?]]; [discriminate | auto]].
Qed.

Lemma elem_of_view (p : Page) (r : DbRow) :
  r ∈ filteredAndSortedRows p <-> r ∈ filtered p.
Proof.
  unfold filteredAndSortedRows.
  destruct (sortColumnName p) as [[| a name] |]; try reflexivity.
  apply elem_of_sort.
Qed.

Lemma view_sorted (p : Page) (name : string) (d : SortDirection) :
  name <> "" ->
  filteredAndSortedRows (setSort (Some name) d p)
  = JsArray.sort (compareRows (typeOfColumn (columns p) name) name d) (filtered p).
Proof. destruct name; [congruence | reflexivity]. Qed.

Lemma compareRows_desc (type name : string) (a b : DbRow) :
  compareRows type name desc a b = compareRows type name asc b a.
Proof. unfold compareRows. now destruct (isNumeric type). Qed.

End View.




Section SortedView.

Import Store TablesPage.

Lemma sort_ext {A} (f g : A -> A -> float) (l : list A) :
  (forall a b, f a b = g a b) -> JsArray.sort f l = JsArray.sort g l.
Proof.
  intros Hfg. induction l as [| x l IH]; simpl; [reflexivity |].
  rewrite IH. generalize (JsArray.sort g l). intros s.
  induction s as [| y s IHs]; simpl; [reflexivity |].
  unfold JsArray.after. now rewrite Hfg, IHs.
Qed.

End SortedView.

(** C8 (amended). With a column to sort by, the view is the stable sort of
    the filtered rows by the column's comparator: the difference of the
    coerced numbers for a number or currency column, the host's collation of
    the texts otherwise.  A click on the header of the column sorted ascending
    turns the direction to descending.  In either direction two rows that
    compare equal keep their order of creation.  When the comparator orders
    the filtered rows strictly (no two of them compare equal), the descending
    view is the reverse of the ascending one. *)
Theorem sort_toggle_reverses `{Host} (p : TablesPage.Page) (name : string) :
  name <> "" ->
  let sortedAsc := TablesPage.setSort (Some name) TablesPage.asc p in
  let toggled := TablesPage.handleSort name sortedAsc in
  let type := TablesPage.typeOfColumn (TablesPage.columns p) name in
  let cmp := TablesPage.compareRows type name in
  let key := fun r => JsValue.orElse (JsValue.get (Store.rd r) name) (JStr "") in
  (TablesPage.sortColumnName toggled = Some name
   /\ TablesPage.sortDirection toggled = TablesPage.desc)
  /\ (forall a b,
         cmp TablesPage.asc a b
         = if TablesPage.isNumeric type
           then PrimFloat.sub (TablesPage.toNumberSafe (key a))
                              (TablesPage.toNumberSafe (key b))
           else localeCompare (JsValue.toStr (key a)) (JsValue.toStr (key b)))
  /\ (forall a b, cmp TablesPage.desc a b = cmp TablesPage.asc b a)
  /\ (forall d a b,
         JsArray.before a b (TablesPage.filtered p) ->
         PrimFloat.eqb (cmp d a b) PrimFloat.zero = true ->
         JsArray.before a b
           (TablesPage.filteredAndSortedRows (TablesPage.setSort (Some name) d p)))
  /\ (NoDup (TablesPage.filtered p) ->
      JsArray.strictOn (cmp TablesPage.asc) (TablesPage.filtered p) ->
      TablesPage.filteredAndSortedRows toggled
      = rev (TablesPage.filteredAndSortedRows sortedAsc)).
Proof.
  intros Hname sortedAsc toggled type cmp key.
  assert (Htoggled : toggled = TablesPage.setSort (Some name) TablesPage.desc p).
  { subst toggled sortedAsc. unfold TablesPage.handleSort. simpl.
    destruct (decide (Some name = Some name)); [reflexivity | congruence]. }
  split; [rewrite Htoggled; now split |].
  split; [intros a b; subst cmp; unfold TablesPage.compareRows;
          now destruct (TablesPage.isNumeric type) |].
  split; [intros a b; apply compareRows_desc |].
  split.
  - intros d a b Hab Heq. rewrite view_sorted by exact Hname.
    apply sort_stable; [exact Hab |]. now apply equal_not_after.
  - intros Hnd Hstrict. rewrite Htoggled. subst sortedAsc.
    rewrite !view_sorted by exact Hname.
    rewrite <- (sort_flip_rev (cmp TablesPage.asc)) by assumption.
    apply sort_ext. intros a b. apply compareRows_desc.
Qed.


(** [sort_toggle_reverses] on the Sales table sorted by Amount: 100 before
    250.50 ascending, the reverse descending. *)
Lemma sort_toggle_reverses_witness :
  let sortedAsc := TablesPage.setSort (Some "Amount") TablesPage.asc Examples.salesPage in
  let cmp := @TablesPage.compareRows plainHost "currency" "Amount" TablesPage.asc in
  "Amount" <> ""
  /\ NoDup (@TablesPage.filtered plainHost Examples.salesPage)
  /\ JsArray.strictOn cmp (@TablesPage.filtered plainHost Examples.salesPage)
  /\ @TablesPage.filteredAndSortedRows plainHost sortedAsc
     = [Examples.penRow; Examples.bookRow]
  /\ @TablesPage.filteredAndSortedRows plainHost
       (TablesPage.handleSort "Amount" sortedAsc)
     = rev (@TablesPage.filteredAndSortedRows plainHost sortedAsc).
Proof.
  intros sortedAsc cmp.
  assert (Hname : "Amount" <> "") by discriminate.
  assert (Hne : Examples.penRow <> Examples.bookRow)
    by (intros Heq; apply (f_equal Store.r_id) in Heq; discriminate Heq).
  assert (Hnd : NoDup (@TablesPage.filtered plainHost Examples.salesPage)).
  { apply NoDup_cons. split; [| apply NoDup_singleton].
    intros Hin. apply list_elem_of_singleton in Hin. contradiction. }
  assert (Hstrict : JsArray.strictOn cmp (@TablesPage.filtered plainHost Examples.salesPage)).
  { repeat split; intros;
      repeat match goal with
             | Hin : _ ∈ TablesPage.filtered _ |- _ =>
               change (@TablesPage.filtered plainHost Examples.salesPage)
                 with [Examples.penRow; Examples.bookRow] in Hin
             | Hin : _ ∈ _ :: _ |- _ => apply elem_of_cons in Hin as [-> | Hin]
             | Hin : _ ∈ [] |- _ => inversion Hin
             end;
      try contradiction; try (left; reflexivity); try (right; reflexivity);
      try reflexivity;
      match goal with
      | Hab : JsArray.after _ _ _ = true |- _ => vm_compute in Hab; discriminate Hab
      end. }
  split; [exact Hname |]. split; [exact Hnd |]. split; [exact Hstrict |].
  split; [reflexivity |].
  destruct (@sort_toggle_reverses plainHost Examples.salesPage "Amount" Hname)
    as (_ & _ & _ & _ & Hrev).
  exact (Hrev Hnd Hstrict).
Defined.

(** C8, as stated, fails when two rows compare equal: the pen and the ink
    both cost 100; sorted by Amount they stay in their order of creation in
    both directions, so the descending view is not the reverse of the
    ascending one. *)
Lemma sort_toggle_tie_counterexample :
  let sortedAsc := TablesPage.setSort (Some "Amount") TablesPage.asc Examples.tiePage in
  let toggled := TablesPage.handleSort "Amount" sortedAsc in
  @TablesPage.filteredAndSortedRows plainHost sortedAsc
  = [Examples.penRow; Examples.inkRow]
  /\ @TablesPage.filteredAndSortedRows plainHost toggled
     = [Examples.penRow; Examples.inkRow]
  /\ @TablesPage.filteredAndSortedRows plainHost toggled
     <> rev (@TablesPage.filteredAndSortedRows plainHost sortedAsc).
Proof.
  intros sortedAsc toggled.
  assert (Hasc : @TablesPage.filteredAndSortedRows plainHost sortedAsc
                 = [Examples.penRow; Examples.inkRow]) by reflexivity.
  assert (Hdesc : @TablesPage.filteredAndSortedRows plainHost toggled
                  = [Examples.penRow; Examples.inkRow]) by reflexivity.
  split; [exact Hasc |]. split; [exact Hdesc |].
  rewrite Hasc, Hdesc. simpl. intros Heq.
  apply (f_equal (map Store.r_id)) in Heq. discriminate Heq.
Qed.

(** ** Updates of the rows of a table *)

Section RowUpdates.

Import Store TablesPage.

Lemma forEach_ext {A} (f g : A -> M unit) (l : list A) :
  (forall a, f a = g a) -> forEach f l = forEach g l.
Proof.
  intros Hfg. induction l as [| a l IH]; simpl; [reflexivity |].
  now rewrite Hfg, IH.
Qed.

Variable upd : DbRow -> option (gmap string JsVal).

Lemma forEach_updates (l : list DbRow) :
  forall d cs ts,
    forEach (updateOf upd) l {| db := d; faults := []; calls := cs; toasts := ts |}
    = (tt,
       {| db := withRows (applyUpdates upd l (user_rows d)) d;
          faults := [];
          calls := (cs ++ omap (fun r => UpdateRowData (r_id r) <$> upd r) l)%list;
          toasts := ts |}).
Proof.
  induction l as [| r l IH]; intros d cs ts; simpl.
  - rewrite app_nil_r. now destruct d.
  - unfold bind, updateOf at 1, applyUpdates. simpl.
    destruct (upd r) as [data |]; simpl.
    + unfold bind, supabase. simpl. rewrite IH. simpl.
      now rewrite <- app_assoc.
    + rewrite IH. reflexivity.
Qed.

Lemma applyUpdates_map (l rs : list DbRow) :
  applyUpdates upd l rs = map (updatedBy upd l) rs.
Proof.
  revert rs. induction l as [| r l IH]; intros rs; simpl.
  - now rewrite map_id.
  - unfold applyUpdates in *. simpl. rewrite IH.
    destruct (upd r) as [data |] eqn:Hr.
    + rewrite map_map. apply map_ext. intros r0. unfold updatedBy. simpl. now rewrite Hr.
    + apply map_ext. intros r0. unfold updatedBy. simpl. now rewrite Hr.
Qed.

Lemma updateRow_id rid data r : r_id (updateRow rid data r) = r_id r.
Proof. unfold updateRow. now destruct (decide _). Qed.

Lemma updateRow_table rid data r : r_table_id (updateRow rid data r) = r_table_id r.
Proof. unfold updateRow. now destruct (decide _). Qed.

Lemma updatedBy_other (l : list DbRow) (r0 : DbRow) :
  (forall r, r ∈ l -> r_id r <> r_id r0) -> updatedBy upd l r0 = r0.
Proof.
  induction l as [| x l IH]; intros Hl; unfold updatedBy in *; simpl; [reflexivity |].
  assert (Hx : (match upd x with
                | Some data => updateRow (r_id x) data r0
                | None => r0
                end) = r0).
  { destruct (upd x); [| reflexivity]. unfold updateRow.
    destruct (decide (r_id r0 = r_id x)) as [Heq |]; [| reflexivity].
    exfalso. apply (Hl x); [left | congruence]. }
  rewrite Hx. apply IH. intros r Hr. apply Hl. now right.
Qed.

Lemma updatedBy_own (l : list DbRow) (r r0 : DbRow) :
  NoDup (map r_id l) -> r ∈ l -> r_id r = r_id r0 ->
  updatedBy upd l r0
  = match upd r with
    | Some data => with_row_data r0 data
    | None => r0
    end.
Proof.
  induction l as [| x l IH]; intros Hnd Hr Hid; [inversion Hr |].
  simpl in Hnd. apply NoDup_cons in Hnd as [Hx Hnd].
  apply elem_of_cons in Hr as [<- | Hr].
  - change (updatedBy upd (r :: l) r0)
      with (updatedBy upd l (match upd r with
                         | Some data => updateRow (r_id r) data r0
                         | None => r0
                         end)).
    assert (Hstep : (match upd r with
                     | Some data => updateRow (r_id r) data r0
                     | None => r0
                     end)
                    = match upd r with
                      | Some data => with_row_data r0 data
                      | None => r0
                      end).
    { destruct (upd r); [| reflexivity]. unfold updateRow.
      destruct (decide (r_id r0 = r_id r)); [reflexivity | congruence]. }
    rewrite Hstep. apply updatedBy_other. intros y Hy Heq. apply Hx.
    apply list_elem_of_fmap. exists y. split; [| exact Hy].
    rewrite Heq, Hid. now destruct (upd r).
  - change (updatedBy upd (x :: l) r0)
      with (updatedBy upd l (match upd x with
                         | Some data => updateRow (r_id x) data r0
                         | None => r0
                         end)).
    assert (Hstep : (match upd x with
                     | Some data => updateRow (r_id x) data r0
                     | None => r0
                     end) = r0).
    { destruct (upd x); [| reflexivity]. unfold updateRow.
      destruct (decide (r_id r0 = r_id x)) as [Heq |]; [| reflexivity].
      exfalso. apply Hx. apply list_elem_of_fmap. exists r.
      split; [congruence | exact Hr]. }
    rewrite Hstep. now apply IH.
Qed.

Lemma updatedBy_table (l : list DbRow) (r0 : DbRow) :
  r_table_id (updatedBy upd l r0) = r_table_id r0.
Proof.
  revert r0. induction l as [| x l IH]; intros r0; [reflexivity |].
  change (updatedBy upd (x :: l) r0)
    with (updatedBy upd l (match upd x with
                       | Some data => updateRow (r_id x) data r0
                       | None => r0
                       end)).
  rewrite IH. destruct (upd x); [apply updateRow_table | reflexivity].
Qed.

Lemma filter_map_table (f : DbRow -> DbRow) (tableId : string) (rs : list DbRow) :
  (forall r, r_table_id (f r) = r_table_id r) ->
  filter (fun r => r_table_id r = tableId) (map f rs)
  = map f (filter (fun r => r_table_id r = tableId) rs).
Proof.
  intros Hf. induction rs as [| r rs IH]; simpl; [reflexivity |].
  rewrite !filter_cons, Hf.
  destruct (decide (r_table_id r = tableId)); simpl; now rewrite IH.
Qed.

Lemma NoDup_map_inj {A B} (f : A -> B) (l : list A) (x y : A) :
  NoDup (map f l) -> x ∈ l -> y ∈ l -> f x = f y -> x = y.
Proof.
  induction l as [| a l IH]; intros Hnd Hx Hy Hxy; [inversion Hx |].
  simpl in Hnd. apply NoDup_cons in Hnd as [Ha Hnd].
  apply elem_of_cons in Hx as [-> | Hx]; apply elem_of_cons in Hy as [-> | Hy].
  - reflexivity.
  - exfalso. apply Ha. rewrite Hxy. now apply list_elem_of_fmap_2.
  - exfalso. apply Ha. rewrite <- Hxy. now apply list_elem_of_fmap_2.
  - now apply IH.
Qed.

(** After the updates asked for on the rows shown, a reload shows each row
    with the data asked for, the others as they were. *)
Lemma reload_after_updates (tableId : string) (d : Db) :
  uniqueRowIds d ->
  loadedRows tableId
    (withRows (applyUpdates upd (loadedRows tableId d) (user_rows d)) d)
  = map (fun r => match upd r with
                  | Some data => with_row_data r data
                  | None => r
                  end)
        (loadedRows tableId d).
Proof.
  intros Hnd. unfold loadedRows at 1. simpl.
  rewrite applyUpdates_map, filter_map_table by apply updatedBy_table.
  unfold loadedRows. rewrite !map_map. apply map_ext_in. intros r0 Hr0.
  apply list_elem_of_In, list_elem_of_filter in Hr0 as [Htable Hr0].
  assert (Hids : map r_id (loadedRows tableId d)
                 = map r_id (filter (fun r => r_table_id r = tableId) (user_rows d))).
  { unfold loadedRows. rewrite map_map. now apply map_ext. }
  rewrite (updatedBy_own _ (with_row_data r0 (rd r0)) r0).
  - destruct (upd (with_row_data r0 (rd r0))); reflexivity.
  - fold (loadedRows tableId d). rewrite Hids.
    apply (NoDup_fmap_2_strong r_id).
    + intros x y Hx Hy. apply list_elem_of_filter in Hx as [_ Hx].
      apply list_elem_of_filter in Hy as [_ Hy].
      now apply (NoDup_map_inj r_id (user_rows d)).
    + apply NoDup_filter. eapply NoDup_fmap_1. exact Hnd.
  - apply (list_elem_of_fmap_2 (fun r => with_row_data r (rd r))).
    now apply list_elem_of_filter.
  - reflexivity.
Qed.

End RowUpdates.

(** ** Dates *)

Section Calendar.

Import JsDate.

Local Open Scope Z_scope.

Lemma DayFromYear_step (y : Z) : DayFromYear (y + 1) = DayFromYear y + DaysInYear y.
Proof.
  unfold DayFromYear, DaysInYear.
  replace (y + 1 - 1970) with (y - 1969) by lia.
  replace (y + 1 - 1969) with (y - 1968) by lia.
  replace (y + 1 - 1901) with (y - 1900) by lia.
  replace (y + 1 - 1601) with (y - 1600) by lia.
  destruct (Z.eqb_spec (y mod 4) 0), (Z.eqb_spec (y mod 100) 0),
    (Z.eqb_spec (y mod 400) 0); simpl; Z.div_mod_to_equations; lia.
Qed.

(** [YearFromDay] is the year the day falls in. *)
Lemma YearFromDay_spec (day : Z) :
  DayFromYear (YearFromDay day) <= day < DayFromYear (YearFromDay day + 1).
Proof.
  unfold YearFromDay.
  set (y0 := 1970 + 400 * day / 146097).
  destruct (Z.ltb_spec day (DayFromYear y0)).
  - split; [| replace (y0 - 1 + 1) with y0 by lia; lia].
    unfold DayFromYear in *. subst y0. Z.div_mod_to_equations. lia.
  - destruct (Z.leb_spec (DayFromYear (y0 + 1)) day).
    + split; [lia |]. unfold DayFromYear in *. subst y0. Z.div_mod_to_equations. lia.
    + lia.
Qed.

Lemma DaysInYear_leap (y : Z) :
  DaysInYear y = 365 + InLeapYear y /\ 0 <= InLeapYear y <= 1.
Proof.
  unfold InLeapYear, DaysInYear.
  destruct (y mod 4 =? 0), (y mod 100 =? 0), (y mod 400 =? 0); simpl; lia.
Qed.

Lemma MonthAndDate_spec (d leap : Z) :
  0 <= d < 365 + leap -> 0 <= leap <= 1 ->
  let m := fst (MonthAndDate d leap) + 1 in
  let dd := snd (MonthAndDate d leap) in
  1 <= m <= 12
  /\ 1 <= dd <= daysBefore (m + 1) leap - daysBefore m leap
  /\ d = daysBefore m leap + dd - 1.
Proof.
  intros Hd Hleap. cbv zeta. unfold MonthAndDate.
  repeat match goal with
         | |- context [?a <? ?b] => destruct (Z.ltb_spec a b)
         end; cbn [fst snd]; unfold daysBefore; simpl; lia.
Qed.

(** The calendar of [civil]: the year is the one the day falls in, the
    month and the day of the month are those of the day within the year. *)
Lemma civil_spec (t y m d : Z) :
  civil t = (y, m, d) ->
  DayFromYear y <= Day t < DayFromYear (y + 1)
  /\ 1 <= m <= 12
  /\ 1 <= d <= daysBefore (m + 1) (InLeapYear y) - daysBefore m (InLeapYear y)
  /\ Day t = DayFromYear y + daysBefore m (InLeapYear y) + d - 1.
Proof.
  unfold civil. intros Hc.
  pose proof (YearFromDay_spec (Day t)) as Hy.
  set (yy := YearFromDay (Day t)) in *.
  pose proof (DayFromYear_step yy) as Hstep.
  destruct (DaysInYear_leap yy) as [Hdays Hleap].
  assert (Hd : 0 <= Day t - DayFromYear yy < 365 + InLeapYear yy) by lia.
  pose proof (MonthAndDate_spec _ _ Hd Hleap) as Hmd.
  destruct (MonthAndDate (Day t - DayFromYear yy) (InLeapYear yy)) as [m0 d0].
  inversion Hc; subst. cbn in Hmd. split; [exact Hy |]. lia.
Qed.

Lemma days_in_month (m leap : Z) :
  0 <= leap <= 1 -> daysBefore (m + 1) leap - daysBefore m leap <= 31.
Proof.
  intros Hleap. unfold daysBefore.
  repeat match goal with
         | |- context [?a =? ?b] => destruct (Z.eqb_spec a b)
         end; lia.
Qed.

Lemma substring_whole (s : string) : String.substring 0 (String.length s) s = s.
Proof. induction s as [| a s IH]; [reflexivity |]. cbn. now rewrite IH. Qed.

Lemma digit_of (n : Z) :
  0 <= n < 10 -> digit (ascii_of_N (48 + Z.to_N n)) = Some n.
Proof.
  intros Hn. unfold digit. rewrite N_ascii_embedding by lia.
  rewrite N2Z.inj_add, Z2N.id by lia. cbn.
  destruct (Z.leb_spec 48 (48 + n)); [| lia].
  destruct (Z.leb_spec (48 + n) 57); [| lia]. cbn. f_equal. lia.
Qed.

(** The first ten characters of [toISOString] for a year of four digits:
    year, month and day, which the date-only parser reads back as the day. *)
Lemma isoDate_four_digits (t y m d : Z) :
  civil t = (y, m, d) -> 0 <= y <= 9999 ->
  isoDate t = (fixedWidth 4 y ++ "-" ++ fixedWidth 2 m ++ "-" ++ fixedWidth 2 d)%string
  /\ parseDateOnly (isoDate t) = Some (Day t * msPerDay).
Proof.
  intros Hc Hy. destruct (civil_spec t y m d Hc) as (_ & Hm & Hd & Hday).
  destruct (DaysInYear_leap y) as [_ Hleap].
  pose proof (days_in_month m (InLeapYear y) Hleap) as H31.
  assert (Hiso : isoDate t
                 = (fixedWidth 4 y ++ "-" ++ fixedWidth 2 m ++ "-" ++ fixedWidth 2 d)%string).
  { unfold isoDate, isoDay. rewrite Hc. unfold isoYear.
    destruct (Z.leb_spec 0 y); [| lia]. destruct (Z.leb_spec y 9999); [| lia].
    cbn [andb]. apply (substring_whole (String _ (String _ (String _ (String _
      (String _ (String _ (String _ (String _ (String _ (String _ ""))))))))))). }
  split; [exact Hiso |]. rewrite Hiso. unfold parseDateOnly.
  cbv [fixedWidth append list_ascii_of_string digitsValue].
  rewrite !digit_of by (apply Z.mod_pos_bound; lia).
  replace (10 * (10 * (10 * (10 * 0 + y / 10 / 10 / 10 mod 10) + y / 10 / 10 mod 10)
                 + y / 10 mod 10) + y mod 10) with y
    by (Z.div_mod_to_equations; lia).
  replace (10 * (10 * 0 + m / 10 mod 10) + m mod 10) with m
    by (Z.div_mod_to_equations; lia).
  replace (10 * (10 * 0 + d / 10 mod 10) + d mod 10) with d
    by (Z.div_mod_to_equations; lia).
  change (N_of_ascii "-") with 45%N. cbn [N.eqb Pos.eqb andb].
  destruct (Z.leb_spec 1 m); [| lia]. destruct (Z.leb_spec m 12); [| lia].
  destruct (Z.leb_spec 1 d); [| lia].
  destruct (Z.leb_spec d (daysBefore (m + 1) (InLeapYear y) - daysBefore m (InLeapYear y)));
    [| lia].
  cbn [andb]. f_equal. rewrite Hday. reflexivity.
Qed.

End Calendar.

(** ** Objects under construction *)

Section Slots.

Import JsValue.

Context `{Host}.

Lemma read_start (d : gmap string JsVal) (k : string) :
  read k (d, inherited k) = get d k.
Proof. reflexivity. Qed.

Lemma inherited_no_accessor (k : string) :
  k <> "__proto__" -> forall v, inherited k <> Accessor v.
Proof.
  intros Hk v. unfold inherited. apply eqb_proto in Hk. rewrite Hk.
  now destruct (inPrototype k).
Qed.

Lemma inherited_proto : inherited "__proto__" = Accessor (JObj "[object Object]").
Proof. reflexivity. Qed.

Lemma assign_other (k k' : string) (v : JsVal) (o : Slot) :
  k <> k' -> fst (assign k v o) !! k' = fst o !! k'.
Proof.
  intros Hk. unfold assign.
  destruct (fst o !! k), (snd o); simpl; try reflexivity;
    now apply lookup_insert_ne.
Qed.

(** An assignment makes or writes the property, unless it goes to the
    setter of [__proto__]. *)
Lemma assign_data (k : string) (v : JsVal) (o : Slot) :
  (forall x, snd o <> Accessor x) -> assign k v o = (<[k := v]> (fst o), snd o).
Proof.
  intros Hc. unfold assign. destruct (fst o !! k), (snd o); try reflexivity.
  now destruct (Hc v0).
Qed.

Lemma assign_setter (k : string) (v x : JsVal) (o : Slot) :
  fst o !! k = None -> snd o = Accessor x ->
  assign k v o
  = (fst o, match v with JObj _ => Accessor v | JNull => Nothing | _ => snd o end).
Proof. intros Hk Hc. unfold assign. now rewrite Hk, Hc. Qed.

End Slots.

(** ** Adding and updating a column *)

Section ColumnHandlers.

Import Store TablesPage.

Context `{Host}.

Lemma with_row_data_rd (r : DbRow) (data : gmap string JsVal) :
  rd (with_row_data r data) = data.
Proof. reflexivity. Qed.

Lemma loadedRows_normal (tableId : string) (d : Db) (r : DbRow) :
  r ∈ loadedRows tableId d -> with_row_data r (rd r) = r.
Proof.
  intros Hr. apply list_elem_of_fmap in Hr as (r0 & -> & _). reflexivity.
Qed.

Lemma loadedRows_withRows (tableId : string) (rs : list DbRow) (d d' : Db) :
  user_rows d' = user_rows d ->
  loadedRows tableId (withRows rs d') = loadedRows tableId (withRows rs d).
Proof. reflexivity. Qed.

(** [handleAddColumn] when the table is selected, the name is not blank and
    no call fails. *)
Lemma handleAddColumn_run (p : Page) (sel : DbTable) (d : Db)
    (cs : list Query) (ts : list Toast) :
  selectedTable p = Some sel ->
  JsString.trim (newColumnName p) <> "" ->
  let colName := JsString.trim (newColumnName p) in
  let upd := fun r : DbRow =>
               match JsValue.get (rd r) colName with
               | JUndefined => Some (<[colName := JStr ""]> (rd r))
               | _ => None
               end in
  let d1 :=
    tick (withColumns
            (user_columns d
             ++ [{| c_id := "col-" ++ pretty (clock d); c_table_id := t_id sel;
                    c_name := colName; c_type := typeName (newColumnType p);
                    c_created_at := pretty (clock d) |}])
            d) in
  let d2 := withRows (applyUpdates upd (rows p) (user_rows d)) d1 in
  exists cs',
    handleAddColumn p {| db := d; faults := []; calls := cs; toasts := ts |}
    = (setRows (loadedRows (t_id sel) d2)
         (setColumns (loadedColumns (t_id sel) d2) (closeColumnDialog p)),
       {| db := d2; faults := []; calls := cs';
          toasts := (ts ++ [ToastSuccess "Column added"])%list |}).
Proof.
  intros Hsel Hname. cbv zeta. unfold handleAddColumn. rewrite Hsel.
  destruct (JsString.trim (newColumnName p)) as [| a name]; [contradiction |].
  set (colName := String a name).
  set (upd := fun r : DbRow =>
                match JsValue.get (rd r) colName with
                | JUndefined => Some (<[colName := JStr ""]> (rd r))
                | _ => None
                end).
  rewrite (forEach_ext _ (updateOf upd))
    by (intros r; unfold updateOf, upd; now destruct (JsValue.get (rd r) colName)).
  unfold bind. unfold supabase at 1. simpl.
  rewrite forEach_updates. eexists. reflexivity.
Qed.

Lemma handleColumnUpdate_run (col : DbColumn) (p : Page) (sel : DbTable) (d : Db)
    (cs : list Query) (ts : list Toast) :
  selectedTable p = Some sel ->
  JsString.trim (editingColumnName p) <> "" ->
  let newName := JsString.trim (editingColumnName p) in
  let newType := editingColumnType p in
  let upd := fun r : DbRow =>
               Some (updatedRowData (c_name col) newName newType (rd r)) in
  let d1 :=
    withColumns (map (updateColumn (c_id col) newName (typeName newType))
                     (user_columns d)) d in
  let d2 := withRows (applyUpdates upd (rows p) (user_rows d)) d1 in
  exists cs',
    handleColumnUpdate col p {| db := d; faults := []; calls := cs; toasts := ts |}
    = (setRows (loadedRows (t_id sel) d2)
         (setColumns (loadedColumns (t_id sel) d2) (closeColumnEdit p)),
       {| db := d2; faults := []; calls := cs';
          toasts := (ts ++ [ToastSuccess "Column updated"])%list |}).
Proof.
  intros Hsel Hname. cbv zeta. unfold handleColumnUpdate. rewrite Hsel.
  destruct (JsString.trim (editingColumnName p)) as [| a name]; [contradiction |].
  set (newName := String a name).
  set (upd := fun r : DbRow =>
                Some (updatedRowData (c_name col) newName (editingColumnType p) (rd r))).
  rewrite (forEach_ext _ (updateOf upd)) by reflexivity.
  unfold bind. unfold supabase at 1. simpl.
  rewrite forEach_updates. eexists. reflexivity.
Qed.

(** What [sanitize] gives is a string or a number. *)
Lemma sanitize_primitive (newType : ColumnType) (v : JsVal) :
  (exists s, sanitize newType v = JStr s) \/ (exists x, sanitize newType v = JNum x).
Proof.
  destruct newType; simpl.
  - destruct (JsValue.nullish v); eauto.
  - destruct (JsValue.isEmptyStr v || JsValue.nullish v); eauto.
  - destruct (JsValue.isEmptyStr v || JsValue.nullish v); eauto.
  - destruct (JsValue.falsy v); eauto. destruct (newDate (JsValue.toStr v)); eauto.
Qed.

Lemma sanitize_undefined (newType : ColumnType) : sanitize newType JUndefined = JStr "".
Proof. now destruct newType. Qed.

Lemma sanitize_null (newType : ColumnType) : sanitize newType JNull = JStr "".
Proof. now destruct newType. Qed.

(** The setter of [__proto__] ignores what [sanitize] gives. *)
Lemma assign_sanitized_setter (k : string) (newType : ColumnType) (v x : JsVal)
    (o : JsValue.Slot) :
  fst o !! k = None -> snd o = JsValue.Accessor x ->
  JsValue.assign k (sanitize newType v) o = o.
Proof.
  intros Hk Hc. rewrite (assign_setter k _ x o Hk Hc).
  destruct o as [own chain]. simpl in *.
  destruct (sanitize_primitive newType v) as [[s ->] | [y ->]]; reflexivity.
Qed.

Lemma updatedRowData_lookup (oldName newName : string) (newType : ColumnType)
    (data : gmap string JsVal) :
  let data' := updatedRowData oldName newName newType data in
  (oldName <> newName -> data' !! oldName = None)
  /\ (newName <> "__proto__" ->
      data' !! newName = Some (sanitize newType (JsValue.get data oldName)))
  /\ (newName = "__proto__" -> data !! newName = None ->
      JsValue.get data oldName <> JNull -> data' !! newName = None)
  /\ (forall k, k <> oldName -> k <> newName -> data' !! k = data !! k).
Proof.
  cbv zeta. unfold updatedRowData.
  destruct (decide (oldName = newName)) as [-> | Hne].
  - split; [congruence |]. split; [| split].
    + intros Hp. rewrite assign_data by (simpl; now apply inherited_no_accessor).
      simpl. rewrite lookup_insert_eq. now rewrite read_start.
    + intros -> Hnone _.
      rewrite (assign_sanitized_setter _ _ _ (JObj "[object Object]"));
        [exact Hnone | exact Hnone | reflexivity].
    + intros k _ Hk. now rewrite assign_other by congruence.
  - split; [| split; [| split]].
    + intros _. rewrite assign_other by congruence. apply lookup_delete_eq.
    + intros Hp.
      rewrite (assign_data newName (JsValue.get data oldName))
        by (simpl; now apply inherited_no_accessor).
      rewrite assign_data by (simpl; now apply inherited_no_accessor).
      simpl. rewrite lookup_insert_eq. do 2 f_equal. unfold JsValue.read. simpl.
      rewrite lookup_delete_ne by exact Hne. now rewrite lookup_insert_eq.
    + intros -> Hnone Hnull.
      rewrite (assign_setter "__proto__" _ (JObj "[object Object]") (data, _))
        by (exact Hnone || reflexivity).
      set (chain := match JsValue.get data oldName with
                    | JObj _ => JsValue.Accessor (JsValue.get data oldName)
                    | JNull => JsValue.Nothing
                    | _ => snd (data, JsValue.inherited "__proto__")
                    end).
      assert (Hchain : exists x, chain = JsValue.Accessor x).
      { subst chain. destruct (JsValue.get data oldName); try (eexists; reflexivity).
        congruence. }
      destruct Hchain as [x Hx].
      assert (Hown : delete oldName data !! "__proto__" = None)
        by (now rewrite lookup_delete_ne by exact Hne).
      rewrite (assign_sanitized_setter _ _ _ x); [exact Hown | exact Hown | exact Hx].
    + intros k Hold Hnew. rewrite assign_other by congruence. unfold JsValue.remove.
      simpl. rewrite lookup_delete_ne by congruence. now rewrite assign_other by congruence.
Qed.

Lemma backfilled_lookup (colName : string) (data : gmap string JsVal) :
  JsValue.inPrototype colName = false ->
  let data' := backfilled colName data in
  is_Some (data' !! colName)
  /\ (data !! colName = None -> data' !! colName = Some (JStr ""))
  /\ (forall v, data !! colName = Some v -> v <> JUndefined -> data' = data)
  /\ (forall k, k <> colName -> data' !! k = data !! k).
Proof.
  intros Hk. cbv zeta. unfold backfilled. rewrite get_plain by exact Hk.
  destruct (data !! colName) as [v |] eqn:Hv; simpl.
  - destruct v; simpl; rewrite ?lookup_insert_eq; repeat split; eauto;
      try discriminate; try congruence;
      intros k Hk'; now rewrite lookup_insert_ne.
  - rewrite lookup_insert_eq. repeat split; eauto; try discriminate.
    intros k Hk'. now rewrite lookup_insert_ne.
Qed.

(** A row that has no key of the name of a member of [Object.prototype] is
    left as it is: reading the key gives the member. *)
Lemma backfilled_inherited (colName : string) (data : gmap string JsVal) :
  JsValue.inPrototype colName = true -> data !! colName = None ->
  backfilled colName data = data.
Proof.
  intros Hk Hnone. unfold backfilled.
  destruct (get_inherited data colName Hk Hnone) as [text ->]. reflexivity.
Qed.

End ColumnHandlers.







(** ** Facts about strings *)

Section Strings.

Import JsString.

Ltac props :=
  repeat first
    [ rewrite andb_true_iff in * | rewrite orb_true_iff in *
    | rewrite N.leb_le in * | rewrite N.eqb_eq in * ].

Lemma append_cons (a : ascii) (u v : string) : String a u ++ v = String a (u ++ v).
Proof. reflexivity. Qed.

Lemma ws_prefix_split (s s' : string) :
  ws_prefix s = Some s' -> exists w, s = w ++ s' /\ noLetters w = true.
Proof.
  assert (Hnot : forall c, (128 <= code c)%N \/ (code c <= 32)%N -> isLetter c = false).
  { intros c Hc. apply not_true_is_false. intros Hl.
    unfold isLetter in Hl. cbv zeta in Hl. props. lia. }
  unfold ws_prefix. destruct s as [| a s1]; [discriminate |]. cbv zeta.
  destruct ((9 <=? code a) && (code a <=? 13) || (code a =? 32))%N eqn:H1.
  { intros [= <-]. exists (String a ""). split; [reflexivity |]. simpl.
    rewrite Hnot; [reflexivity |]. props. lia. }
  destruct s1 as [| b s2]; [discriminate |].
  destruct ((code a =? 194) && (code b =? 160))%N eqn:H2.
  { intros [= <-]. exists (String a (String b "")). split; [reflexivity |]. simpl.
    rewrite !Hnot; [reflexivity | |]; props; lia. }
  destruct s2 as [| c s3]; [discriminate |].
  match goal with |- (if ?cond then _ else _) = _ -> _ => destruct cond eqn:H3 end;
    [| discriminate].
  intros [= <-]. exists (String a (String b (String c ""))). split; [reflexivity |].
  simpl. rewrite !Hnot; [reflexivity | | |]; props; lia.
Qed.

Lemma noLetters_app (u v : string) :
  noLetters (u ++ v) = noLetters u && noLetters v.
Proof.
  induction u as [| a u IH]; [reflexivity |].
  rewrite append_cons. simpl. now rewrite IH, andb_assoc.
Qed.

Lemma append_assoc (u v w : string) : (u ++ v) ++ w = u ++ (v ++ w).
Proof.
  induction u as [| a u IH]; [reflexivity |]. rewrite !append_cons. f_equal. exact IH.
Qed.

Lemma append_empty_r (u : string) : u ++ "" = u.
Proof.
  induction u as [| a u IH]; [reflexivity |]. rewrite append_cons. f_equal. exact IH.
Qed.

Lemma trimStart_fuel_split (n : nat) (s : string) :
  exists w, s = w ++ trimStart_fuel n s /\ noLetters w = true.
Proof.
  revert s. induction n as [| n IH]; intros s; simpl.
  - exists "". now split.
  - destruct (ws_prefix s) as [s' |] eqn:Hs; [| exists ""; now split].
    destruct (ws_prefix_split _ _ Hs) as (w1 & -> & Hw1).
    destruct (IH s') as (w2 & Hs' & Hw2).
    exists (w1 ++ w2). rewrite append_assoc, <- Hs', noLetters_app, Hw1, Hw2. now split.
Qed.

Lemma blank_noLetters (s : string) : blank s = true -> noLetters s = true.
Proof.
  unfold blank, trimStart. intros Hs.
  destruct (trimStart_fuel_split (String.length s) s) as (w & Heq & Hw).
  destruct (trimStart_fuel (String.length s) s); [| discriminate].
  rewrite append_empty_r in Heq. now subst.
Qed.

Lemma trimEnd_split (s : string) :
  exists w, s = trimEnd s ++ w /\ noLetters w = true.
Proof.
  induction s as [| a s IH]; [exists ""; now split |].
  change (trimEnd (String a s))
    with (if blank (String a s) then "" else String a (trimEnd s)).
  destruct (blank (String a s)) eqn:Hb.
  - exists (String a s). split; [reflexivity | now apply blank_noLetters].
  - destruct IH as (w & Hs & Hw). exists w. split; [| exact Hw].
    rewrite append_cons. now rewrite <- Hs.
Qed.

Lemma trim_split (s : string) :
  exists w1 w2,
    s = w1 ++ trim s ++ w2 /\ noLetters w1 = true /\ noLetters w2 = true.
Proof.
  destruct (trimStart_fuel_split (String.length s) s) as (w1 & Hs & Hw1).
  destruct (trimEnd_split (trimStart s)) as (w2 & Ht & Hw2).
  exists w1, w2. unfold trim. fold (trimStart s) in Hs. now rewrite <- Ht.
Qed.

Lemma toLowerCase_app (u v : string) :
  toLowerCase (u ++ v) = toLowerCase u ++ toLowerCase v.
Proof.
  induction u as [| a u IH]; [reflexivity |].
  rewrite append_cons. simpl. rewrite append_cons. f_equal. exact IH.
Qed.

Lemma toLowerCase_noLetters (w : string) :
  noLetters w = true -> toLowerCase w = w.
Proof.
  induction w as [| a w IH]; simpl; [reflexivity |].
  intros Hw. apply andb_true_iff in Hw as [Ha Hw]. rewrite (IH Hw). f_equal.
  unfold lower_ascii. cbv zeta.
  destruct ((65 <=? code a) && (code a <=? 90))%N eqn:Hup; [| reflexivity].
  exfalso. apply negb_true_iff in Ha. unfold isLetter in Ha. cbv zeta in Ha.
  rewrite Hup in Ha. discriminate Ha.
Qed.

Lemma prefix_letter_mismatch (a b : ascii) (p s : string) :
  isLetter a = true -> isLetter b = false ->
  String.prefix (String a p) (String b s) = false.
Proof.
  intros Ha Hb. simpl. destruct (ascii_dec a b) as [-> |]; [congruence | reflexivity].
Qed.

Lemma includes_after_noLetters (p w s : string) :
  startsWithLetter p = true -> noLetters w = true ->
  includes p (w ++ s) = includes p s.
Proof.
  intros Hp. induction w as [| b w IH]; [reflexivity |].
  intros Hw. simpl in Hw. apply andb_true_iff in Hw as [Hb Hw].
  apply negb_true_iff in Hb.
  destruct p as [| a p]; [discriminate |]. rewrite append_cons.
  change (includes (String a p) (String b (w ++ s)))
    with (String.prefix (String a p) (String b (w ++ s))
          || includes (String a p) (w ++ s)).
  rewrite (prefix_letter_mismatch a b p (w ++ s) Hp Hb). simpl. now apply IH.
Qed.

Lemma prefix_noLetters (p w : string) :
  String.prefix p w = true -> noLetters w = true -> noLetters p = true.
Proof.
  revert w. induction p as [| a p IH]; intros w; simpl; [reflexivity |].
  destruct w as [| b w]; [intros Hp; discriminate Hp |].
  intros Hp Hw. simpl in Hp.
  destruct (ascii_dec a b) as [-> |]; [| discriminate Hp].
  simpl in Hw. apply andb_true_iff in Hw as [Hb Hw].
  now rewrite Hb, (IH w Hp Hw).
Qed.

Lemma endsWithLetter_letters (p : string) :
  endsWithLetter p = true -> noLetters p = false.
Proof.
  induction p as [| a p IH]; simpl; [discriminate |].
  destruct p as [| b p].
  - intros ->. reflexivity.
  - intros Hp. rewrite (IH Hp). apply andb_false_r.
Qed.

Lemma prefix_empty (s : string) : String.prefix "" s = true.
Proof. now destruct s. Qed.

Lemma prefix_before_noLetters (p s w : string) :
  endsWithLetter p = true -> noLetters w = true ->
  String.prefix p (s ++ w) = String.prefix p s.
Proof.
  revert s. induction p as [| a p IH]; intros s Hp Hw; [discriminate |].
  destruct s as [| b s].
  - change ("" ++ w) with w. destruct (String.prefix (String a p) w) eqn:Hpw.
    + apply prefix_noLetters in Hpw; [| exact Hw].
      rewrite (endsWithLetter_letters _ Hp) in Hpw. discriminate.
    + reflexivity.
  - rewrite append_cons. simpl. destruct (ascii_dec a b); [| reflexivity].
    destruct p as [| c p]; [now rewrite !prefix_empty |]. now apply IH.
Qed.

Lemma includes_noLetters (p w : string) :
  endsWithLetter p = true -> noLetters w = true -> includes p w = false.
Proof.
  intros Hp. induction w as [| b w IH]; intros Hw.
  - destruct p; [discriminate | reflexivity].
  - change (includes p (String b w))
      with (String.prefix p (String b w) || includes p w).
    simpl in Hw. apply andb_true_iff in Hw as [Hb Hw']. rewrite (IH Hw').
    destruct (String.prefix p (String b w)) eqn:Hpw; [| reflexivity].
    apply prefix_noLetters in Hpw; [| simpl; now rewrite Hb, Hw'].
    rewrite (endsWithLetter_letters _ Hp) in Hpw. discriminate.
Qed.

Lemma includes_before_noLetters (p s w : string) :
  endsWithLetter p = true -> noLetters w = true ->
  includes p (s ++ w) = includes p s.
Proof.
  intros Hp Hw. induction s as [| b s IH].
  - change ("" ++ w) with w. rewrite (includes_noLetters p w Hp Hw).
    destruct p; [discriminate | reflexivity].
  - rewrite append_cons.
    change (includes p (String b (s ++ w)))
      with (String.prefix p (String b (s ++ w)) || includes p (s ++ w)).
    rewrite <- append_cons.
    change (includes p (String b s))
      with (String.prefix p (String b s) || includes p s).
    now rewrite IH, (prefix_before_noLetters p (String b s) w Hp Hw).
Qed.

(** A pattern of words that start and end with a letter matches a string
    exactly when it matches the trimmed string. *)
Lemma regexTest_trim (alternatives : list string) (s : string) :
  forallb (fun p => startsWithLetter p && endsWithLetter p) alternatives = true ->
  regexTest alternatives (trim s) = regexTest alternatives s.
Proof.
  intros Halt. destruct (trim_split s) as (w1 & w2 & Hs & Hw1 & Hw2).
  unfold regexTest. revert Hs. generalize (trim s). intros t ->.
  rewrite !toLowerCase_app.
  rewrite (toLowerCase_noLetters w1 Hw1), (toLowerCase_noLetters w2 Hw2).
  induction alternatives as [| p ps IH]; simpl; [reflexivity |].
  simpl in Halt. apply andb_true_iff in Halt as [Hp Hps].
  apply andb_true_iff in Hp as [Hstart Hend].
  rewrite (IH Hps). f_equal.
  now rewrite includes_after_noLetters, includes_before_noLetters.
Qed.

End Strings.

(** ** Revenue and expense *)

Section Buckets.

Import Store.

Context `{Host}.

Lemma patterns_are_words :
  forallb (fun p => JsString.startsWithLetter p && JsString.endsWithLetter p)
          Dashboard.amountNameRegex = true
  /\ forallb (fun p => JsString.startsWithLetter p && JsString.endsWithLetter p)
             Dashboard.expenseNameRegex = true.
Proof. split; reflexivity. Qed.

Lemma entryOf_claimed (c : DbColumn) :
  Dashboard.entryOf c
  = option_map (fun b => (JsString.trim (c_name c), b))
      (claimedBucket Dashboard.amountNameRegex Dashboard.expenseNameRegex
         (c_type c) (c_name c)).
Proof.
  destruct patterns_are_words as [Hamount Hexpense].
  unfold Dashboard.entryOf, claimedBucket.
  rewrite <- (regexTest_trim _ (c_name c) Hamount).
  rewrite <- (regexTest_trim _ (c_name c) Hexpense).
  destruct (JsString.trim (c_name c)) as [| a name].
  - replace (regexTest Dashboard.amountNameRegex "") with false by reflexivity.
    replace (regexTest Dashboard.expenseNameRegex "") with false by reflexivity.
    now destruct (String.eqb (c_type c) "number" || String.eqb (c_type c) "currency").
  - generalize (regexTest Dashboard.amountNameRegex (String a name)).
    generalize (regexTest Dashboard.expenseNameRegex (String a name)).
    intros [] [];
      now destruct (String.eqb (c_type c) "number" || String.eqb (c_type c) "currency").
Qed.

Lemma colsByTable_entries (colsData : list DbColumn) (tableId : string) :
  default [] (Dashboard.colsByTable colsData !! tableId)
  = omap Dashboard.entryOf (filter (fun c => c_table_id c = tableId) colsData).
Proof.
  unfold Dashboard.colsByTable.
  induction colsData as [| c cols IH] using rev_ind; [reflexivity |].
  rewrite fold_left_app, filter_app, omap_app. simpl.
  rewrite filter_cons, filter_nil.
  destruct (Dashboard.entryOf c) as [e |] eqn:He.
  - destruct (decide (c_table_id c = tableId)) as [-> | Hne]; simpl.
    + rewrite lookup_insert_eq, He. simpl. now rewrite IH.
    + rewrite lookup_insert_ne by exact Hne. now rewrite IH, app_nil_r.
  - destruct (decide (c_table_id c = tableId)); simpl; rewrite ?He, IH;
      now rewrite app_nil_r.
Qed.

Lemma moneySummary_addRow (columns : list DbColumn) (r : DbRow) (acc : float * float) :
  fold_left
    (fun '(rev, exp) c =>
       let value := Analytics.toNumberSafe (JsValue.getOptional (row_data r) (c_name c)) in
       match Analytics.bucketOfName (c_name c) with
       | None => (rev, exp)
       | Some expense => (rev, PrimFloat.add exp value)
       | Some revenue => (PrimFloat.add rev value, exp)
       end)
    (List.filter (fun c => String.eqb (c_table_id c) (r_table_id r))
                 (Analytics.currencyCols columns))
    acc
  = Analytics.addRow columns acc r.
Proof.
  unfold Analytics.addRow, Analytics.currencyCols, Analytics.bucketOf.
  revert acc. induction columns as [| c cols IH]; intros [rev exp]; [reflexivity |].
  simpl. destruct (String.eqb (c_type c) "currency"); simpl;
    destruct (String.eqb (c_table_id c) (r_table_id r)); simpl; try apply IH.
Qed.

End Buckets.

(** C4 (amended). In the dashboard's analytics of all tables a column is
    entered in [colsByTable], under its trimmed name, exactly when its type is
    number or currency and its name matches, letter case ignored, the
    amount-like or the expense-like pattern; it is entered as expense when it
    matches the expense-like pattern and as revenue otherwise; the entries of
    a table are those of its columns, in order, and only their values are
    added.  The summary of the analytics page follows another rule: it adds
    the values of a column exactly when its type is currency and its
    lower-cased name does not contain "total", to expense when the name
    contains "expense" or "cost" and to revenue otherwise. *)
Theorem revenue_expense_buckets `{Host} :
  (forall c,
      Dashboard.entryOf c
      = option_map (fun b => (JsString.trim (Store.c_name c), b))
          (claimedBucket Dashboard.amountNameRegex Dashboard.expenseNameRegex
             (Store.c_type c) (Store.c_name c)))
  /\ Dashboard.amountNameRegex
     = ["amount"; "revenue"; "income"; "sale"; "sales"; "price"; "paid"; "payment";
        "total"; "subtotal"]
  /\ Dashboard.expenseNameRegex
     = ["expense"; "cost"; "spent"; "purchase"; "fee"; "charges"; "rent"; "salary";
        "tax"; "gst"; "vat"]
  /\ (forall colsData tableId,
         default [] (Dashboard.colsByTable colsData !! tableId)
         = omap Dashboard.entryOf
             (filter (fun c => Store.c_table_id c = tableId) colsData))
  /\ (forall c,
         Analytics.bucketOf c
         = if negb (String.eqb (Store.c_type c) "currency") then None
           else if JsString.includes "total" (JsString.toLowerCase (Store.c_name c))
                then None
                else if JsString.includes "expense" (JsString.toLowerCase (Store.c_name c))
                        || JsString.includes "cost" (JsString.toLowerCase (Store.c_name c))
                     then Some expense
                     else Some revenue)
  /\ (forall columns rows,
         let sums := fold_left (Analytics.addRow columns) rows
                       (PrimFloat.zero, PrimFloat.zero) in
         Analytics.sum_revenue (Analytics.moneySummary columns rows) = fst sums
         /\ Analytics.sum_expense (Analytics.moneySummary columns rows) = snd sums).
Proof.
  split; [exact entryOf_claimed |]. split; [reflexivity |]. split; [reflexivity |].
  split; [exact colsByTable_entries |]. split.
  - intros c. unfold Analytics.bucketOf, Analytics.bucketOfName.
    now destruct (String.eqb (Store.c_type c) "currency").
  - intros columns rows. cbv zeta. unfold Analytics.moneySummary.
    assert (Hfold : forall acc,
      fold_left
        (fun acc r =>
           fold_left
             (fun '(rev, exp) c =>
                let value :=
                  Analytics.toNumberSafe (JsValue.getOptional (Store.row_data r) (Store.c_name c)) in
                match Analytics.bucketOfName (Store.c_name c) with
                | None => (rev, exp)
                | Some expense => (rev, PrimFloat.add exp value)
                | Some revenue => (PrimFloat.add rev value, exp)
                end)
             (List.filter
                (fun c => String.eqb (Store.c_table_id c) (Store.r_table_id r))
                (Analytics.currencyCols columns))
             acc)
        rows acc
      = fold_left (Analytics.addRow columns) rows acc).
    { induction rows as [| r rows IH]; intros acc; [reflexivity |].
      simpl. rewrite moneySummary_addRow. apply IH. }
    rewrite Hfold.
    now destruct (fold_left (Analytics.addRow columns) rows
                    (PrimFloat.zero, PrimFloat.zero)).
Qed.

(** C4, as stated, fails on the analytics page: the currency column Balance
    matches neither pattern, yet its values are added to revenue; the number
    column "Amount" and the currency column "Tax" are claimed revenue and
    expense, and the page leaves out the first and adds the second to
    revenue. *)
Lemma analytics_bucket_counterexample :
  claimedBucket Dashboard.amountNameRegex Dashboard.expenseNameRegex
    (Store.c_type Examples.balanceColumn) (Store.c_name Examples.balanceColumn) = None
  /\ Analytics.bucketOf Examples.balanceColumn = Some revenue
  /\ Analytics.sum_revenue
       (@Analytics.moneySummary plainHost [Examples.balanceColumn] [Examples.accountRow])
     = 500%float
  /\ claimedBucket Dashboard.amountNameRegex Dashboard.expenseNameRegex "number" "Amount"
     = Some revenue
  /\ Analytics.bucketOf
       {| Store.c_id := "c1"; Store.c_table_id := "t1"; Store.c_name := "Amount";
          Store.c_type := "number"; Store.c_created_at := "1" |} = None
  /\ claimedBucket Dashboard.amountNameRegex Dashboard.expenseNameRegex "currency" "Tax"
     = Some expense
  /\ Analytics.bucketOf
       {| Store.c_id := "c3"; Store.c_table_id := "t1"; Store.c_name := "Tax";
          Store.c_type := "currency"; Store.c_created_at := "1" |} = Some revenue.
Proof. vm_compute. repeat split. Qed.

(** ** Numeric coercion *)

Section Coercion.

Lemma finite_or_zero (x : float) :
  JsNumber.isFinite (if JsNumber.isFinite x then x else PrimFloat.zero) = true.
Proof. destruct (JsNumber.isFinite x) eqn:Hx; [exact Hx | reflexivity]. Qed.

End Coercion.

(** C3, on the code.  Each [toNumberSafe] is total and gives a finite number:
    zero for [null], [undefined] and the empty string, a finite number itself,
    zero for a number that is not finite, and for a string the number it reads
    as when that is finite, zero otherwise.  The dashboard's removes the rupee
    sign, commas and white space before it reads the string: "₹1,234" is 1234.
    The one of the tables page removes commas only: "₹1,234" is 0. *)
Theorem table_coercion_keeps_rupee_sign :
  (forall v, JsNumber.isFinite (TablesPage.toNumberSafe v) = true
             /\ JsNumber.isFinite (Dashboard.toNumberSafe v) = true)
  /\ (TablesPage.toNumberSafe JNull = PrimFloat.zero
      /\ TablesPage.toNumberSafe JUndefined = PrimFloat.zero
      /\ TablesPage.toNumberSafe (JStr "") = PrimFloat.zero
      /\ Dashboard.toNumberSafe JNull = PrimFloat.zero
      /\ Dashboard.toNumberSafe JUndefined = PrimFloat.zero
      /\ Dashboard.toNumberSafe (JStr "") = PrimFloat.zero)
  /\ (forall x,
         TablesPage.toNumberSafe (JNum x)
         = (if JsNumber.isFinite x then x else PrimFloat.zero)
         /\ Dashboard.toNumberSafe (JNum x)
            = (if JsNumber.isFinite x then x else PrimFloat.zero))
  /\ (forall s,
         s <> "" ->
         Dashboard.toNumberSafe (JStr s)
         = (let n := JsNumber.ofString (JsString.removeGlyphs s) in
            if JsNumber.isFinite n then n else PrimFloat.zero)
         /\ TablesPage.toNumberSafe (JStr s)
            = (let n := JsNumber.ofString (JsString.removeCommas s) in
               if JsNumber.isFinite n then n else PrimFloat.zero))
  /\ JsString.removeGlyphs "₹1,234" = "1234"
  /\ Dashboard.toNumberSafe (JStr "₹1,234") = 1234%float
  /\ JsString.removeCommas "₹1,234" = "₹1234"
  /\ TablesPage.toNumberSafe (JStr "₹1,234") = PrimFloat.zero
  /\ TablesPage.toNumberSafe (JStr "1,234") = 1234%float.
Proof.
  split; [| split; [| split; [| split]]].
  - intros v. split; destruct v as [| | x | [| a s] | t]; simpl;
      try reflexivity; apply finite_or_zero.
  - repeat split.
  - intros x. split; reflexivity.
  - intros s Hs. destruct s as [| a s]; [contradiction |]. split; reflexivity.
  - vm_compute. repeat split.
Qed.

(** * The rest of the pages *)

(** ** Trimming twice *)

Section Trimming.

Import JsString.

Lemma ws_prefix_app (s s' w : string) :
  ws_prefix s = Some s' -> ws_prefix (s ++ w) = Some (s' ++ w).
Proof.
  unfold ws_prefix.
  destruct s as [| a [| b [| c s3]]]; try discriminate;
    rewrite ?append_cons;
    repeat match goal with
           | |- context [if ?b then _ else _] => destruct b
           end;
    intros Hs; inversion Hs; subst; try reflexivity; try discriminate.
Qed.

Lemma ws_prefix_shorter (s s' : string) :
  ws_prefix s = Some s' -> (String.length s' < String.length s)%nat.
Proof.
  unfold ws_prefix.
  destruct s as [| a [| b [| c s3]]]; try discriminate;
    repeat match goal with
           | |- context [if ?b then _ else _] => destruct b
           end;
    intros Hs; inversion Hs; subst; simpl; lia.
Qed.

Lemma trimStart_fuel_done (n : nat) (s : string) :
  (String.length s <= n)%nat -> ws_prefix (trimStart_fuel n s) = None.
Proof.
  revert s. induction n as [| n IH]; intros s Hn; simpl.
  - destruct s; [reflexivity | simpl in Hn; lia].
  - destruct (ws_prefix s) as [s' |] eqn:Hs; [| exact Hs].
    apply IH. apply ws_prefix_shorter in Hs. lia.
Qed.

Lemma trimStart_fuel_none (n : nat) (s : string) :
  ws_prefix s = None -> trimStart_fuel n s = s.
Proof. intros Hs. destruct n; simpl; [reflexivity | now rewrite Hs]. Qed.

(** More fuel than the length changes nothing. *)
Lemma trimStart_fuel_agree (n : nat) :
  forall s m,
    (String.length s <= n)%nat -> (String.length s <= m)%nat ->
    trimStart_fuel n s = trimStart_fuel m s.
Proof.
  induction n as [| n IH]; intros s m Hn Hm.
  - destruct s; [now destruct m | simpl in Hn; lia].
  - simpl. destruct (ws_prefix s) as [s' |] eqn:Hs.
    + pose proof (ws_prefix_shorter _ _ Hs) as Hlt.
      destruct m as [| m]; [lia |]. simpl. rewrite Hs. apply IH; lia.
    + now rewrite trimStart_fuel_none.
Qed.

Lemma trimStart_fuel_enough (n : nat) (s : string) :
  (String.length s <= n)%nat -> trimStart_fuel n s = trimStart s.
Proof. intros Hn. apply trimStart_fuel_agree; [exact Hn | lia]. Qed.

Lemma trimStart_step (s s' : string) :
  ws_prefix s = Some s' -> trimStart s = trimStart s'.
Proof.
  intros Hs. unfold trimStart at 1.
  pose proof (ws_prefix_shorter _ _ Hs) as Hlt.
  destruct (String.length s) as [| m] eqn:Hm; [lia |].
  simpl. rewrite Hs. apply trimStart_fuel_enough. lia.
Qed.

Lemma trimStart_none (s : string) : ws_prefix s = None -> trimStart s = s.
Proof. apply trimStart_fuel_none. Qed.

Lemma trimStart_done (s : string) : ws_prefix (trimStart s) = None.
Proof. apply trimStart_fuel_done. lia. Qed.

(** A string of white space followed by [w] is trimmed as [w] is. *)
Lemma trimStart_blank_app (n : nat) (s w : string) :
  (String.length s <= n)%nat -> blank s = true -> trimStart (s ++ w) = trimStart w.
Proof.
  revert s. induction n as [| n IH]; intros s Hn Hs.
  - destruct s; [reflexivity | simpl in Hn; lia].
  - destruct (ws_prefix s) as [s' |] eqn:Hp.
    + rewrite (trimStart_step _ _ (ws_prefix_app _ _ w Hp)).
      apply IH.
      * apply ws_prefix_shorter in Hp. lia.
      * unfold blank in *. now rewrite <- (trimStart_step _ _ Hp).
    + unfold blank in Hs. rewrite (trimStart_none _ Hp) in Hs.
      destruct s; [reflexivity | discriminate].
Qed.

Lemma blank_app (s w : string) :
  blank s = true -> blank w = true -> blank (s ++ w) = true.
Proof.
  intros Hs Hw. unfold blank.
  rewrite (trimStart_blank_app (String.length s)) by (auto; lia). exact Hw.
Qed.

Lemma trimEnd_rest (s : string) :
  exists w, s = trimEnd s ++ w /\ blank w = true.
Proof.
  induction s as [| a s IH].
  - exists "". split; reflexivity.
  - simpl. destruct (blank (String a s)) eqn:Hb.
    + exists (String a s). split; [reflexivity | exact Hb].
    + destruct IH as (w & Hw & Hbw). exists w. split; [| exact Hbw].
      rewrite append_cons. now f_equal.
Qed.

Lemma trimEnd_trimEnd (s : string) : trimEnd (trimEnd s) = trimEnd s.
Proof.
  induction s as [| a s IH]; [reflexivity |].
  simpl. destruct (blank (String a s)) eqn:Hb; [reflexivity |].
  simpl. destruct (blank (String a (trimEnd s))) eqn:Hb'.
  - exfalso. destruct (trimEnd_rest s) as (w & Hw & Hbw).
    pose proof (blank_app _ _ Hb' Hbw) as Hall.
    rewrite append_cons, <- Hw in Hall. congruence.
  - now rewrite IH.
Qed.

Lemma ws_prefix_trimEnd (s : string) :
  ws_prefix s = None -> ws_prefix (trimEnd s) = None.
Proof.
  intros Hs. destruct (ws_prefix (trimEnd s)) as [s' |] eqn:Hp; [| reflexivity].
  destruct (trimEnd_rest s) as (w & Hw & _).
  apply (ws_prefix_app _ _ w) in Hp. rewrite <- Hw in Hp. congruence.
Qed.

(** [s.trim().trim()] is [s.trim()]. *)
Lemma trim_trim (s : string) : trim (trim s) = trim s.
Proof.
  unfold trim.
  rewrite (trimStart_none (trimEnd (trimStart s)))
    by apply ws_prefix_trimEnd, trimStart_done.
  apply trimEnd_trimEnd.
Qed.

End Trimming.

(** ** Deleting a column, adding and deleting a row *)

Section RowHandlers.

Import Store Mutation TablesPage TableHandlers.

Lemma handleDeleteColumn_run (col : DbColumn) (p : Page) (sel : DbTable) (d : Db)
    (cs : list Query) (ts : list Toast) :
  selectedTable p = Some sel ->
  let d1 := withColumns (filter (fun c => c_id c <> c_id col) (user_columns d)) d in
  let d2 := withRows (applyUpdates (withoutKey (c_name col)) (rows p) (user_rows d)) d1 in
  exists cs',
    handleDeleteColumn col p {| db := d; faults := []; calls := cs; toasts := ts |}
    = (setRows (loadedRows (t_id sel) d2) (setColumns (loadedColumns (t_id sel) d2) p),
       {| db := d2; faults := []; calls := cs';
          toasts := (ts ++ [ToastSuccess "Column deleted"])%list |}).
Proof.
  intros Hsel. cbv zeta. unfold handleDeleteColumn. rewrite Hsel.
  rewrite (forEach_ext _ (updateOf (withoutKey (c_name col))))
    by (intros r; unfold updateOf, withoutKey;
        now destruct (JsValue.has (rd r) (c_name col))).
  unfold bind. unfold request at 1. simpl.
  rewrite forEach_updates. eexists. reflexivity.
Qed.

(** A first call that fails: what [request] gives. *)
Lemma request_fails (c : Call) (w : World) (m : string) :
  fails w 0 m ->
  request c w
  = (Error m,
     {| db := db w; faults := tail (faults w); calls := calls w; toasts := toasts w |}).
Proof.
  unfold fails, request. destruct (faults w) as [| [m' |] fs]; try discriminate.
  simpl. now intros [= ->].
Qed.

Lemma request_succeeds (c : Call) (w : World) :
  succeeds w 0 ->
  request c w
  = (Ok (fst (run c (db w))),
     {| db := snd (run c (db w)); faults := tail (faults w); calls := calls w;
        toasts := toasts w |}).
Proof.
  unfold succeeds, request. intros Hok.
  destruct (faults w) as [| [m' |] fs]; simpl.
  - now destruct (run c (db w)).
  - exfalso. now apply (Hok m').
  - now destruct (run c (db w)).
Qed.

Lemma supabase_fails (q : Query) (w : World) (m : string) :
  fails w 0 m ->
  supabase q w
  = (Error m,
     {| db := db w; faults := tail (faults w); calls := (calls w ++ [q])%list;
        toasts := toasts w |}).
Proof.
  unfold fails, supabase. destruct (faults w) as [| [m' |] fs]; try discriminate.
  simpl. now intros [= ->].
Qed.

Lemma supabase_succeeds (q : Query) (w : World) :
  succeeds w 0 ->
  supabase q w
  = (Ok (fst (Store.run q (db w))),
     {| db := snd (Store.run q (db w)); faults := tail (faults w);
        calls := (calls w ++ [q])%list; toasts := toasts w |}).
Proof.
  unfold succeeds, supabase. intros Hok.
  destruct (faults w) as [| [m' |] fs]; simpl.
  - now destruct (Store.run q (db w)).
  - exfalso. now apply (Hok m').
  - now destruct (Store.run q (db w)).
Qed.

Lemma loadedRows_NoDup (tableId : string) (d : Db) :
  uniqueRowIds d -> NoDup (map r_id (loadedRows tableId d)).
Proof.
  intros Hnd. unfold loadedRows. rewrite map_map. simpl.
  apply (NoDup_fmap_2_strong r_id).
  - intros x y Hx Hy. apply list_elem_of_filter in Hx as [_ Hx].
    apply list_elem_of_filter in Hy as [_ Hy].
    now apply (NoDup_map_inj r_id (user_rows d)).
  - apply NoDup_filter. eapply NoDup_fmap_1. exact Hnd.
Qed.

Lemma has_false (data : gmap string JsVal) (k : string) :
  JsValue.has data k = false -> data !! k = None.
Proof.
  unfold JsValue.has. intros Hk. apply orb_false_elim in Hk as [Hk _].
  apply bool_decide_eq_false in Hk. destruct (data !! k); [| reflexivity].
  exfalso. apply Hk. eauto.
Qed.

Lemma emptyRow_lookup (cols : list DbColumn) (k : string) :
  emptyRow cols !! k
  = if decide (k ∈ map c_name cols /\ k <> "__proto__") then Some (JStr "") else None.
Proof.
  unfold emptyRow.
  assert (Hgen : forall acc : gmap string JsVal,
    acc !! "__proto__" = None ->
    fold_left (fun empty c => JsValue.assignPrimitive (c_name c) (JStr "") empty)
              cols acc !! k
    = if decide (k ∈ map c_name cols /\ k <> "__proto__") then Some (JStr "")
      else acc !! k).
  { induction cols as [| c cols IH]; intros acc Hacc; simpl.
    - destruct (decide (k ∈ [] /\ k <> "__proto__")) as [[Hin _] |];
        [inversion Hin | reflexivity].
    - rewrite IH by (apply assignPrimitive_proto; exact Hacc).
      destruct (decide (k = "__proto__")) as [-> | Hk].
      + rewrite !decide_False by tauto. rewrite Hacc. now apply assignPrimitive_proto.
      + destruct (decide (k ∈ map c_name cols /\ k <> "__proto__")) as [[Hin _] | Hout].
        * rewrite decide_True; [reflexivity |]. split; [now right | exact Hk].
        * destruct (decide (k = c_name c)) as [-> | Hne].
          -- rewrite decide_True by (split; [left | exact Hk]).
             rewrite assignPrimitive_plain by exact Hk. apply lookup_insert_eq.
          -- rewrite decide_False.
             ++ apply assignPrimitive_other. congruence.
             ++ intros [Hin _]. apply elem_of_cons in Hin as [? | ?];
                  [congruence | apply Hout; now split]. }
  rewrite Hgen by apply lookup_empty.
  destruct (decide (k ∈ map c_name cols /\ k <> "__proto__")); [reflexivity |].
  apply lookup_empty.
Qed.

End RowHandlers.

(** When the column is deleted (table selected, no call failing, the page
    showing the stored rows), the column's record is gone and every row is shown
    again without the key of the column's name, its other cells as they were;
    this holds for the name, so a second column of the same name loses its
    values too.  When the first call fails nothing is deleted and the message is
    shown. *)
Theorem delete_column_clears_key
    (col : Store.DbColumn) (p : TablesPage.Page) (w : Store.World) (sel : Store.DbTable) :
  TablesPage.selectedTable p = Some sel ->
  let p' := fst (TableHandlers.handleDeleteColumn col p w) in
  let w' := snd (TableHandlers.handleDeleteColumn col p w) in
  (forall m,
      TablesPage.fails w 0 m ->
      p' = p /\ Store.db w' = Store.db w
      /\ Store.toasts w' = (Store.toasts w ++ [Store.ToastError m])%list)
  /\ (Store.faults w = [] ->
      TablesPage.rows p = TablesPage.loadedRows (Store.t_id sel) (Store.db w) ->
      TablesPage.uniqueRowIds (Store.db w) ->
      Store.user_columns (Store.db w')
      = filter (fun c => Store.c_id c <> Store.c_id col) (Store.user_columns (Store.db w))
      /\ TablesPage.columns p'
         = filter (fun c => Store.c_id c <> Store.c_id col) (TablesPage.loadedColumns (Store.t_id sel) (Store.db w))
      /\ TablesPage.rows p' = TablesPage.loadedRows (Store.t_id sel) (Store.db w')
      /\ TablesPage.rows p'
         = map (fun r => Store.with_row_data r (delete (Store.c_name col) (Store.rd r)))
               (TablesPage.rows p)
      /\ (forall r', r' ∈ TablesPage.rows p' -> Store.rd r' !! Store.c_name col = None)
      /\ Store.toasts w'
         = (Store.toasts w ++ [Store.ToastSuccess "Column deleted"])%list).
Proof.
  intros Hsel p' w'. split.
  - intros m Hm. subst p' w'. unfold TableHandlers.handleDeleteColumn.
    rewrite Hsel. unfold Store.bind. rewrite (request_fails _ _ _ Hm). simpl.
    repeat split.
  - intros Hfaults Hrows Hnd.
    destruct w as [d fs cs ts]. simpl in Hfaults, Hrows, Hnd. subst fs.
    destruct (handleDeleteColumn_run col p sel d cs ts Hsel) as [cs' Hrun].
    subst p' w'. rewrite Hrun. clear Hrun. simpl.
    set (upd := TableHandlers.withoutKey (Store.c_name col)).
    assert (Hrows' :
      TablesPage.loadedRows (Store.t_id sel)
        (Store.withRows
           (TablesPage.applyUpdates upd (TablesPage.rows p) (Store.user_rows d))
           (Store.withColumns
              (filter (fun c => Store.c_id c <> Store.c_id col) (Store.user_columns d)) d))
      = map (fun r => Store.with_row_data r (delete (Store.c_name col) (Store.rd r)))
            (TablesPage.rows p)).
    { rewrite Hrows.
      change (TablesPage.loadedRows (Store.t_id sel)
                (Store.withRows
                   (TablesPage.applyUpdates upd
                      (TablesPage.loadedRows (Store.t_id sel) d) (Store.user_rows d)) d)
              = map (fun r => Store.with_row_data r
                                (delete (Store.c_name col) (Store.rd r)))
                    (TablesPage.loadedRows (Store.t_id sel) d)).
      rewrite (reload_after_updates upd (Store.t_id sel) d Hnd).
      apply map_ext_in. intros r Hr. apply list_elem_of_In in Hr.
      unfold upd, TableHandlers.withoutKey.
      destruct (JsValue.has (Store.rd r) (Store.c_name col)) eqn:Hk; [reflexivity |].
      rewrite (delete_id _ _ (has_false _ _ Hk)). symmetry. eapply loadedRows_normal. exact Hr. }
    rewrite Hrows'.
    split; [reflexivity |]. split.
    { unfold TablesPage.loadedColumns. simpl.
      rewrite !list_filter_filter. apply list_filter_iff. intros c. tauto. }
    split; [reflexivity |]. split; [reflexivity |]. split; [| reflexivity].
    intros r' Hr'. apply list_elem_of_fmap in Hr' as (r & -> & _). simpl.
    apply lookup_delete_eq.
Qed.

(** [delete_column_clears_key] on the Sales table, whose column Amount is
    deleted. *)
Lemma delete_column_clears_key_witness :
  let p := Examples.salesPage in
  let w := Examples.calm Examples.salesDb in
  TablesPage.selectedTable p = Some Examples.salesTable
  /\ Store.faults w = []
  /\ TablesPage.rows p = TablesPage.loadedRows "t1" (Store.db w)
  /\ TablesPage.uniqueRowIds (Store.db w)
  /\ map (fun r => Store.rd r !! "Amount")
         (TablesPage.rows (fst (TableHandlers.handleDeleteColumn Examples.amountColumn p w)))
     = [None; None]
  /\ map (fun r => Store.rd r !! "Item")
         (TablesPage.rows (fst (TableHandlers.handleDeleteColumn Examples.amountColumn p w)))
     = [Some (JStr "Pen"); Some (JStr "Book")].
Proof.
  intros p w.
  assert (Hsel : TablesPage.selectedTable p = Some Examples.salesTable) by reflexivity.
  assert (Hfaults : Store.faults w = []) by reflexivity.
  assert (Hrows : TablesPage.rows p = TablesPage.loadedRows "t1" (Store.db w))
    by reflexivity.
  assert (Hnd : TablesPage.uniqueRowIds (Store.db w)).
  { unfold TablesPage.uniqueRowIds. simpl.
    apply NoDup_cons. split; [| apply NoDup_singleton].
    intros Hin. apply list_elem_of_singleton in Hin. discriminate Hin. }
  repeat (split; [assumption |]).
  destruct (delete_column_clears_key Examples.amountColumn p w Examples.salesTable Hsel)
    as [_ Hok].
  destruct (Hok Hfaults Hrows Hnd) as (_ & _ & _ & Hmap & _).
  rewrite Hmap. vm_compute. split; reflexivity.
Defined.

(** A row is added only to a table that has columns; the new row comes last
    and holds the empty string under the name of every column shown but
    [__proto__], which names no key, and nothing else.  Without columns no call is made; then, and when the call
    fails, the store is left as it was and the reason is shown. *)
Theorem add_row_appends_blank_row
    (p : TablesPage.Page) (w : Store.World) (sel : Store.DbTable) :
  TablesPage.selectedTable p = Some sel ->
  let p' := fst (TableHandlers.handleAddRow p w) in
  let w' := snd (TableHandlers.handleAddRow p w) in
  (TablesPage.columns p = [] ->
   p' = p /\ Store.db w' = Store.db w /\ Store.faults w' = Store.faults w
   /\ Store.toasts w' = (Store.toasts w ++ [Store.ToastError "Add columns first"])%list)
  /\ (forall m,
         TablesPage.columns p <> [] -> TablesPage.fails w 0 m ->
         p' = p /\ Store.db w' = Store.db w
         /\ Store.toasts w' = (Store.toasts w ++ [Store.ToastError m])%list)
  /\ (TablesPage.columns p <> [] -> Store.faults w = [] ->
      exists r,
        Store.user_rows (Store.db w') = (Store.user_rows (Store.db w) ++ [r])%list
        /\ Store.r_table_id r = Store.t_id sel
        /\ (forall k,
               Store.rd r !! k
               = if decide (k ∈ map Store.c_name (TablesPage.columns p)
                            /\ k <> "__proto__")
                 then Some (JStr "") else None)
        /\ TablesPage.rows p'
           = (TablesPage.loadedRows (Store.t_id sel) (Store.db w) ++ [r])%list
        /\ TablesPage.columns p'
           = TablesPage.loadedColumns (Store.t_id sel) (Store.db w)
        /\ Store.toasts w' = Store.toasts w).
Proof.
  intros Hsel p' w'. subst p' w'. unfold TableHandlers.handleAddRow. rewrite Hsel.
  split; [| split].
  - intros ->. simpl. repeat split.
  - intros m Hcols Hm. destruct (TablesPage.columns p) as [| c cols]; [contradiction |].
    unfold Store.bind. rewrite (request_fails _ _ _ Hm). simpl. repeat split.
  - intros Hcols Hfaults.
    destruct (TablesPage.columns p) as [| c cols] eqn:Hc; [contradiction |].
    destruct w as [d fs cs ts]. simpl in Hfaults. subst fs.
    unfold Store.bind, Mutation.request, TablesPage.loadTableData, Store.bind,
      Store.supabase. simpl.
    eexists. split; [reflexivity |]. split; [reflexivity |].
    split.
    { intros k. apply (emptyRow_lookup (c :: cols)). }
    split; [| split; reflexivity].
    rewrite filter_app, map_app. f_equal.
    rewrite filter_cons. simpl.
    now destruct (decide (Store.t_id sel = Store.t_id sel)).
Qed.

(** [add_row_appends_blank_row] on the Sales table: the third row has the
    keys Amount and Item, both empty. *)
Lemma add_row_appends_blank_row_witness :
  let p := Examples.salesPage in
  let w := Examples.calm Examples.salesDb in
  TablesPage.selectedTable p = Some Examples.salesTable
  /\ TablesPage.columns p <> []
  /\ Store.faults w = []
  /\ exists r,
       TablesPage.rows (fst (TableHandlers.handleAddRow p w))
       = [Examples.penRow; Examples.bookRow; r]
       /\ Store.rd r !! "Amount" = Some (JStr "")
       /\ Store.rd r !! "Item" = Some (JStr "")
       /\ Store.rd r !! "Paid" = None.
Proof.
  intros p w.
  assert (Hsel : TablesPage.selectedTable p = Some Examples.salesTable) by reflexivity.
  assert (Hcols : TablesPage.columns p <> []) by discriminate.
  assert (Hfaults : Store.faults w = []) by reflexivity.
  repeat (split; [assumption |]).
  destruct (add_row_appends_blank_row p w Examples.salesTable Hsel) as (_ & _ & Hok).
  destruct (Hok Hcols Hfaults) as (r & _ & _ & Hkeys & Hrows & _).
  exists r. split; [exact Hrows |].
  rewrite !Hkeys. repeat split.
Defined.

(** Deleting a row keeps the page and the store in step without a reload:
    when the page shows the rows of a table as stored, it still does after
    the handler, whether the call fails (nothing changes, the message is
    shown) or succeeds (the row is gone from both, the others keep their
    order). *)
Theorem delete_row_keeps_page_in_step
    (rowId tableId : string) (p : TablesPage.Page) (w : Store.World) :
  TablesPage.rows p = TablesPage.loadedRows tableId (Store.db w) ->
  let p' := fst (TableHandlers.handleDeleteRow rowId p w) in
  let w' := snd (TableHandlers.handleDeleteRow rowId p w) in
  TablesPage.rows p' = TablesPage.loadedRows tableId (Store.db w')
  /\ (forall m,
         TablesPage.fails w 0 m ->
         p' = p /\ Store.db w' = Store.db w
         /\ Store.toasts w' = (Store.toasts w ++ [Store.ToastError m])%list)
  /\ (TablesPage.succeeds w 0 ->
      TablesPage.rows p' = filter (fun r => Store.r_id r <> rowId) (TablesPage.rows p)
      /\ Store.user_rows (Store.db w')
         = filter (fun r => Store.r_id r <> rowId) (Store.user_rows (Store.db w))
      /\ TablesPage.columns p' = TablesPage.columns p
      /\ Store.toasts w' = (Store.toasts w ++ [Store.ToastSuccess "Row deleted"])%list).
Proof.
  intros Hrows p' w'. subst p' w'. unfold TableHandlers.handleDeleteRow, Store.bind.
  assert (Hfilter :
    filter (fun r => Store.r_id r <> rowId) (TablesPage.loadedRows tableId (Store.db w))
    = TablesPage.loadedRows tableId
        (Store.withRows
           (filter (fun r => Store.r_id r <> rowId) (Store.user_rows (Store.db w)))
           (Store.db w))).
  { unfold TablesPage.loadedRows. simpl.
    induction (Store.user_rows (Store.db w)) as [| r rs IH]; [reflexivity |].
    rewrite !filter_cons.
    destruct (decide (Store.r_table_id r = tableId)) as [Ht | Ht];
      destruct (decide (Store.r_id r <> rowId)) as [Hi | Hi]; simpl;
      rewrite ?filter_cons; simpl.
    - destruct (decide (Store.r_id r <> rowId)); [| contradiction].
      destruct (decide (Store.r_table_id r = tableId)); [| contradiction].
      simpl. now rewrite IH.
    - destruct (decide (Store.r_id r <> rowId)); [contradiction |]. exact IH.
    - destruct (decide (Store.r_table_id r = tableId)); [contradiction |]. exact IH.
    - exact IH. }
  destruct (Store.faults w) as [| [m' |] fs] eqn:Hf.
  - assert (Hok : TablesPage.succeeds w 0)
      by (unfold TablesPage.succeeds; rewrite Hf; discriminate).
    rewrite (request_succeeds _ _ Hok). simpl. rewrite Hrows, Hfilter.
    split; [reflexivity |]. split; [| intros _; repeat split].
    intros m Hm. unfold TablesPage.fails in Hm. rewrite Hf in Hm. discriminate.
  - assert (Hbad : TablesPage.fails w 0 m')
      by (unfold TablesPage.fails; now rewrite Hf).
    rewrite (request_fails _ _ _ Hbad). simpl.
    split; [exact Hrows |]. split.
    + intros m Hm. unfold TablesPage.fails in Hm. rewrite Hf in Hm.
      injection Hm as ->. repeat split.
    + intros Hok. exfalso. apply (Hok m'). now rewrite Hf.
  - assert (Hok : TablesPage.succeeds w 0)
      by (unfold TablesPage.succeeds; rewrite Hf; discriminate).
    rewrite (request_succeeds _ _ Hok). simpl. rewrite Hrows, Hfilter.
    split; [reflexivity |]. split; [| intros _; repeat split].
    intros m Hm. unfold TablesPage.fails in Hm. rewrite Hf in Hm. discriminate.
Qed.

(** [delete_row_keeps_page_in_step] on the Sales table, whose first row is
    deleted. *)
Lemma delete_row_keeps_page_in_step_witness :
  let p := Examples.salesPage in
  let w := Examples.calm Examples.salesDb in
  TablesPage.rows p = TablesPage.loadedRows "t1" (Store.db w)
  /\ TablesPage.rows (fst (TableHandlers.handleDeleteRow "r1" p w))
     = TablesPage.loadedRows "t1" (Store.db (snd (TableHandlers.handleDeleteRow "r1" p w)))
  /\ map Store.r_id (TablesPage.rows (fst (TableHandlers.handleDeleteRow "r1" p w)))
     = ["r2"].
Proof.
  intros p w.
  assert (Hrows : TablesPage.rows p = TablesPage.loadedRows "t1" (Store.db w))
    by reflexivity.
  split; [exact Hrows |].
  destruct (delete_row_keeps_page_in_step "r1" "t1" p w Hrows) as (Hstep & _ & _).
  split; [exact Hstep | reflexivity].
Defined.

(** ** Editing a cell *)

Section CellEditing.

Import Store TablesPage TableHandlers.

Lemma find_by_id (l : list DbRow) (r : DbRow) (rowId : string) :
  NoDup (map r_id l) -> r ∈ l -> r_id r = rowId ->
  List.find (fun r => String.eqb (r_id r) rowId) l = Some r.
Proof.
  induction l as [| x l IH]; intros Hnd Hr Hid; [inversion Hr |].
  simpl in Hnd. apply NoDup_cons in Hnd as [Hx Hnd]. simpl.
  destruct (String.eqb (r_id x) rowId) eqn:Hxid.
  - apply String.eqb_eq in Hxid.
    apply elem_of_cons in Hr as [-> | Hr]; [reflexivity |].
    exfalso. apply Hx. rewrite Hxid, <- Hid. now apply list_elem_of_fmap_2.
  - apply elem_of_cons in Hr as [-> | Hr].
    + apply String.eqb_neq in Hxid. contradiction.
    + now apply IH.
Qed.

Lemma local_withCell (rowId colName : string) (value : JsVal) (l : list DbRow) :
  map (fun r =>
         if negb (String.eqb (r_id r) rowId) then r
         else with_row_data r (<[colName := value]> (rd r))) l
  = map (withCell rowId colName value) l.
Proof.
  apply map_ext. intros r. unfold withCell.
  destruct (String.eqb (r_id r) rowId) eqn:Hid; simpl.
  - apply String.eqb_eq in Hid. now destruct (decide (r_id r = rowId)).
  - apply String.eqb_neq in Hid. now destruct (decide (r_id r = rowId)).
Qed.

(** The stored rows of the table after the update that [saveCell] asks
    for, when the page shows them. *)
Lemma reload_after_cell (tableId rowId colName : string) (value : JsVal) (d : Db) :
  uniqueRowIds d ->
  let rd0 :=
    match List.find (fun r => String.eqb (r_id r) rowId) (loadedRows tableId d) with
    | Some r => rd r
    | None => ∅
    end in
  loadedRows tableId
    (withRows (map (updateRow rowId (<[colName := value]> rd0)) (user_rows d)) d)
  = map (withCell rowId colName value) (loadedRows tableId d).
Proof.
  intros Hnd rd0. unfold loadedRows at 1. simpl.
  rewrite filter_map_table by (intros r; apply updateRow_table).
  unfold loadedRows at 1. rewrite !map_map. apply map_ext_in. intros r0 Hr0.
  apply list_elem_of_In, list_elem_of_filter in Hr0 as [Htable Hr0].
  unfold updateRow, withCell. simpl.
  destruct (decide (r_id r0 = rowId)) as [Hid | Hid]; [| reflexivity].
  assert (Hfind : List.find (fun r => String.eqb (r_id r) rowId) (loadedRows tableId d)
                  = Some (with_row_data r0 (rd r0))).
  { apply find_by_id; [now apply loadedRows_NoDup | | exact Hid].
    apply (list_elem_of_fmap_2 (fun r => with_row_data r (rd r))).
    now apply list_elem_of_filter. }
  subst rd0. rewrite Hfind. reflexivity.
Qed.

End CellEditing.

(** Saving the cell being edited writes the same value to the page and to
    the store: the text itself in a text column (or one of an unknown type),
    the empty string or a finite number in a number or currency column.  The
    page is updated first and is not put back when the call fails: the store
    then keeps the old value and the message is shown.  When the call succeeds
    and the page showed the stored rows, it shows them still.  Other rows and
    other cells are not touched, and the editor is closed in both cases. *)
Theorem save_cell_writes_page_and_store `{Host}
    (e : TableHandlers.Editor) (w : Store.World) (tableId rowId colName : string) :
  TableHandlers.editingCell e = Some (rowId, colName) ->
  TablesPage.rows (TableHandlers.page e) = TablesPage.loadedRows tableId (Store.db w) ->
  TablesPage.uniqueRowIds (Store.db w) ->
  let type := TablesPage.typeOfColumn (TablesPage.columns (TableHandlers.page e)) colName in
  let value := TableHandlers.cellValue type (TableHandlers.editValue e) in
  let e' := fst (TableHandlers.saveCell e w) in
  let w' := snd (TableHandlers.saveCell e w) in
  TablesPage.rows (TableHandlers.page e')
  = map (TableHandlers.withCell rowId colName value) (TablesPage.rows (TableHandlers.page e))
  /\ TableHandlers.editingCell e' = None
  /\ TableHandlers.editValue e' = ""
  /\ (TablesPage.succeeds w 0 ->
      TablesPage.rows (TableHandlers.page e')
      = TablesPage.loadedRows tableId (Store.db w')
      /\ Store.toasts w' = Store.toasts w)
  /\ (forall m,
         TablesPage.fails w 0 m ->
         Store.db w' = Store.db w
         /\ Store.toasts w' = (Store.toasts w ++ [Store.ToastError m])%list)
  /\ (type = "number" \/ type = "currency" ->
      (TableHandlers.editValue e = "" /\ value = JStr "")
      \/ (TableHandlers.editValue e <> ""
          /\ value = JNum (TablesPage.toNumberSafe (JStr (TableHandlers.editValue e)))
          /\ JsNumber.isFinite
               (TablesPage.toNumberSafe (JStr (TableHandlers.editValue e))) = true))
  /\ (type <> "number" -> type <> "currency" -> type <> "date" ->
      value = JStr (TableHandlers.editValue e)).
Proof.
  intros Hcell Hrows Hnd type value e' w'.
  assert (Hrun : forall res w1,
    Store.supabase
      (Store.UpdateRowData rowId
         (<[colName := value]>
            match List.find (fun r => String.eqb (Store.r_id r) rowId)
                            (TablesPage.rows (TableHandlers.page e)) with
            | Some r => Store.rd r
            | None => ∅
            end)) w = (res, w1) ->
    e' = TableHandlers.setEditing None ""
           (TableHandlers.setPage
              (TablesPage.setRows
                 (map (TableHandlers.withCell rowId colName value)
                      (TablesPage.rows (TableHandlers.page e)))
                 (TableHandlers.page e)) e)
    /\ w' = snd ((match res with
                  | Store.Error m => Store.toast (Store.ToastError m)
                  | Store.Ok _ => Store.ret tt
                  end) w1)).
  { intros res w1 Hcall. subst e' w'. unfold TableHandlers.saveCell.
    rewrite Hcell. unfold Store.bind. fold type. fold value. rewrite Hcall.
    rewrite local_withCell.
    destruct res; simpl; split; reflexivity. }
  split; [| split; [| split; [| split; [| split; [| split]]]]].
  - destruct (Store.supabase _ w) as [res w1] eqn:Hcall in Hrun.
    destruct (Hrun _ _ eq_refl) as [-> _]. reflexivity.
  - destruct (Store.supabase _ w) as [res w1] eqn:Hcall in Hrun.
    destruct (Hrun _ _ eq_refl) as [-> _]. reflexivity.
  - destruct (Store.supabase _ w) as [res w1] eqn:Hcall in Hrun.
    destruct (Hrun _ _ eq_refl) as [-> _]. reflexivity.
  - intros Hok.
    destruct (Hrun _ _ (supabase_succeeds _ _ Hok)) as [-> ->]. simpl.
    split; [| reflexivity].
    rewrite Hrows. symmetry. apply reload_after_cell. exact Hnd.
  - intros m Hm.
    destruct (Hrun _ _ (supabase_fails _ _ _ Hm)) as [_ ->]. simpl.
    split; reflexivity.
  - intros Htype. subst value. unfold TableHandlers.cellValue.
    assert (Hnum : String.eqb type "number" || String.eqb type "currency" = true).
    { apply orb_true_iff. rewrite !String.eqb_eq. exact Htype. }
    assert (Hdate : String.eqb type "date" = false).
    { apply String.eqb_neq. destruct Htype as [-> | ->]; discriminate. }
    rewrite Hnum, Hdate.
    destruct (TableHandlers.editValue e) as [| a s]; [left; now split |].
    right. split; [discriminate |]. split; [reflexivity |]. apply finite_or_zero.
  - intros Hn Hc Hd. subst value. unfold TableHandlers.cellValue.
    apply String.eqb_neq in Hn, Hc, Hd. now rewrite Hn, Hc, Hd.
Qed.

(** [save_cell_writes_page_and_store] on the Sales table: 1,200 typed into the
    amount of the first row is stored as the number 1200. *)
Lemma save_cell_writes_page_and_store_witness :
  let e := Scenario.editAmount in
  let w := Examples.calm Examples.salesDb in
  TableHandlers.editingCell e = Some ("r1", "Amount")
  /\ TablesPage.rows (TableHandlers.page e) = TablesPage.loadedRows "t1" (Store.db w)
  /\ TablesPage.uniqueRowIds (Store.db w)
  /\ map (fun r => Store.rd r !! "Amount")
         (TablesPage.rows
            (TableHandlers.page (fst (@TableHandlers.saveCell plainHost e w))))
     = [Some (JNum 1200); Some (JStr "250.50")].
Proof.
  intros e w.
  assert (Hcell : TableHandlers.editingCell e = Some ("r1", "Amount")) by reflexivity.
  assert (Hrows : TablesPage.rows (TableHandlers.page e)
                  = TablesPage.loadedRows "t1" (Store.db w)) by reflexivity.
  assert (Hnd : TablesPage.uniqueRowIds (Store.db w)).
  { unfold TablesPage.uniqueRowIds. simpl.
    apply NoDup_cons. split; [| apply NoDup_singleton].
    intros Hin. apply list_elem_of_singleton in Hin. discriminate Hin. }
  repeat (split; [assumption |]).
  destruct (@save_cell_writes_page_and_store plainHost e w "t1" "r1" "Amount"
              Hcell Hrows Hnd) as (Hpage & _).
  rewrite Hpage. vm_compute. reflexivity.
Defined.

(** ** Moving from cell to cell *)

Section Navigation.

Import Store TablesPage TableHandlers.

Local Open Scope Z_scope.

Lemma findIndexFrom_spec {A} (f : A -> bool) (l : list A) (i : Z) :
  match list_find (fun x => f x = true) l with
  | Some (n, _) => findIndexFrom f l i = i + Z.of_nat n
  | None => findIndexFrom f l i = -1
  end.
Proof.
  revert i. induction l as [| x l IH]; intros i; [reflexivity |].
  simpl. unfold list_find; simpl. fold (list_find (fun x => f x = true) l).
  destruct (decide (f x = true)) as [Hx | Hx].
  - rewrite Hx. lia.
  - apply not_true_is_false in Hx. rewrite Hx. specialize (IH (i + 1)).
    destruct (list_find (fun x => f x = true) l) as [[n y] |]; simpl; [lia | exact IH].
Qed.

Lemma findIndex_found {A} (f : A -> bool) (l : list A) :
  0 <= findIndex f l ->
  exists x, l !! Z.to_nat (findIndex f l) = Some x /\ f x = true
            /\ findIndex f l < Z.of_nat (length l).
Proof.
  unfold findIndex. pose proof (findIndexFrom_spec f l 0) as Hspec.
  destruct (list_find (fun x => f x = true) l) as [[n y] |] eqn:Hfind.
  - intros _. rewrite Hspec. apply list_find_Some in Hfind as (Hn & Hy & _).
    exists y. rewrite Z.add_0_l, Nat2Z.id. split; [exact Hn |]. split; [exact Hy |].
    apply lookup_lt_Some in Hn. lia.
  - rewrite Hspec. lia.
Qed.

Lemma findIndex_missing {A} (f : A -> bool) (l : list A) :
  findIndex f l < 0 <-> forall x, x ∈ l -> f x = false.
Proof.
  unfold findIndex. pose proof (findIndexFrom_spec f l 0) as Hspec.
  destruct (list_find (fun x => f x = true) l) as [[n y] |] eqn:Hfind.
  - rewrite Hspec. apply list_find_Some in Hfind as (Hn & Hy & _). split; [lia |].
    intros Hall. apply list_elem_of_lookup_2 in Hn. rewrite (Hall y Hn) in Hy.
    discriminate.
  - rewrite Hspec. split; [| lia]. intros _ x Hx.
    apply list_find_None in Hfind. rewrite Forall_forall in Hfind.
    apply not_true_is_false. now apply Hfind.
Qed.

Lemma at_index_in_range {A} (l : list A) (i : Z) :
  0 <= i < Z.of_nat (length l) -> exists x, at_index l i = Some x /\ x ∈ l.
Proof.
  intros Hi. unfold at_index.
  destruct (i <? 0) eqn:Hneg; [lia |].
  destruct (lookup_lt_is_Some_2 l (Z.to_nat i)) as [x Hx]; [lia |].
  exists x. split; [exact Hx |]. eapply list_elem_of_lookup_2. exact Hx.
Qed.

End Navigation.

(** From a cell of the view, a move always lands on a cell of the view: the
    index is kept inside the rows and inside the columns, so at an edge the
    move stays where it is, and the second guard of the handler never fires.
    A horizontal move stays in the row and a vertical move in the column.  The
    handler gives up, before saving, exactly when the view has no row of that
    id or no column of that name. *)
Theorem move_stays_in_grid
    (cols : list Store.DbColumn) (view : list Store.DbRow)
    (rowId colName : string) (dir : TableHandlers.Direction) :
  (TableHandlers.moveTarget cols view rowId colName dir = None
   <-> rowId ∉ map Store.r_id view \/ colName ∉ map Store.c_name cols)
  /\ (forall r c,
         TableHandlers.moveTarget cols view rowId colName dir = Some (r, c) ->
         r ∈ view /\ c ∈ cols
         /\ (dir = TableHandlers.dir_right \/ dir = TableHandlers.dir_left ->
             Store.r_id r = rowId)
         /\ (dir = TableHandlers.dir_down \/ dir = TableHandlers.dir_up ->
             Store.c_name c = colName)).
Proof.
  set (fr := fun r : Store.DbRow => String.eqb (Store.r_id r) rowId).
  set (fc := fun c : Store.DbColumn => String.eqb (Store.c_name c) colName).
  assert (Hrows : (TableHandlers.findIndex fr view < 0)%Z
                  <-> rowId ∉ map Store.r_id view).
  { rewrite findIndex_missing. split.
    - intros Hall Hin. apply list_elem_of_fmap in Hin as (r & Hid & Hr).
      specialize (Hall r Hr). unfold fr in Hall. apply String.eqb_neq in Hall.
      congruence.
    - intros Hout r Hr. unfold fr. apply String.eqb_neq. intros Hid. apply Hout.
      rewrite <- Hid. now apply list_elem_of_fmap_2. }
  assert (Hcols : (TableHandlers.findIndex fc cols < 0)%Z
                  <-> colName ∉ map Store.c_name cols).
  { rewrite findIndex_missing. split.
    - intros Hall Hin. apply list_elem_of_fmap in Hin as (c & Hid & Hc).
      specialize (Hall c Hc). unfold fc in Hall. apply String.eqb_neq in Hall.
      congruence.
    - intros Hout c Hc. unfold fc. apply String.eqb_neq. intros Hid. apply Hout.
      rewrite <- Hid. now apply list_elem_of_fmap_2. }
  unfold TableHandlers.moveTarget. fold fr fc.
  destruct ((TableHandlers.findIndex fr view <? 0)%Z
            || (TableHandlers.findIndex fc cols <? 0)%Z) eqn:Hneg.
  - split; [| intros r c Hsome; discriminate Hsome].
    split; [intros _ | reflexivity].
    apply orb_true_iff in Hneg as [Hneg | Hneg]; apply Z.ltb_lt in Hneg.
    + left. now apply Hrows.
    + right. now apply Hcols.
  - apply orb_false_iff in Hneg as [Hr Hc]. apply Z.ltb_ge in Hr, Hc.
    destruct (findIndex_found fr view Hr) as (r0 & Hr0 & Hfr & Hrlt).
    destruct (findIndex_found fc cols Hc) as (c0 & Hc0 & Hfc & Hclt).
    set (nc := match dir with
               | TableHandlers.dir_right =>
                 Z.min (TableHandlers.findIndex fc cols + 1) (Z.of_nat (length cols) - 1)
               | TableHandlers.dir_left => Z.max (TableHandlers.findIndex fc cols - 1) 0
               | _ => TableHandlers.findIndex fc cols
               end).
    set (nr := match dir with
               | TableHandlers.dir_down =>
                 Z.min (TableHandlers.findIndex fr view + 1) (Z.of_nat (length view) - 1)
               | TableHandlers.dir_up => Z.max (TableHandlers.findIndex fr view - 1) 0
               | _ => TableHandlers.findIndex fr view
               end).
    assert (Hnr : (0 <= nr < Z.of_nat (length view))%Z) by (subst nr; destruct dir; lia).
    assert (Hnc : (0 <= nc < Z.of_nat (length cols))%Z) by (subst nc; destruct dir; lia).
    destruct (at_index_in_range view nr Hnr) as (r1 & Hr1 & Hin1).
    destruct (at_index_in_range cols nc Hnc) as (c1 & Hc1 & Hin2).
    rewrite Hr1, Hc1. split.
    + split; [discriminate |]. intros [Hout | Hout]; exfalso.
      * apply Hrows in Hout. lia.
      * apply Hcols in Hout. lia.
    + intros r c [= <- <-]. split; [exact Hin1 |]. split; [exact Hin2 |]. split.
      * intros Hdir.
        assert (Hsame : nr = TableHandlers.findIndex fr view)
          by (subst nr; destruct Hdir as [-> | ->]; reflexivity).
        rewrite Hsame in Hr1. unfold TableHandlers.at_index in Hr1.
        destruct (TableHandlers.findIndex fr view <? 0)%Z; [discriminate |].
        rewrite Hr0 in Hr1. injection Hr1 as <-. now apply String.eqb_eq.
      * intros Hdir.
        assert (Hsame : nc = TableHandlers.findIndex fc cols)
          by (subst nc; destruct Hdir as [-> | ->]; reflexivity).
        rewrite Hsame in Hc1. unfold TableHandlers.at_index in Hc1.
        destruct (TableHandlers.findIndex fc cols <? 0)%Z; [discriminate |].
        rewrite Hc0 in Hc1. injection Hc1 as <-. now apply String.eqb_eq.
Qed.

(** ** EasyCount *)

Section Counting.

Import Store TablesPage TableHandlers.

Context `{Host}.

Lemma activeConditions_app (c1 c2 : list (string * string)) :
  activeConditions (c1 ++ c2) = (activeConditions c1 ++ activeConditions c2)%list.
Proof. unfold activeConditions. now rewrite map_app, List.filter_app. Qed.

Lemma activeConditions_blank (c : string * string) :
  JsString.trim (fst c) = "" \/ JsString.trim (snd c) = "" ->
  activeConditions [c] = [].
Proof.
  unfold activeConditions. simpl. intros [-> | ->]; simpl; [reflexivity |].
  now rewrite andb_false_r.
Qed.

Lemma rowSatisfies_app (a b : list (string * string)) (r : DbRow) :
  rowSatisfies (a ++ b) r = rowSatisfies a r && rowSatisfies b r.
Proof. unfold rowSatisfies. apply forallb_app. Qed.

Lemma filter_length_le {A} (f g : A -> bool) (l : list A) :
  (forall x, x ∈ l -> f x = true -> g x = true) ->
  length (List.filter f l) <= length (List.filter g l).
Proof.
  induction l as [| x l IH]; intros Hfg; [reflexivity |].
  assert (IH' : length (List.filter f l) <= length (List.filter g l)).
  { apply IH. intros y Hy. apply Hfg. now right. }
  simpl. destruct (f x) eqn:Hf.
  - rewrite (Hfg x) by (auto; left). simpl. lia.
  - destruct (g x); simpl; lia.
Qed.

Lemma filter_length_all {A} (f : A -> bool) (l : list A) :
  length (List.filter f l) <= length l.
Proof. induction l as [| x l IH]; simpl; [lia |]. destruct (f x); simpl; lia. Qed.

(** What [handleEasyCount] does once a table is selected. *)
Lemma handleEasyCount_run (e : Editor) (w : World) (sel : DbTable) :
  selectedTable (page e) = Some sel ->
  let active := activeConditions (countConditions e) in
  let n := length (List.filter (rowSatisfies active) (rows (page e))) in
  handleEasyCount e w
  = match active with
    | [] =>
      (setCountResult (Some 0) e,
       {| db := db w; faults := faults w; calls := calls w;
          toasts := (toasts w ++ [ToastError "Add at least 1 condition"])%list |})
    | _ =>
      (setCountResult (Some n) e,
       {| db := db w; faults := faults w; calls := calls w;
          toasts := (toasts w
                     ++ [ToastSuccess ("Found " ++ pretty n ++ " matching rows")])%list |})
    end.
Proof.
  intros Hsel. cbv zeta. unfold handleEasyCount. rewrite Hsel.
  now destruct (activeConditions (countConditions e)).
Qed.

Lemma includes_empty_text (p : string) : p <> "" -> JsString.includes p "" = false.
Proof. destruct p; [congruence | reflexivity]. Qed.

Lemma lowerCase_nonempty (s : string) : s <> "" -> lowerCase s <> "".
Proof. intros Hs Hl. apply Hs. now apply lowerCase_empty. Qed.

(** A row that meets a condition with a criteria, on a column whose name is
    not the name of a member of [Object.prototype], has a cell that
    contains the criteria. *)
Lemma condition_matches (col crit : string) (r : DbRow) :
  JsValue.inPrototype col = false ->
  crit <> "" ->
  rowSatisfies [(col, crit)] r = true ->
  rowMatches (lowerCase crit) r = true.
Proof.
  intros Hcol Hcrit. unfold rowSatisfies. simpl. rewrite andb_true_r. intros Hin.
  apply rowMatches_true. rewrite get_plain in Hin by exact Hcol.
  destruct (rd r !! col) as [v |] eqn:Hv.
  - exists col, v. split; [exact Hv | exact Hin].
  - simpl in Hin. replace (lowerCase "") with "" in Hin
      by (symmetry; now apply lowerCase_empty).
    rewrite includes_empty_text in Hin by now apply lowerCase_nonempty.
    discriminate.
Qed.

Lemma rowSatisfies_elem (active : list (string * string)) (cond : string * string)
    (r : DbRow) :
  cond ∈ active -> rowSatisfies active r = true -> rowSatisfies [cond] r = true.
Proof.
  intros Hin Hall. unfold rowSatisfies in *. simpl. rewrite andb_true_r.
  rewrite forallb_forall in Hall. apply Hall. now apply list_elem_of_In.
Qed.

Lemma elem_of_activeConditions (conds : list (string * string)) (c : string * string) :
  c ∈ conds -> JsString.trim (fst c) <> "" -> JsString.trim (snd c) <> "" ->
  (JsString.trim (fst c), JsString.trim (snd c)) ∈ activeConditions conds.
Proof.
  intros Hc Hcol Hcrit. unfold activeConditions.
  apply list_elem_of_In, filter_In. split.
  - apply in_map_iff. exists c. split; [reflexivity | now apply list_elem_of_In].
  - simpl. apply andb_true_iff. split; apply negb_true_iff, String.eqb_neq; assumption.
Qed.

End Counting.

(** EasyCount leaves out the conditions whose column or criteria is blank.
    With none left it reports 0 and asks for a condition; otherwise the count
    is that of the conditions left, so a blank condition added anywhere
    changes neither the count nor the message. *)
Theorem easy_count_ignores_blank_conditions `{Host}
    (e : TableHandlers.Editor) (w : Store.World) (sel : Store.DbTable)
    (before after : list (string * string)) (c : string * string) :
  TablesPage.selectedTable (TableHandlers.page e) = Some sel ->
  JsString.trim (fst c) = "" \/ JsString.trim (snd c) = "" ->
  TableHandlers.handleEasyCount
    (TableHandlers.setCountConditions (before ++ c :: after) e) w
  = (let '(e', w') :=
       TableHandlers.handleEasyCount
         (TableHandlers.setCountConditions (before ++ after) e) w in
     (TableHandlers.setCountConditions (before ++ c :: after) e', w'))
  /\ (TableHandlers.activeConditions (TableHandlers.countConditions e) = [] ->
      TableHandlers.countResult (fst (TableHandlers.handleEasyCount e w)) = Some 0
      /\ Store.toasts (snd (TableHandlers.handleEasyCount e w))
         = (Store.toasts w ++ [Store.ToastError "Add at least 1 condition"])%list).
Proof.
  intros Hsel Hblank. split.
  - rewrite !(handleEasyCount_run _ _ sel) by exact Hsel. simpl.
    replace (TableHandlers.activeConditions (before ++ c :: after))
      with (TableHandlers.activeConditions (before ++ after)).
    + now destruct (TableHandlers.activeConditions (before ++ after)).
    + change (c :: after) with ([c] ++ after)%list.
      rewrite !activeConditions_app, (activeConditions_blank c Hblank). reflexivity.
  - intros Hnone. rewrite (handleEasyCount_run _ _ sel) by exact Hsel.
    rewrite Hnone. split; reflexivity.
Qed.

(** [easy_count_ignores_blank_conditions] on the Sales table: the condition
    [Item contains PEN] finds one row, with or without a second condition that
    has no column. *)
Lemma easy_count_ignores_blank_conditions_witness :
  let e := Scenario.salesEditor in
  let w := Examples.calm Examples.salesDb in
  TablesPage.selectedTable (TableHandlers.page e) = Some Examples.salesTable
  /\ (JsString.trim (fst ("", "x")) = "" \/ JsString.trim (snd ("", "x")) = "")
  /\ TableHandlers.countResult
       (fst (@TableHandlers.handleEasyCount plainHost
               (TableHandlers.setCountConditions [(" Item ", "PEN"); ("", "x")] e) w))
     = Some 1
  /\ Store.toasts
       (snd (@TableHandlers.handleEasyCount plainHost
               (TableHandlers.setCountConditions [(" Item ", "PEN"); ("", "x")] e) w))
     = [Store.ToastSuccess "Found 1 matching rows"].
Proof.
  intros e w.
  assert (Hsel : TablesPage.selectedTable (TableHandlers.page e)
                 = Some Examples.salesTable) by reflexivity.
  assert (Hblank : JsString.trim (fst ("", "x")) = ""
                   \/ JsString.trim (snd ("", "x")) = "") by (left; reflexivity).
  split; [exact Hsel |]. split; [exact Hblank |].
  destruct (@easy_count_ignores_blank_conditions plainHost e w Examples.salesTable
              [(" Item ", "PEN")] [] ("", "x") Hsel Hblank) as [Hsame _].
  change ([(" Item ", "PEN")] ++ [("", "x")])%list
    with [(" Item ", "PEN"); ("", "x")] in Hsame.
  rewrite Hsame. vm_compute. split; reflexivity.
Defined.

(** With at least one condition that counts, EasyCount reports a number of
    rows that is at most the number of rows of the table, and further
    conditions can only lower it. *)
Theorem easy_count_conditions_narrow `{Host}
    (e : TableHandlers.Editor) (w : Store.World) (sel : Store.DbTable)
    (more : list (string * string)) :
  TablesPage.selectedTable (TableHandlers.page e) = Some sel ->
  TableHandlers.activeConditions (TableHandlers.countConditions e) <> [] ->
  exists n n',
    TableHandlers.countResult (fst (TableHandlers.handleEasyCount e w)) = Some n
    /\ TableHandlers.countResult
         (fst (TableHandlers.handleEasyCount
                 (TableHandlers.setCountConditions
                    (TableHandlers.countConditions e ++ more) e) w))
       = Some n'
    /\ n' <= n
    /\ n <= length (TablesPage.rows (TableHandlers.page e)).
Proof.
  intros Hsel Hactive.
  rewrite !(handleEasyCount_run _ _ sel) by exact Hsel. simpl.
  rewrite activeConditions_app.
  destruct (TableHandlers.activeConditions (TableHandlers.countConditions e))
    as [| c active] eqn:Hc; [contradiction |].
  simpl. eexists. eexists. split; [reflexivity |]. split; [reflexivity |].
  split; [| apply filter_length_all].
  apply filter_length_le. intros r _.
  change (c :: (active ++ TableHandlers.activeConditions more)%list)
    with ((c :: active) ++ TableHandlers.activeConditions more)%list.
  rewrite rowSatisfies_app. intros Hr. now apply andb_true_iff in Hr as [Hr _].
Qed.

(** [easy_count_conditions_narrow] on the Sales table. *)
Lemma easy_count_conditions_narrow_witness :
  let e := Scenario.countPens in
  let w := Examples.calm Examples.salesDb in
  TablesPage.selectedTable (TableHandlers.page e) = Some Examples.salesTable
  /\ TableHandlers.activeConditions (TableHandlers.countConditions e) <> []
  /\ exists n n',
       TableHandlers.countResult (fst (@TableHandlers.handleEasyCount plainHost e w))
       = Some n
       /\ TableHandlers.countResult
            (fst (@TableHandlers.handleEasyCount plainHost
                    (TableHandlers.setCountConditions
                       (TableHandlers.countConditions e ++ [("Amount", "250")]) e) w))
          = Some n'
       /\ n' <= n /\ n <= 2.
Proof.
  intros e w.
  assert (Hsel : TablesPage.selectedTable (TableHandlers.page e)
                 = Some Examples.salesTable) by reflexivity.
  assert (Hactive : TableHandlers.activeConditions (TableHandlers.countConditions e) <> [])
    by discriminate.
  split; [exact Hsel |]. split; [exact Hactive |].
  exact (@easy_count_conditions_narrow plainHost e w Examples.salesTable [("Amount", "250")]
           Hsel Hactive).
Defined.

(** A row that EasyCount counts is a row that the search shows for the text
    of any of the conditions that count, the name of its column not being
    the name of a member of [Object.prototype] ([constructor], [toString],
    ...): the search looks into every cell of the row, the condition into
    one; under such a name it reads the member where the row has no cell.  So
    for each such condition the count is at most the number of rows the
    search shows. *)
Theorem easy_count_hit_is_search_hit `{Host}
    (e : TableHandlers.Editor) (w : Store.World) (sel : Store.DbTable)
    (c : string * string) :
  TablesPage.selectedTable (TableHandlers.page e) = Some sel ->
  c ∈ TableHandlers.countConditions e ->
  JsString.trim (fst c) <> "" ->
  JsString.trim (snd c) <> "" ->
  JsValue.inPrototype (JsString.trim (fst c)) = false ->
  let shown :=
    TablesPage.filteredAndSortedRows
      (TablesPage.setSearchQuery (JsString.trim (snd c)) (TableHandlers.page e)) in
  (forall r,
      r ∈ TablesPage.rows (TableHandlers.page e) ->
      TableHandlers.rowSatisfies
        (TableHandlers.activeConditions (TableHandlers.countConditions e)) r = true ->
      r ∈ shown)
  /\ exists n,
       TableHandlers.countResult (fst (TableHandlers.handleEasyCount e w)) = Some n
       /\ n <= length shown.
Proof.
  intros Hsel Hc Hcol Hcrit Hplain shown.
  pose proof (elem_of_activeConditions _ _ Hc Hcol Hcrit) as Hactive.
  assert (Hhit : forall r,
    TableHandlers.rowSatisfies
      (TableHandlers.activeConditions (TableHandlers.countConditions e)) r = true ->
    TablesPage.rowMatches (lowerCase (JsString.trim (snd c))) r = true).
  { intros r Hr. eapply condition_matches; [exact Hplain | exact Hcrit |].
    eapply rowSatisfies_elem; [exact Hactive | exact Hr]. }
  assert (Hfiltered :
    TablesPage.filtered
      (TablesPage.setSearchQuery (JsString.trim (snd c)) (TableHandlers.page e))
    = List.filter (TablesPage.rowMatches (lowerCase (JsString.trim (snd c))))
        (TablesPage.rows (TableHandlers.page e))).
  { unfold TablesPage.filtered. simpl. rewrite trim_trim.
    destruct (JsString.trim (snd c)); [contradiction | reflexivity]. }
  split.
  - intros r Hr Hsat. subst shown. apply elem_of_view. rewrite Hfiltered.
    apply list_elem_of_In, filter_In. split; [now apply list_elem_of_In | now apply Hhit].
  - rewrite (handleEasyCount_run _ _ sel) by exact Hsel.
    destruct (TableHandlers.activeConditions (TableHandlers.countConditions e))
      as [| c0 active] eqn:Hact; [inversion Hactive |].
    eexists. split; [reflexivity |].
    assert (Hlen : length shown
                   = length (TablesPage.filtered
                               (TablesPage.setSearchQuery (JsString.trim (snd c))
                                  (TableHandlers.page e)))).
    { subst shown. unfold TablesPage.filteredAndSortedRows.
      destruct (TablesPage.sortColumnName _) as [[| a name] |]; try reflexivity.
      apply Permutation_length. apply sort_perm. }
    rewrite Hlen, Hfiltered. apply filter_length_le. intros r _. apply Hhit.
Qed.

(** [easy_count_hit_is_search_hit] on the Sales table: the row of the pen is
    counted for [Item contains PEN] and shown by the search for PEN. *)
Lemma easy_count_hit_is_search_hit_witness :
  let e := Scenario.countPens in
  let w := Examples.calm Examples.salesDb in
  let c := (" Item ", "PEN") in
  TablesPage.selectedTable (TableHandlers.page e) = Some Examples.salesTable
  /\ c ∈ TableHandlers.countConditions e
  /\ JsString.trim (fst c) <> ""
  /\ JsString.trim (snd c) <> ""
  /\ JsValue.inPrototype (JsString.trim (fst c)) = false
  /\ Examples.penRow
     ∈ @TablesPage.filteredAndSortedRows plainHost
         (TablesPage.setSearchQuery "PEN" (TableHandlers.page e)).
Proof.
  intros e w c.
  assert (Hsel : TablesPage.selectedTable (TableHandlers.page e)
                 = Some Examples.salesTable) by reflexivity.
  assert (Hc : c ∈ TableHandlers.countConditions e) by left.
  assert (Hcol : JsString.trim (fst c) <> "") by discriminate.
  assert (Hcrit : JsString.trim (snd c) <> "") by discriminate.
  assert (Hplain : JsValue.inPrototype (JsString.trim (fst c)) = false) by reflexivity.
  repeat (split; [assumption |]).
  destruct (@easy_count_hit_is_search_hit plainHost e w Examples.salesTable c
              Hsel Hc Hcol Hcrit Hplain) as [Hshown _].
  apply (Hshown Examples.penRow); [left | reflexivity].
Defined.

(** ** Creating, renaming and selecting tables *)

Section Tables.

Import Store Mutation TablesPage TableHandlers.

Lemma loadTables_db (p0 p : Page) (w : World) : db (snd (loadTables p0 p w)) = db w.
Proof. destruct (loadTables_calls p0 p w) as (_ & _ & _ & Hdb & _). exact Hdb. Qed.

(** [loadTables] when the user is known and the call succeeds. *)
Lemma loadTables_run (p0 p : Page) (w : World) (uid : string) :
  userId p0 = Some uid -> succeeds w 0 ->
  let list := filter (fun t => t_user_id t = uid) (user_tables (db w)) in
  fst (loadTables p0 p w)
  = match selectedTable p0 with
    | Some sel =>
      if existsb (fun t => String.eqb (t_id t) (t_id sel)) list then setTables list p
      else setSelectedTable (head list) (setTables list p)
    | None =>
      match list with
      | t :: _ => setSelectedTable (Some t) (setTables list p)
      | [] => setTables list p
      end
    end
  /\ toasts (snd (loadTables p0 p w)) = toasts w.
Proof.
  intros Huid Hok. cbv zeta. unfold loadTables. rewrite Huid. unfold bind.
  rewrite (supabase_succeeds _ _ Hok). simpl. split; reflexivity.
Qed.

Lemma existsb_id (list : list DbTable) (id : string) :
  existsb (fun t => String.eqb (t_id t) id) list = true <-> id ∈ map t_id list.
Proof.
  rewrite existsb_exists. split.
  - intros (t & Ht & Hid). apply String.eqb_eq in Hid. subst id.
    apply list_elem_of_fmap_2. now apply list_elem_of_In.
  - intros Hin. apply list_elem_of_fmap in Hin as (t & -> & Ht).
    exists t. split; [now apply list_elem_of_In | apply String.eqb_refl].
Qed.

Lemma head_elem {A} (l : list A) (x : A) : head l = Some x -> x ∈ l.
Proof. destruct l; [discriminate |]. intros [= ->]. left. Qed.

(** The store after [handleCreateTable]: as it was, or with one more table
    under the trimmed name, which is not empty. *)
Lemma handleCreateTable_db (e : Editor) (w : World) :
  db (snd (handleCreateTable e w)) = db w
  \/ exists uid,
       JsString.trim (newTableName e) <> ""
       /\ db (snd (handleCreateTable e w))
          = snd (run (InsertTable uid (JsString.trim (newTableName e))) (db w)).
Proof.
  unfold handleCreateTable. destruct (userId (page e)) as [uid |]; [| now left].
  destruct (JsString.trim (newTableName e)) as [| a name] eqn:Hname; [now left |].
  unfold bind, request, toast.
  destruct (faults w) as [| [m |] fs]; cbv beta iota zeta delta [run].
  - right. exists uid. split; [discriminate |].
    match goal with
    | |- context [loadTables ?a ?b ?c] =>
      pose proof (loadTables_db a b c) as Hdb; destruct (loadTables a b c) as [p2 w3]
    end.
    exact Hdb.
  - now left.
  - right. exists uid. split; [discriminate |].
    match goal with
    | |- context [loadTables ?a ?b ?c] =>
      pose proof (loadTables_db a b c) as Hdb; destruct (loadTables a b c) as [p2 w3]
    end.
    exact Hdb.
Qed.

Lemma handleRenameTable_db (table : DbTable) (answer : option string) (p : Page)
    (w : World) :
  db (snd (handleRenameTable table answer p w)) = db w
  \/ exists s,
       answer = Some s /\ JsString.trim s <> ""
       /\ db (snd (handleRenameTable table answer p w))
          = snd (run (RenameTable (t_id table) (JsString.trim s)) (db w)).
Proof.
  unfold handleRenameTable. destruct answer as [s |]; [| now left].
  destruct (JsString.trim s) as [| a name] eqn:Hname; [now left |].
  unfold bind, request, toast.
  destruct (faults w) as [| [m |] fs]; cbv beta iota zeta delta [run].
  - right. exists s. rewrite Hname. split; [reflexivity |]. split; [discriminate |].
    match goal with
    | |- context [loadTables ?a ?b ?c] =>
      pose proof (loadTables_db a b c) as Hdb; destruct (loadTables a b c) as [p2 w3]
    end.
    exact Hdb.
  - now left.
  - right. exists s. rewrite Hname. split; [reflexivity |]. split; [discriminate |].
    match goal with
    | |- context [loadTables ?a ?b ?c] =>
      pose proof (loadTables_db a b c) as Hdb; destruct (loadTables a b c) as [p2 w3]
    end.
    exact Hdb.
Qed.

End Tables.

(** A table never gets a blank name, nor a name with white space around
    it, from the page: when every stored name is trimmed and not empty, it is
    so after [handleCreateTable] and after [handleRenameTable], whatever is
    typed and whichever calls fail.  A rename that is cancelled or blank makes
    no call and changes nothing. *)
Theorem table_names_stay_trimmed
    (e : TableHandlers.Editor) (table : Store.DbTable) (answer : option string)
    (w : Store.World) :
  TableHandlers.namesTrimmed (Store.db w) ->
  TableHandlers.namesTrimmed (Store.db (snd (TableHandlers.handleCreateTable e w)))
  /\ TableHandlers.namesTrimmed
       (Store.db (snd (TableHandlers.handleRenameTable table answer
                         (TableHandlers.page e) w)))
  /\ (answer = None \/ (exists s, answer = Some s /\ JsString.trim s = "") ->
      TableHandlers.handleRenameTable table answer (TableHandlers.page e) w
      = (TableHandlers.page e, w)).
Proof.
  intros Hnames. split; [| split].
  - destruct (handleCreateTable_db e w) as [-> | (uid & Hne & ->)]; [exact Hnames |].
    simpl. unfold TableHandlers.namesTrimmed in *. simpl.
    apply Forall_app. split; [exact Hnames |].
    apply Forall_singleton. simpl. split; [exact Hne | apply trim_trim].
  - destruct (handleRenameTable_db table answer (TableHandlers.page e) w)
      as [-> | (s & _ & Hne & ->)]; [exact Hnames |].
    simpl. unfold TableHandlers.namesTrimmed in *. simpl.
    apply Forall_fmap. eapply Forall_impl; [exact Hnames |].
    intros t [Ht1 Ht2]. unfold Mutation.renameTable. simpl.
    destruct (decide (Store.t_id t = Store.t_id table)); simpl;
      [split; [exact Hne | apply trim_trim] | now split].
  - intros [-> | (s & -> & Hs)]; [reflexivity |].
    unfold TableHandlers.handleRenameTable. now rewrite Hs.
Qed.

(** [table_names_stay_trimmed] on the store of the Sales table, where a table
    is created under the name typed as Stock between spaces. *)
Lemma table_names_stay_trimmed_witness :
  let e := Scenario.createStock in
  let w := Examples.calm Examples.salesDb in
  TableHandlers.namesTrimmed (Store.db w)
  /\ TableHandlers.namesTrimmed (Store.db (snd (TableHandlers.handleCreateTable e w)))
  /\ map Store.t_name
         (Store.user_tables (Store.db (snd (TableHandlers.handleCreateTable e w))))
     = ["Sales"; "Stock"].
Proof.
  intros e w.
  assert (Hnames : TableHandlers.namesTrimmed (Store.db w)).
  { apply Forall_singleton. split; [discriminate | reflexivity]. }
  split; [exact Hnames |].
  destruct (table_names_stay_trimmed e Examples.salesTable None w Hnames) as (Hcreate & _).
  split; [exact Hcreate | reflexivity].
Defined.

(** A table that is created becomes the selected table: it is stored last,
    under the trimmed name and for the user of the page, the list of tables is
    read again and ends with it, and the dialog is closed and emptied.  A
    blank name is refused before any call. *)
Theorem created_table_is_selected
    (e : TableHandlers.Editor) (w : Store.World) (uid : string) :
  TablesPage.userId (TableHandlers.page e) = Some uid ->
  let e' := fst (TableHandlers.handleCreateTable e w) in
  let w' := snd (TableHandlers.handleCreateTable e w) in
  (JsString.trim (TableHandlers.newTableName e) = "" ->
   e' = e /\ Store.db w' = Store.db w /\ Store.faults w' = Store.faults w
   /\ Store.toasts w'
      = (Store.toasts w ++ [Store.ToastError "Please enter a table name"])%list)
  /\ (JsString.trim (TableHandlers.newTableName e) <> "" -> Store.faults w = [] ->
      exists t,
        Store.user_tables (Store.db w') = (Store.user_tables (Store.db w) ++ [t])%list
        /\ Store.t_name t = JsString.trim (TableHandlers.newTableName e)
        /\ Store.t_user_id t = uid
        /\ TablesPage.selectedTable (TableHandlers.page e') = Some t
        /\ TablesPage.tables (TableHandlers.page e')
           = (filter (fun t => Store.t_user_id t = uid) (Store.user_tables (Store.db w))
              ++ [t])%list
        /\ TableHandlers.newTableName e' = ""
        /\ TableHandlers.isCreateDialogOpen e' = false
        /\ Store.toasts w'
           = (Store.toasts w ++ [Store.ToastSuccess "Table created"])%list).
Proof.
  intros Huid e' w'. subst e' w'. unfold TableHandlers.handleCreateTable.
  rewrite Huid. split.
  - intros ->. simpl. repeat split.
  - intros Hname Hfaults.
    destruct (JsString.trim (TableHandlers.newTableName e)) as [| a name];
      [contradiction |].
    destruct w as [d fs cs ts]. simpl in Hfaults. subst fs.
    unfold Store.bind, Mutation.request. simpl.
    unfold TablesPage.loadTables. simpl. rewrite Huid.
    unfold Store.bind, Store.supabase. simpl.
    eexists. split; [reflexivity |]. split; [reflexivity |]. split; [reflexivity |].
    assert (Htables : forall p1 p2 : TablesPage.Page,
      TablesPage.tables p1 = TablesPage.tables p2 ->
      TablesPage.tables
        (match TablesPage.selectedTable (TableHandlers.page e) with
         | Some sel =>
           if existsb
                (fun t => String.eqb (Store.t_id t) (Store.t_id sel))
                (TablesPage.tables p1) then p1 else p2
         | None => p2
         end) = TablesPage.tables p1).
    { intros p1 p2 H12. destruct (TablesPage.selectedTable _); [| now rewrite H12].
      destruct (existsb _ _); [reflexivity | now rewrite H12]. }
    split; [reflexivity |]. split; [| repeat split].
    rewrite filter_app, filter_cons. simpl.
    destruct (decide (uid = uid)); [| contradiction]. simpl.
    destruct (TablesPage.selectedTable (TableHandlers.page e)) as [sel |].
    + destruct (existsb _ _); reflexivity.
    + destruct (filter _ (Store.user_tables d)); reflexivity.
Qed.

(** [created_table_is_selected] on the store of the Sales table: the table
    Stock is created and selected. *)
Lemma created_table_is_selected_witness :
  let e := Scenario.createStock in
  let w := Examples.calm Examples.salesDb in
  TablesPage.userId (TableHandlers.page e) = Some "u1"
  /\ JsString.trim (TableHandlers.newTableName e) <> ""
  /\ Store.faults w = []
  /\ exists t,
       TablesPage.selectedTable
         (TableHandlers.page (fst (TableHandlers.handleCreateTable e w))) = Some t
       /\ Store.t_name t = "Stock"
       /\ map Store.t_name
            (TablesPage.tables
               (TableHandlers.page (fst (TableHandlers.handleCreateTable e w))))
          = ["Sales"; "Stock"].
Proof.
  intros e w.
  assert (Huid : TablesPage.userId (TableHandlers.page e) = Some "u1") by reflexivity.
  assert (Hname : JsString.trim (TableHandlers.newTableName e) <> "") by discriminate.
  assert (Hfaults : Store.faults w = []) by reflexivity.
  repeat (split; [assumption |]).
  destruct (created_table_is_selected e w "u1" Huid) as [_ Hok].
  destruct (Hok Hname Hfaults) as (t & _ & Ht & _ & Hsel & Htables & _).
  exists t. split; [exact Hsel |]. split; [exact Ht |].
  rewrite Htables, map_app. simpl. now rewrite Ht.
Defined.

(** After the list of tables has been read, the selection is one of the
    tables read: the table selected before when its id is still there, the
    first table otherwise; there is no selection only when there is no table.
    When the call fails the page is left as it was and the message is shown;
    without a user no call is made. *)
Theorem load_tables_keeps_selection_valid (p : TablesPage.Page) (w : Store.World) :
  let p' := fst (TablesPage.loadTables p p w) in
  let w' := snd (TablesPage.loadTables p p w) in
  (TablesPage.userId p = None -> p' = p /\ w' = w)
  /\ (forall m,
         TablesPage.userId p <> None -> TablesPage.fails w 0 m ->
         p' = p
         /\ Store.toasts w' = (Store.toasts w ++ [Store.ToastError m])%list)
  /\ (forall uid,
         TablesPage.userId p = Some uid -> TablesPage.succeeds w 0 ->
         TablesPage.tables p'
         = filter (fun t => Store.t_user_id t = uid) (Store.user_tables (Store.db w))
         /\ (TablesPage.selectedTable p' = None <-> TablesPage.tables p' = [])
         /\ (forall t,
                TablesPage.selectedTable p' = Some t ->
                Store.t_id t ∈ map Store.t_id (TablesPage.tables p'))
         /\ (forall sel,
                TablesPage.selectedTable p = Some sel ->
                Store.t_id sel ∈ map Store.t_id (TablesPage.tables p') ->
                TablesPage.selectedTable p' = Some sel)
         /\ (forall sel,
                TablesPage.selectedTable p = Some sel ->
                Store.t_id sel ∉ map Store.t_id (TablesPage.tables p') ->
                TablesPage.selectedTable p' = head (TablesPage.tables p'))
         /\ TablesPage.columns p' = TablesPage.columns p
         /\ TablesPage.rows p' = TablesPage.rows p).
Proof.
  intros p' w'. split; [| split].
  - intros Hnone. subst p' w'. unfold TablesPage.loadTables. now rewrite Hnone.
  - intros m Huser Hm. subst p' w'. unfold TablesPage.loadTables.
    destruct (TablesPage.userId p) as [uid |]; [| contradiction].
    unfold Store.bind. rewrite (supabase_fails _ _ _ Hm). simpl. split; reflexivity.
  - intros uid Huid Hok.
    destruct (loadTables_run p p w uid Huid Hok) as [Hrun _]. cbv zeta in Hrun.
    subst p'. rewrite Hrun. clear Hrun.
    set (list := filter (fun t => Store.t_user_id t = uid)
                        (Store.user_tables (Store.db w))).
    destruct (TablesPage.selectedTable p) as [sel |] eqn:Hsel.
    + destruct (existsb (fun t => String.eqb (Store.t_id t) (Store.t_id sel)) list)
        eqn:Hex.
      * pose proof (proj1 (existsb_id list (Store.t_id sel)) Hex) as Hin.
        simpl. rewrite Hsel.
        split; [reflexivity |]. split.
        { split; [discriminate |]. intros Hl. rewrite Hl in Hin. inversion Hin. }
        split; [intros t [= <-]; exact Hin |].
        split; [intros sel' [= <-] _; reflexivity |].
        split; [intros sel' [= <-] Hout; contradiction |]. split; reflexivity.
      * assert (Hout : Store.t_id sel ∉ map Store.t_id list).
        { intros Hin. apply existsb_id in Hin. congruence. }
        simpl. split; [reflexivity |]. split.
        { destruct list; simpl; split; congruence. }
        split.
        { intros t Ht. apply list_elem_of_fmap_2. now apply head_elem. }
        split; [intros sel' [= <-] Hin; contradiction |].
        split; [intros sel' _ _; reflexivity |]. split; reflexivity.
    + destruct list as [| t list'] eqn:Hlist; simpl; rewrite ?Hsel.
      * split; [reflexivity |]. split; [split; reflexivity |].
        split; [intros t; discriminate |].
        split; [intros sel; discriminate |].
        split; [intros sel; discriminate |]. split; reflexivity.
      * split; [reflexivity |]. split; [split; discriminate |].
        split; [intros t' [= <-]; left |].
        split; [intros sel; discriminate |].
        split; [intros sel; discriminate |]. split; reflexivity.
Qed.

(** Once a table is deleted (no call failing) the list of tables is the one
    of the store.  When it was the selected table, the selection moves to the
    first table left, or to none, and the columns and rows shown are cleared;
    when another table was selected and is still stored, the selection, the
    columns and the rows stay. *)
Theorem delete_table_moves_selection
    (tableId uid : string) (p : TablesPage.Page) (w : Store.World) :
  TablesPage.userId p = Some uid ->
  Store.faults w = [] ->
  let left_over :=
    filter (fun t => Store.t_user_id t = uid)
           (filter (fun t => Store.t_id t <> tableId) (Store.user_tables (Store.db w))) in
  let p' := fst (TablesPage.handleDeleteTable tableId p w) in
  TablesPage.tables p' = left_over
  /\ (forall sel,
         TablesPage.selectedTable p = Some sel -> Store.t_id sel = tableId ->
         TablesPage.selectedTable p' = head left_over
         /\ TablesPage.columns p' = [] /\ TablesPage.rows p' = [])
  /\ (forall sel,
         TablesPage.selectedTable p = Some sel -> Store.t_id sel <> tableId ->
         Store.t_id sel ∈ map Store.t_id left_over ->
         TablesPage.selectedTable p' = Some sel
         /\ TablesPage.columns p' = TablesPage.columns p
         /\ TablesPage.rows p' = TablesPage.rows p)
  /\ (TablesPage.selectedTable p = None ->
      TablesPage.selectedTable p' = head left_over).
Proof.
  intros Huid Hfaults left_over p'.
  destruct w as [d fs cs ts]. simpl in Hfaults. subst fs.
  subst p'. unfold TablesPage.handleDeleteTable, Store.bind, Store.supabase, Store.toast.
  cbv beta iota zeta delta [Store.run Store.faults Store.db Store.calls Store.toasts tail].
  match goal with
  | |- context [TablesPage.loadTables p ?p1 ?w1] =>
    assert (Hok : TablesPage.succeeds w1 0) by (intros m; discriminate);
    destruct (loadTables_run p p1 w1 uid Huid Hok) as [Hrun _];
    cbv zeta in Hrun;
    set (res := TablesPage.loadTables p p1 w1) in *
  end.
  destruct res as [p2 w2]. simpl fst in Hrun. simpl fst. subst p2.
  simpl Store.db. simpl Store.user_tables. simpl in left_over. fold left_over.
  assert (Hgone : forall sel, Store.t_id sel = tableId ->
            existsb (fun t => String.eqb (Store.t_id t) (Store.t_id sel)) left_over
            = false).
  { intros sel Hid. apply not_true_is_false. intros Hex. apply existsb_id in Hex.
    apply list_elem_of_fmap in Hex as (t & Ht & Hin).
    subst left_over. apply list_elem_of_filter in Hin as [_ Hin].
    apply list_elem_of_filter in Hin as [Hne _]. congruence. }
  destruct (TablesPage.selectedTable p) as [sel |] eqn:Hsel.
  - destruct (String.eqb (Store.t_id sel) tableId) eqn:Hid.
    + apply String.eqb_eq in Hid. rewrite (Hgone sel Hid). simpl.
      split; [reflexivity |]. split; [intros sel' _ _; repeat split |].
      split; [intros sel' [= <-] Hne; contradiction | discriminate].
    + apply String.eqb_neq in Hid.
      destruct (existsb (fun t => String.eqb (Store.t_id t) (Store.t_id sel)) left_over)
        eqn:Hex; simpl.
      * split; [reflexivity |]. split; [intros sel' [= <-] Heq; contradiction |].
        split; [| discriminate]. intros sel' [= <-] _ _. rewrite Hsel. repeat split.
      * split; [reflexivity |]. split; [intros sel' [= <-] Heq; contradiction |].
        split; [| discriminate]. intros sel' [= <-] _ Hin.
        apply existsb_id in Hin. congruence.
  - destruct left_over as [| t rest]; simpl; rewrite ?Hsel.
    + split; [reflexivity |]. split; [intros sel; discriminate |].
      split; [intros sel; discriminate | reflexivity].
    + split; [reflexivity |]. split; [intros sel; discriminate |].
      split; [intros sel; discriminate | reflexivity].
Qed.

(** [delete_table_moves_selection] on the store of the Sales table: the
    selected table is deleted and nothing is left to select. *)
Lemma delete_table_moves_selection_witness :
  let p := Examples.salesPage in
  let w := Examples.calm Examples.salesDb in
  TablesPage.userId p = Some "u1"
  /\ Store.faults w = []
  /\ TablesPage.selectedTable p = Some Examples.salesTable
  /\ TablesPage.selectedTable (fst (TablesPage.handleDeleteTable "t1" p w)) = None
  /\ TablesPage.rows (fst (TablesPage.handleDeleteTable "t1" p w)) = [].
Proof.
  intros p w.
  assert (Huid : TablesPage.userId p = Some "u1") by reflexivity.
  assert (Hfaults : Store.faults w = []) by reflexivity.
  assert (Hsel : TablesPage.selectedTable p = Some Examples.salesTable) by reflexivity.
  repeat (split; [assumption |]).
  destruct (delete_table_moves_selection "t1" "u1" p w Huid Hfaults) as (_ & Hmove & _).
  destruct (Hmove Examples.salesTable Hsel eq_refl) as (Hnone & _ & Hrows).
  split; [exact Hnone | exact Hrows].
Defined.

(** ** File names *)

Section FileNames.

Import JsString FileName.

Lemma clean_cons (a : ascii) (s : string) :
  clean (String a s) = negb (reserved a) && clean s.
Proof. reflexivity. Qed.

Lemma clean_app (u v : string) : clean (u ++ v) = clean u && clean v.
Proof.
  induction u as [| a u IH]; [reflexivity |].
  rewrite append_cons, !clean_cons, IH. apply andb_assoc.
Qed.

Lemma hyphenate_clean (s : string) : clean (hyphenate s) = true.
Proof.
  induction s as [| a s IH]; [reflexivity |].
  simpl. rewrite clean_cons, IH, andb_true_r.
  destruct (reserved a) eqn:Ha; [reflexivity | now rewrite Ha].
Qed.

Lemma hyphenate_fixed (s : string) : clean s = true -> hyphenate s = s.
Proof.
  induction s as [| a s IH]; [reflexivity |].
  rewrite clean_cons. intros Hs. apply andb_true_iff in Hs as [Ha Hs].
  simpl. apply negb_true_iff in Ha. now rewrite Ha, IH.
Qed.

Lemma trim_clean (s : string) : clean s = true -> clean (trim s) = true.
Proof.
  intros Hs. destruct (trim_split s) as (w1 & w2 & Hsplit & _).
  rewrite Hsplit, !clean_app in Hs.
  apply andb_true_iff in Hs as [_ Hs]. now apply andb_true_iff in Hs as [Hs _].
Qed.

Lemma safeOr_safe (fallback name : string) :
  fallback <> "" -> clean fallback = true ->
  safeOr fallback name <> "" /\ clean (safeOr fallback name) = true.
Proof.
  intros Hne Hclean. unfold safeOr.
  set (s := match name with EmptyString => fallback | _ => name end).
  pose proof (trim_clean _ (hyphenate_clean s)) as Ht.
  destruct (trim (hyphenate s)) as [| a t]; [now split |].
  split; [discriminate | exact Ht].
Qed.

Lemma safeOr_fixed (fallback name : string) :
  name <> "" -> clean name = true -> trim name = name ->
  safeOr fallback name = name.
Proof.
  intros Hne Hclean Htrim. unfold safeOr.
  destruct name as [| a s]; [contradiction |].
  rewrite (hyphenate_fixed _ Hclean), Htrim. reflexivity.
Qed.

Lemma safeOr_trimmed (fallback name : string) :
  trim fallback = fallback -> trim (safeOr fallback name) = safeOr fallback name.
Proof.
  intros Hf. unfold safeOr.
  set (s := match name with EmptyString => fallback | _ => name end).
  pose proof (trim_trim (hyphenate s)) as Ht.
  destruct (trim (hyphenate s)) as [| a t]; [exact Hf | exact Ht].
Qed.

End FileNames.

(** The file names of the exports.  Both [safeFileName]s give a name that is
    not empty, has no reserved character (slash, backslash, colon, asterisk,
    question mark, double quote, angle brackets, bar) and no white space
    around it; a name that is already so is kept, so applying the function
    twice changes nothing more; and the names the downloads are saved under
    have no reserved character either. *)
Theorem safe_file_names (name : string) (type : InvoicesPage.DocType)
    (doc_no : option string) :
  (TableHandlers.safeFileName name <> ""
   /\ FileName.clean (TableHandlers.safeFileName name) = true
   /\ JsString.trim (TableHandlers.safeFileName name) = TableHandlers.safeFileName name
   /\ TableHandlers.safeFileName (TableHandlers.safeFileName name)
      = TableHandlers.safeFileName name)
  /\ (DocumentHandlers.safeFileName name <> ""
      /\ FileName.clean (DocumentHandlers.safeFileName name) = true
      /\ JsString.trim (DocumentHandlers.safeFileName name)
         = DocumentHandlers.safeFileName name
      /\ DocumentHandlers.safeFileName (DocumentHandlers.safeFileName name)
         = DocumentHandlers.safeFileName name)
  /\ (name <> "" /\ FileName.clean name = true /\ JsString.trim name = name ->
      TableHandlers.safeFileName name = name
      /\ DocumentHandlers.safeFileName name = name)
  /\ TableHandlers.safeFileName "" = "table"
  /\ DocumentHandlers.safeFileName "" = "document"
  /\ FileName.clean (TableHandlers.pdfFileName name) = true
  /\ FileName.clean (TableHandlers.excelFileName name) = true
  /\ FileName.clean (DocumentHandlers.pdfFileName type doc_no) = true.
Proof.
  assert (Htable : forall n, TableHandlers.safeFileName n = FileName.safeOr "table" n)
    by reflexivity.
  assert (Hdoc : forall n,
             DocumentHandlers.safeFileName n = FileName.safeOr "document" n)
    by reflexivity.
  assert (Ht : "table" <> "" /\ FileName.clean "table" = true) by (split; [discriminate | reflexivity]).
  assert (Hd : "document" <> "" /\ FileName.clean "document" = true) by (split; [discriminate | reflexivity]).
  destruct Ht as [Ht1 Ht2]. destruct Hd as [Hd1 Hd2].
  destruct (safeOr_safe "table" name Ht1 Ht2) as [Hn1 Hc1].
  destruct (safeOr_safe "document" name Hd1 Hd2) as [Hn2 Hc2].
  pose proof (safeOr_trimmed "table" name eq_refl) as Htr1.
  pose proof (safeOr_trimmed "document" name eq_refl) as Htr2.
  split; [| split; [| split; [| split; [| split; [| split; [| split]]]]]].
  - rewrite !Htable. repeat split; try assumption. now apply safeOr_fixed.
  - rewrite !Hdoc. repeat split; try assumption. now apply safeOr_fixed.
  - intros (Hne & Hclean & Htrim). rewrite Htable, Hdoc.
    split; now apply safeOr_fixed.
  - reflexivity.
  - reflexivity.
  - unfold TableHandlers.pdfFileName. rewrite !clean_app, Htable, Hc1. reflexivity.
  - unfold TableHandlers.excelFileName. rewrite !clean_app, Htable, Hc1. reflexivity.
  - unfold DocumentHandlers.pdfFileName. cbv zeta. rewrite !clean_app, !Hdoc.
    rewrite (proj2 (safeOr_safe "document" _ Hd1 Hd2)).
    rewrite (proj2 (safeOr_safe "document" _ Hd1 Hd2)). reflexivity.
Qed.

(** ** Items added and removed *)

Section ItemList.

Import InvoicesPage.

Lemma or0_or0 (x : float) : JsNumber.or0 (JsNumber.or0 x) = JsNumber.or0 x.
Proof.
  unfold JsNumber.or0. destruct (JsNumber.falsy x) eqn:Hx; [reflexivity |].
  now rewrite Hx.
Qed.

(** A form whose totals are current is what [recalcTotals] makes of it. *)
Lemma recalcTotals_settled (form : InvoiceData) :
  totalsCurrent form -> ordinary (tax_percent (totals form)) ->
  recalcTotals (items form) (tax_percent (totals form)) form = form.
Proof.
  intros (Hsub & Htax & Htotal) Hord. apply or0_ordinary in Hord.
  unfold recalcTotals. rewrite Hord, <- Hsub, <- Htax, <- Htotal.
  destruct form as [i t n c a ph its tot cur]. destruct tot. reflexivity.
Qed.

Lemma delete_past {A} (l : list A) (idx : nat) : length l <= idx -> delete idx l = l.
Proof.
  revert idx. induction l as [| x l IH]; intros idx Hidx; [now destruct idx |].
  destruct idx as [| idx]; [simpl in Hidx; lia |].
  simpl in *. f_equal. apply IH. lia.
Qed.

Lemma recalcTotals_recalc (its its0 : list InvoiceItem) (t : float) (form : InvoiceData) :
  recalcTotals its (tax_percent (totals (recalcTotals its0 t form)))
    (recalcTotals its0 t form)
  = recalcTotals its t form.
Proof.
  unfold recalcTotals.
  cbn [tax_percent totals id type doc_no customer_name customer_address
       customer_phone currency_code terms note].
  rewrite or0_or0. reflexivity.
Qed.

End ItemList.

(** Adding an item and removing it again gives the form back, and so does
    removing at an index past the last item; an edit at such an index throws,
    an edit at an index of the list does not.  The form is one with at least
    one item whose totals are current, as every form of the editor is. *)
Theorem add_then_remove_restores_form (form : InvoicesPage.InvoiceData) :
  InvoicesPage.items form <> [] ->
  InvoicesPage.totalsCurrent form ->
  InvoicesPage.ordinary (InvoicesPage.tax_percent (InvoicesPage.totals form)) ->
  InvoicesPage.removeItem (length (InvoicesPage.items form)) (InvoicesPage.addItem form)
  = form
  /\ InvoicesPage.items (InvoicesPage.addItem form)
     = (InvoicesPage.items form ++ [InvoicesPage.blankItem])%list
  /\ (forall idx,
         length (InvoicesPage.items form) <= idx ->
         InvoicesPage.removeItem idx form = form)
  /\ (forall idx fv,
         InvoicesPage.updateItem idx fv form = None
         <-> length (InvoicesPage.items form) <= idx).
Proof.
  intros Hne Hcur Hord. split; [| split; [reflexivity | split]].
  - unfold InvoicesPage.removeItem, InvoicesPage.addItem.
    rewrite recalcTotals_recalc.
    change (InvoicesPage.items
              (InvoicesPage.recalcTotals
                 (InvoicesPage.items form ++ [InvoicesPage.blankItem])%list
                 (InvoicesPage.tax_percent (InvoicesPage.totals form)) form))
      with (InvoicesPage.items form ++ [InvoicesPage.blankItem])%list.
    rewrite delete_middle, app_nil_r.
    destruct (InvoicesPage.items form) as [| i its] eqn:Hits; [contradiction |].
    rewrite <- Hits. now apply recalcTotals_settled.
  - intros idx Hidx. unfold InvoicesPage.removeItem.
    rewrite delete_past by exact Hidx.
    destruct (InvoicesPage.items form) as [| i its] eqn:Hits; [contradiction |].
    rewrite <- Hits. now apply recalcTotals_settled.
  - intros idx fv. unfold InvoicesPage.updateItem.
    destruct (InvoicesPage.items form !! idx) as [i |] eqn:Hi.
    + split; [discriminate |]. intros Hidx. apply lookup_lt_Some in Hi. lia.
    + split; [intros _ | reflexivity]. now apply lookup_ge_None.
Qed.

(** [add_then_remove_restores_form] on the form the editor opens with. *)
Lemma add_then_remove_restores_form_witness :
  InvoicesPage.items InvoicesPage.initialForm <> []
  /\ InvoicesPage.totalsCurrent InvoicesPage.initialForm
  /\ InvoicesPage.ordinary
       (InvoicesPage.tax_percent (InvoicesPage.totals InvoicesPage.initialForm))
  /\ InvoicesPage.removeItem 1 (InvoicesPage.addItem InvoicesPage.initialForm)
     = InvoicesPage.initialForm.
Proof.
  assert (Hne : InvoicesPage.items InvoicesPage.initialForm <> []) by discriminate.
  assert (Hcur : InvoicesPage.totalsCurrent InvoicesPage.initialForm)
    by (repeat split).
  assert (Hord : InvoicesPage.ordinary
                   (InvoicesPage.tax_percent
                      (InvoicesPage.totals InvoicesPage.initialForm)))
    by (left; reflexivity).
  repeat (split; [assumption |]).
  exact (proj1 (add_then_remove_restores_form InvoicesPage.initialForm Hne Hcur Hord)).
Defined.

(** ** A column updated twice *)

Section ColumnUpdates.

Import Store TablesPage.

Context `{Host}.

Lemma toNumberSafe_finite (v : JsVal) : JsNumber.isFinite (toNumberSafe v) = true.
Proof.
  destruct v as [| | x | [| a s] | o]; simpl; try reflexivity; apply finite_or_zero.
Qed.

Lemma toNumberSafe_number (v : JsVal) : toNumberSafe (JNum (toNumberSafe v)) = toNumberSafe v.
Proof.
  change (toNumberSafe (JNum (toNumberSafe v)))
    with (if JsNumber.isFinite (toNumberSafe v) then toNumberSafe v else PrimFloat.zero).
  now rewrite toNumberSafe_finite.
Qed.

(** Sanitizing for a type what is sanitized for it already changes
    nothing, for the types whose rule does not go through the host. *)
Lemma sanitize_again (t : ColumnType) (v : JsVal) :
  t <> date -> sanitize t (sanitize t v) = sanitize t v.
Proof.
  intros Ht. destruct t; try contradiction; unfold sanitize.
  - destruct (JsValue.nullish v); reflexivity.
  - destruct (JsValue.isEmptyStr v || JsValue.nullish v); [reflexivity |].
    cbn [JsValue.isEmptyStr JsValue.nullish orb]. now rewrite toNumberSafe_number.
  - destruct (JsValue.isEmptyStr v || JsValue.nullish v); [reflexivity |].
    cbn [JsValue.isEmptyStr JsValue.nullish orb]. now rewrite toNumberSafe_number.
Qed.

(** A column that keeps its name: the key the row has is sanitized; a row
    without a key [__proto__] gets none. *)
Lemma updatedRowData_same_own (name : string) (t : ColumnType) (d : gmap string JsVal)
    (x : JsVal) :
  d !! name = Some x -> updatedRowData name name t d = <[name := sanitize t x]> d.
Proof.
  intros Hx. unfold updatedRowData.
  destruct (decide (name = name)); [| contradiction].
  unfold JsValue.assign, JsValue.read. simpl. now rewrite Hx.
Qed.

Lemma updatedRowData_same_setter (t : ColumnType) (d : gmap string JsVal) :
  d !! "__proto__" = None -> updatedRowData "__proto__" "__proto__" t d = d.
Proof.
  intros Hnone. unfold updatedRowData. simpl.
  now rewrite (assign_sanitized_setter _ _ _ (JObj "[object Object]")).
Qed.

Lemma assign_self (k : string) (v : JsVal) (o : JsValue.Slot) :
  fst (JsValue.assign k v o) !! k = Some v \/ fst (JsValue.assign k v o) !! k = None.
Proof.
  unfold JsValue.assign. destruct (fst o !! k) eqn:Hk, (snd o); simpl;
    rewrite ?lookup_insert_eq; auto.
Qed.

(** What a row has under the new name is sanitized. *)
Lemma updatedRowData_new (a b : string) (t : ColumnType) (d : gmap string JsVal) :
  (exists v, updatedRowData a b t d !! b = Some (sanitize t v))
  \/ (b = "__proto__" /\ updatedRowData a b t d !! b = None).
Proof.
  destruct (decide (b = "__proto__")) as [-> | Hb].
  - unfold updatedRowData.
    match goal with
    | |- context [JsValue.assign _ (sanitize t ?v) ?o] =>
      destruct (assign_self "__proto__" (sanitize t v) o) as [Hs | Hn]
    end; [left; eexists; exact Hs | right; split; [reflexivity | exact Hn]].
  - left. destruct (updatedRowData_lookup a b t d) as (_ & Hnew & _). eauto.
Qed.

End ColumnUpdates.

(** For the types text, number and currency: a row updated for a column
    (renamed or not) is left as it is by the same update made again under the
    new name.  When neither name is [__proto__]: renaming the column back,
    when the row had no key of the new name, gives what updating it under its
    own name gives, so renaming there and back loses nothing; and what a row
    had under the new name, the key of another column of that name, is
    overwritten by the rename. *)
Theorem column_update_again_changes_nothing `{Host}
    (a b : string) (t : Store.ColumnType) (d : gmap string JsVal) :
  t <> Store.date ->
  let d1 := TablesPage.updatedRowData a b t d in
  TablesPage.updatedRowData b b t d1 = d1
  /\ (a <> b -> a <> "__proto__" -> b <> "__proto__" -> d !! b = None ->
      TablesPage.updatedRowData b a t d1 = TablesPage.updatedRowData a a t d)
  /\ (a <> b -> b <> "__proto__" ->
      d1 !! b = Some (TablesPage.sanitize t (JsValue.get d a)) /\ d1 !! a = None).
Proof.
  intros Ht d1.
  destruct (updatedRowData_lookup a b t d) as (Hold & Hnew & _ & Hother).
  fold d1 in Hold, Hnew, Hother.
  split; [| split].
  - destruct (updatedRowData_new a b t d) as [[v Hv] | [Hb Hnone]].
    + rewrite (updatedRowData_same_own b t d1 _ Hv), sanitize_again by exact Ht.
      now apply insert_id.
    + subst b. now apply updatedRowData_same_setter.
  - intros Hab Ha Hb Hnone.
    assert (Hget : JsValue.get d1 b = TablesPage.sanitize t (JsValue.get d a))
      by (apply get_own; now apply Hnew).
    destruct (updatedRowData_lookup b a t d1) as (Hold' & Hnew' & _ & Hother').
    destruct (updatedRowData_lookup a a t d) as (_ & Hsame & _ & Hrest).
    apply map_eq. intros k.
    destruct (decide (k = a)) as [-> | Hka].
    + rewrite Hnew', Hget, sanitize_again by assumption. now rewrite Hsame.
    + rewrite Hrest by assumption.
      destruct (decide (k = b)) as [-> | Hkb].
      * rewrite Hold' by congruence. now rewrite Hnone.
      * rewrite Hother' by assumption. now apply Hother.
  - intros Hab Hb. split; [now apply Hnew | now apply Hold].
Qed.

(** [column_update_again_changes_nothing] on the data of the first row of
    the Sales table, whose column Amount is renamed to Total as a number and
    back. *)
Lemma column_update_again_changes_nothing_witness :
  let d := Store.rd Examples.penRow in
  Store.number <> Store.date
  /\ "Amount" <> "Total"
  /\ "Amount" <> "__proto__"
  /\ "Total" <> "__proto__"
  /\ d !! "Total" = None
  /\ @TablesPage.updatedRowData plainHost "Total" "Amount" Store.number
       (@TablesPage.updatedRowData plainHost "Amount" "Total" Store.number d)
     = <["Amount" := JNum 100]> d.
Proof.
  intros d.
  assert (Ht : Store.number <> Store.date) by discriminate.
  assert (Hab : "Amount" <> "Total") by discriminate.
  assert (Ha : "Amount" <> "__proto__") by discriminate.
  assert (Hb : "Total" <> "__proto__") by discriminate.
  assert (Hnone : d !! "Total" = None) by reflexivity.
  repeat (split; [assumption |]).
  destruct (@column_update_again_changes_nothing plainHost "Amount" "Total"
              Store.number d Ht) as (_ & Hback & _).
  rewrite (Hback Hab Ha Hb Hnone).
  rewrite (updatedRowData_same_own "Amount" Store.number d (JStr "100")) by reflexivity.
  reflexivity.
Defined.

(** ** Reading a table *)

(** Reading a table makes both reading calls, the columns and then the
    rows, whatever the first gives, and changes nothing in the store.  What a
    call that succeeds gives is shown, each row with a data object ([null]
    becomes the empty object); for a call that fails the message is shown and
    the page shows no column, or no row, instead of what it showed before.
    Nothing else of the page changes. *)
Theorem load_table_data_outcomes
    (tableId : string) (p : TablesPage.Page) (w : Store.World) :
  let p' := fst (TablesPage.loadTableData tableId p w) in
  let w' := snd (TablesPage.loadTableData tableId p w) in
  Store.calls w'
  = (Store.calls w ++ [Store.SelectColumns tableId; Store.SelectRows tableId])%list
  /\ Store.db w' = Store.db w
  /\ (TablesPage.succeeds w 0 ->
      TablesPage.columns p' = TablesPage.loadedColumns tableId (Store.db w))
  /\ (TablesPage.succeeds w 1 ->
      TablesPage.rows p' = TablesPage.loadedRows tableId (Store.db w)
      /\ Forall (fun r => Store.row_data r <> None) (TablesPage.rows p'))
  /\ (forall m,
         TablesPage.fails w 0 m ->
         TablesPage.columns p' = [] /\ Store.ToastError m ∈ Store.toasts w')
  /\ (forall m,
         TablesPage.fails w 1 m ->
         TablesPage.rows p' = [] /\ Store.ToastError m ∈ Store.toasts w')
  /\ (TablesPage.succeeds w 0 -> TablesPage.succeeds w 1 ->
      Store.toasts w' = Store.toasts w)
  /\ p' = TablesPage.setRows (TablesPage.rows p')
            (TablesPage.setColumns (TablesPage.columns p') p).
Proof.
  intros p' w'. subst p' w'.
  unfold TablesPage.loadTableData, Store.bind, Store.supabase, Store.toast,
    TablesPage.succeeds, TablesPage.fails.
  destruct (Store.faults w) as [| [m0 |] [| [m1 |] fs]]; simpl;
    (split; [now rewrite <- app_assoc |]); (split; [reflexivity |]);
    (split; [first [reflexivity | intros Hok; exfalso; eapply Hok; reflexivity] |]);
    (split; [first [ intros _; split; [reflexivity |];
                     apply Forall_fmap, Forall_true; intros r; discriminate
                   | intros Hok; exfalso; eapply Hok; reflexivity ] |]);
    (split; [intros m Hm;
             first [ discriminate Hm
                   | injection Hm as <-; split; [reflexivity |];
                     rewrite ?elem_of_app, !list_elem_of_singleton; tauto ] |]);
    (split; [intros m Hm;
             first [ discriminate Hm
                   | injection Hm as <-; split; [reflexivity |];
                     rewrite ?elem_of_app, !list_elem_of_singleton; tauto ] |]);
    (split; [first [ reflexivity
                   | intros Hok; exfalso; eapply Hok; reflexivity
                   | intros _ Hok; exfalso; eapply Hok; reflexivity ] |]);
    reflexivity.
Qed.

(** ** Row updates that fail *)

Section QuietUpdates.

Import Store Mutation TablesPage TableHandlers.

Variable upd : DbRow -> option (gmap string JsVal).

(** The loop over the rows shows nothing, whatever its calls give; it uses
    one outcome per call, touches the rows only, and not even them when
    every call fails. *)
Lemma forEach_quiet (l : list DbRow) :
  forall w,
    let w1 := snd (forEach (updateOf upd) l w) in
    toasts w1 = toasts w
    /\ user_columns (db w1) = user_columns (db w)
    /\ user_tables (db w1) = user_tables (db w)
    /\ faults w1 = drop (updatesOf upd l) (faults w)
    /\ (Forall (fun f => f <> None) (take (updatesOf upd l) (faults w)) ->
        updatesOf upd l <= length (faults w) ->
        db w1 = db w).
Proof.
  unfold updatesOf.
  induction l as [| r l IH]; intros w; cbv zeta.
  - simpl. repeat split.
  - simpl forEach. unfold bind.
    destruct (updateOf upd r w) as [[] w2] eqn:Hstep.
    specialize (IH w2). cbv zeta in IH. destruct IH as (Ht & Hc & Htb & Hfl & Hdb).
    unfold updateOf in Hstep.
    change (omap upd (r :: l))
      with (match upd r with Some y => y :: omap upd l | None => omap upd l end).
    set (n := length (omap upd l)) in *.
    destruct (upd r) as [data |] eqn:Hr.
    + unfold bind, supabase in Hstep.
      change (length (data :: omap upd l)) with (S n).
      destruct (faults w) as [| [m |] fs] eqn:Hf; simpl in Hstep;
        injection Hstep as <-; simpl in Ht, Hc, Htb, Hfl, Hdb.
      * split; [exact Ht |]. split; [exact Hc |]. split; [exact Htb |].
        split; [rewrite Hfl; now rewrite drop_nil |].
        intros _ Hlen. simpl in Hlen. lia.
      * split; [exact Ht |]. split; [exact Hc |]. split; [exact Htb |].
        split; [exact Hfl |].
        intros Hall Hlen. simpl in Hall. apply Forall_cons in Hall as [_ Hall].
        apply Hdb; [exact Hall | simpl in Hlen; lia].
      * split; [exact Ht |]. split; [exact Hc |]. split; [exact Htb |].
        split; [exact Hfl |].
        intros Hall _. simpl in Hall. apply Forall_cons in Hall as [Hnone _]. congruence.
    + injection Hstep as <-. now repeat split.
Qed.

End QuietUpdates.

Section QuietHandlers.

Import Store Mutation TablesPage TableHandlers.

Lemma loadTableData_quiet (tableId : string) (p : Page) (w : World) :
  faults w = [] ->
  toasts (snd (loadTableData tableId p w)) = toasts w
  /\ db (snd (loadTableData tableId p w)) = db w.
Proof.
  intros Hf. unfold loadTableData, bind, supabase. rewrite Hf. simpl. now split.
Qed.

(** The end of the three column handlers, after the first call has
    succeeded: the loop, the message and the reload. *)
Lemma column_handler_tail (upd : DbRow -> option (gmap string JsVal))
    (msg tableId : string) (p p1 : Page) (w : World) :
  updatesOf upd (rows p) = length (faults w) ->
  let w' :=
    snd ((forEach (updateOf upd) (rows p) ;;;
          toast (ToastSuccess msg) ;;;
          loadTableData tableId p1) w) in
  toasts w' = (toasts w ++ [ToastSuccess msg])%list
  /\ user_columns (db w') = user_columns (db w)
  /\ (Forall (fun f => f <> None) (faults w) -> db w' = db w).
Proof.
  intros Hlen. cbv zeta. unfold bind.
  destruct (forEach_quiet upd (rows p) w) as (Ht & Hc & _ & Hfl & Hdb).
  destruct (forEach (updateOf upd) (rows p) w) as [[] w1]. simpl in Ht, Hc, Hfl, Hdb.
  rewrite Hlen, drop_all in Hfl. rewrite Hlen, firstn_all in Hdb.
  unfold bind, toast.
  match goal with
  | |- context [loadTableData tableId p1 ?w2] =>
    destruct (loadTableData_quiet tableId p1 w2 Hfl) as [Hlt Hld];
    destruct (loadTableData tableId p1 w2) as [p3 w3]
  end.
  simpl in Hlt, Hld. cbv beta iota. cbn [snd].
  split; [now rewrite Hlt, Ht |]. split; [now rewrite Hld, Hc |].
  intros Hall. rewrite Hld. apply Hdb; [exact Hall | lia].
Qed.

Lemma updatesOf_all (f : DbRow -> gmap string JsVal) (l : list DbRow) :
  updatesOf (fun r => Some (f r)) l = length l.
Proof.
  unfold updatesOf. induction l as [| r l IH]; [reflexivity |].
  change (omap (fun r => Some (f r)) (r :: l))
    with (f r :: omap (fun r => Some (f r)) l).
  simpl length. now rewrite IH.
Qed.

End QuietHandlers.

(** The column handlers do not look at what their row updates give.  When
    the first call (on the column record) succeeds and the reload does, the
    only message is the success message, whatever the outcomes of the row
    updates in between; and when every one of these fails the rows of the
    store are as they were, while the column record is changed as asked. *)
Theorem row_update_failures_are_silent `{Host}
    (col : Store.DbColumn) (p : TablesPage.Page) (w : Store.World)
    (sel : Store.DbTable) (outcomes : list (option string)) :
  TablesPage.selectedTable p = Some sel ->
  Store.faults w = None :: outcomes ->
  let silent (handler : Store.M TablesPage.Page) (updates : nat) (msg : string)
             (columns' : list Store.DbColumn) :=
    length outcomes = updates ->
    Store.toasts (snd (handler w)) = (Store.toasts w ++ [Store.ToastSuccess msg])%list
    /\ Store.user_columns (Store.db (snd (handler w))) = columns'
    /\ (Forall (fun f => f <> None) outcomes ->
        Store.user_rows (Store.db (snd (handler w))) = Store.user_rows (Store.db w)) in
  silent (TableHandlers.handleDeleteColumn col p)
         (TableHandlers.updatesOf (TableHandlers.withoutKey (Store.c_name col))
            (TablesPage.rows p))
         "Column deleted"
         (filter (fun c => Store.c_id c <> Store.c_id col)
                 (Store.user_columns (Store.db w)))
  /\ (JsString.trim (TablesPage.newColumnName p) <> "" ->
      silent (TablesPage.handleAddColumn p)
             (TableHandlers.updatesOf
                (TableHandlers.withKey (JsString.trim (TablesPage.newColumnName p)))
                (TablesPage.rows p))
             "Column added"
             (Store.user_columns
                (snd (Store.run
                        (Store.InsertColumn (Store.t_id sel)
                           (JsString.trim (TablesPage.newColumnName p))
                           (Store.typeName (TablesPage.newColumnType p)))
                        (Store.db w)))))
  /\ (JsString.trim (TablesPage.editingColumnName p) <> "" ->
      silent (TablesPage.handleColumnUpdate col p)
             (length (TablesPage.rows p))
             "Column updated"
             (map (Store.updateColumn (Store.c_id col)
                     (JsString.trim (TablesPage.editingColumnName p))
                     (Store.typeName (TablesPage.editingColumnType p)))
                  (Store.user_columns (Store.db w)))).
Proof.
  intros Hsel Hfaults silent. subst silent. cbv beta.
  split; [| split].
  - intros Hlen.
    set (upd := TableHandlers.withoutKey (Store.c_name col)).
    set (w1 := {| Store.db :=
                    Store.withColumns
                      (filter (fun c => Store.c_id c <> Store.c_id col)
                              (Store.user_columns (Store.db w))) (Store.db w);
                  Store.faults := outcomes; Store.calls := Store.calls w;
                  Store.toasts := Store.toasts w |}).
    assert (Heq : TableHandlers.handleDeleteColumn col p w
                  = (Store.forEach (TablesPage.updateOf upd) (TablesPage.rows p) ;;;
                     Store.toast (Store.ToastSuccess "Column deleted") ;;;
                     TablesPage.loadTableData (Store.t_id sel) p) w1).
    { unfold TableHandlers.handleDeleteColumn. rewrite Hsel.
      rewrite (forEach_ext _ (TablesPage.updateOf upd))
        by (intros r; unfold TablesPage.updateOf, upd, TableHandlers.withoutKey;
            now destruct (JsValue.has (Store.rd r) (Store.c_name col))).
      unfold Store.bind at 1. unfold Mutation.request. now rewrite Hfaults. }
    rewrite Heq.
    destruct (column_handler_tail upd "Column deleted" (Store.t_id sel) p p w1
                (eq_sym Hlen)) as (Ht & Hc & Hdb).
    cbv zeta in Ht, Hc, Hdb. rewrite Ht, Hc.
    split; [reflexivity |]. split; [reflexivity |].
    intros Hall. now rewrite (Hdb Hall).
  - intros Hname Hlen.
    set (colName := JsString.trim (TablesPage.newColumnName p)) in *.
    set (upd := TableHandlers.withKey colName).
    set (w1 := {| Store.db :=
                    snd (Store.run
                           (Store.InsertColumn (Store.t_id sel) colName
                              (Store.typeName (TablesPage.newColumnType p)))
                           (Store.db w));
                  Store.faults := outcomes;
                  Store.calls :=
                    (Store.calls w
                     ++ [Store.InsertColumn (Store.t_id sel) colName
                           (Store.typeName (TablesPage.newColumnType p))])%list;
                  Store.toasts := Store.toasts w |}).
    assert (Heq : TablesPage.handleAddColumn p w
                  = (Store.forEach (TablesPage.updateOf upd) (TablesPage.rows p) ;;;
                     Store.toast (Store.ToastSuccess "Column added") ;;;
                     TablesPage.loadTableData (Store.t_id sel)
                       (TablesPage.closeColumnDialog p)) w1).
    { unfold TablesPage.handleAddColumn. rewrite Hsel. subst upd w1. fold colName.
      destruct colName as [| a name]; [contradiction |].
      rewrite (forEach_ext _ (TablesPage.updateOf (TableHandlers.withKey (String a name))))
        by (intros r; unfold TablesPage.updateOf, TableHandlers.withKey;
            now destruct (JsValue.get (Store.rd r) (String a name))).
      unfold Store.bind at 1. unfold Store.supabase. now rewrite Hfaults. }
    rewrite Heq.
    destruct (column_handler_tail upd "Column added" (Store.t_id sel) p
                (TablesPage.closeColumnDialog p) w1 (eq_sym Hlen)) as (Ht & Hc & Hdb).
    cbv zeta in Ht, Hc, Hdb. rewrite Ht, Hc.
    split; [reflexivity |]. split; [reflexivity |].
    intros Hall. now rewrite (Hdb Hall).
  - intros Hname Hlen.
    set (newName := JsString.trim (TablesPage.editingColumnName p)) in *.
    set (upd := fun r : Store.DbRow =>
                  Some (TablesPage.updatedRowData (Store.c_name col) newName
                          (TablesPage.editingColumnType p) (Store.rd r))).
    set (w1 := {| Store.db :=
                    Store.withColumns
                      (map (Store.updateColumn (Store.c_id col) newName
                              (Store.typeName (TablesPage.editingColumnType p)))
                           (Store.user_columns (Store.db w))) (Store.db w);
                  Store.faults := outcomes;
                  Store.calls :=
                    (Store.calls w
                     ++ [Store.UpdateColumn (Store.c_id col) newName
                           (Store.typeName (TablesPage.editingColumnType p))])%list;
                  Store.toasts := Store.toasts w |}).
    assert (Heq : TablesPage.handleColumnUpdate col p w
                  = (Store.forEach (TablesPage.updateOf upd) (TablesPage.rows p) ;;;
                     Store.toast (Store.ToastSuccess "Column updated") ;;;
                     TablesPage.loadTableData (Store.t_id sel)
                       (TablesPage.closeColumnEdit p)) w1).
    { unfold TablesPage.handleColumnUpdate. rewrite Hsel. subst upd w1. fold newName.
      destruct newName as [| a name]; [contradiction |].
      unfold Store.bind at 1. unfold Store.supabase. now rewrite Hfaults. }
    assert (Hcount : TableHandlers.updatesOf upd (TablesPage.rows p)
                     = length (TablesPage.rows p)).
    { apply updatesOf_all. }
    rewrite Heq.
    destruct (column_handler_tail upd "Column updated" (Store.t_id sel) p
                (TablesPage.closeColumnEdit p) w1 (eq_trans Hcount (eq_sym Hlen)))
      as (Ht & Hc & Hdb).
    cbv zeta in Ht, Hc, Hdb. rewrite Ht, Hc.
    split; [reflexivity |]. split; [reflexivity |].
    intros Hall. now rewrite (Hdb Hall).
Qed.

(** [row_update_failures_are_silent] on the Sales table: the column Amount is
    deleted, the updates of both rows fail, the rows keep their amounts and
    the only message is that the column is deleted. *)
Lemma row_update_failures_are_silent_witness :
  let p := Examples.salesPage in
  let w := {| Store.db := Examples.salesDb;
              Store.faults := [None; Some "offline"; Some "offline"];
              Store.calls := []; Store.toasts := [] |} in
  let w' := snd (TableHandlers.handleDeleteColumn Examples.amountColumn p w) in
  TablesPage.selectedTable p = Some Examples.salesTable
  /\ Store.faults w = None :: [Some "offline"; Some "offline"]
  /\ length [Some "offline"; Some "offline"]
     = TableHandlers.updatesOf (TableHandlers.withoutKey "Amount") (TablesPage.rows p)
  /\ Store.toasts w' = [Store.ToastSuccess "Column deleted"]
  /\ Store.user_columns (Store.db w') = [Examples.itemColumn]
  /\ Store.user_rows (Store.db w') = [Examples.penRow; Examples.bookRow].
Proof.
  intros p w w'.
  assert (Hsel : TablesPage.selectedTable p = Some Examples.salesTable) by reflexivity.
  assert (Hfaults : Store.faults w = None :: [Some "offline"; Some "offline"])
    by reflexivity.
  assert (Hlen : length [Some "offline"; Some "offline"]
                 = TableHandlers.updatesOf (TableHandlers.withoutKey "Amount")
                     (TablesPage.rows p)) by reflexivity.
  repeat (split; [assumption |]).
  destruct (@row_update_failures_are_silent plainHost Examples.amountColumn p w
              Examples.salesTable _ Hsel Hfaults) as (Hdelete & _).
  destruct (Hdelete Hlen) as (Htoasts & Hcols & Hrows).
  split; [exact Htoasts |]. split; [exact Hcols |].
  apply Hrows. repeat constructor; discriminate.
Defined.

(** ** Saving, reopening and deleting documents *)

Section Documents2.

Import InvoicesPage DocumentStore DocumentPage.

(** [refresh] reads: it changes the list shown at most. *)
Lemma refresh_outcome (s : Screen) (w : World) :
  shelf (snd (refresh s w)) = shelf w
  /\ (fst (refresh s w) = s
      \/ exists uid,
           profile s = Some uid
           /\ fst (refresh s w)
              = setFreshDocs
                  (rev (filter (fun d => d_user_id d = uid) (invoices (shelf w)))) s).
Proof.
  unfold refresh. destruct (profile s) as [uid |] eqn:Hp; [| now split; [| left]].
  unfold DocumentStore.bind, supabase.
  destruct (faults w) as [| [m |] fs]; simpl.
  - split; [reflexivity |]. right. now exists uid.
  - split; [reflexivity |]. now left.
  - split; [reflexivity |]. right. now exists uid.
Qed.

Lemma refresh_calm (s : Screen) (w : World) (uid : string) :
  profile s = Some uid -> faults w = [] ->
  refresh s w
  = (setFreshDocs (rev (filter (fun d => d_user_id d = uid) (invoices (shelf w)))) s,
     w).
Proof.
  intros Hp Hf. unfold refresh. rewrite Hp. unfold DocumentStore.bind, supabase.
  rewrite Hf. simpl. destruct w as [sh fs ts]. simpl in Hf. now subst fs.
Qed.

(** [save] step by step. *)
Lemma save_run (s : Screen) (w : World) (uid : string) :
  profile s = Some uid ->
  JsString.trim (doc_no (form s)) <> "" ->
  JsString.trim (customer_name (form s)) <> "" ->
  save s w
  = match faults w with
    | Some m :: fs =>
      (s, {| shelf := shelf w; faults := fs;
             toasts := (toasts w ++ [Store.ToastError m])%list |})
    | _ =>
      refresh
        {| profile := profile s; docs := docs s; showCreate := false;
           showEdit := showEdit s; editingId := editingId s; form := initialForm;
           shared := None |}
        {| shelf := snd (run (InsertInvoice uid (payload (form s))) (shelf w));
           faults := tail (faults w);
           toasts := (toasts w ++ [Store.ToastSuccess "Document saved!"])%list |}
    end.
Proof.
  intros Hp Hno Hname. unfold save. rewrite Hp.
  destruct (JsString.trim (doc_no (form s))); [contradiction |].
  destruct (JsString.trim (customer_name (form s))); [contradiction |].
  unfold DocumentStore.bind at 1. unfold supabase.
  destruct (faults w) as [| [m |] fs]; reflexivity.
Qed.

Lemma saveEdit_run (s : Screen) (w : World) (eid : string) :
  editingId s = Some eid -> eid <> "" ->
  JsString.trim (doc_no (form s)) <> "" ->
  JsString.trim (customer_name (form s)) <> "" ->
  saveEdit s w
  = match faults w with
    | Some m :: fs =>
      (s, {| shelf := shelf w; faults := fs;
             toasts := (toasts w ++ [Store.ToastError m])%list |})
    | _ =>
      refresh
        {| profile := profile s; docs := docs s; showCreate := showCreate s;
           showEdit := false; editingId := None; form := form s;
           shared := shared s |}
        {| shelf := snd (run (UpdateInvoice eid (payload (form s))) (shelf w));
           faults := tail (faults w);
           toasts := (toasts w ++ [Store.ToastSuccess "Document updated!"])%list |}
    end.
Proof.
  intros He Hne Hno Hname. unfold saveEdit. rewrite He.
  destruct eid as [| a eid]; [contradiction |].
  destruct (JsString.trim (doc_no (form s))); [contradiction |].
  destruct (JsString.trim (customer_name (form s))); [contradiction |].
  unfold DocumentStore.bind at 1. unfold supabase.
  destruct (faults w) as [| [m |] fs]; reflexivity.
Qed.

End Documents2.

(** A document is stored only with a number and a customer name: [save]
    checks the number first, then the name, and refuses a blank one before
    any call, leaving the form as it is.  When the call fails the form and
    the dialog are kept and the message is shown.  When it succeeds one
    record is added for the user, last, with the number and the name
    trimmed and the type, the other customer fields, the items, the totals
    and the currency of the form, the numbers as JSON keeps them; the dialog
    is closed, the form is the
    initial one again and the list is read again, the new document first. *)
Theorem save_checks_then_stores
    (s : DocumentPage.Screen) (w : DocumentStore.World) (uid : string) :
  DocumentPage.profile s = Some uid ->
  let s' := fst (DocumentPage.save s w) in
  let w' := snd (DocumentPage.save s w) in
  let f := DocumentPage.form s in
  (JsString.trim (InvoicesPage.doc_no f) = "" ->
   s' = s /\ DocumentStore.shelf w' = DocumentStore.shelf w
   /\ DocumentStore.faults w' = DocumentStore.faults w
   /\ DocumentStore.toasts w'
      = (DocumentStore.toasts w ++ [Store.ToastError "Document No. required"])%list)
  /\ (JsString.trim (InvoicesPage.doc_no f) <> "" ->
      JsString.trim (InvoicesPage.customer_name f) = "" ->
      s' = s /\ DocumentStore.shelf w' = DocumentStore.shelf w
      /\ DocumentStore.faults w' = DocumentStore.faults w
      /\ DocumentStore.toasts w'
         = (DocumentStore.toasts w ++ [Store.ToastError "Customer name required"])%list)
  /\ (forall m rest,
         JsString.trim (InvoicesPage.doc_no f) <> "" ->
         JsString.trim (InvoicesPage.customer_name f) <> "" ->
         DocumentStore.faults w = Some m :: rest ->
         s' = s /\ DocumentStore.shelf w' = DocumentStore.shelf w
         /\ DocumentStore.toasts w'
            = (DocumentStore.toasts w ++ [Store.ToastError m])%list)
  /\ (JsString.trim (InvoicesPage.doc_no f) <> "" ->
      JsString.trim (InvoicesPage.customer_name f) <> "" ->
      DocumentStore.faults w = [] ->
      exists d,
        DocumentStore.invoices (DocumentStore.shelf w')
        = (DocumentStore.invoices (DocumentStore.shelf w) ++ [d])%list
        /\ DocumentStore.d_user_id d = uid
        /\ DocumentStore.d_doc_no d = Some (JsString.trim (InvoicesPage.doc_no f))
        /\ DocumentStore.d_customer_name d
           = Some (JsString.trim (InvoicesPage.customer_name f))
        /\ DocumentStore.d_customer_address d = Some (InvoicesPage.customer_address f)
        /\ DocumentStore.d_customer_phone d = Some (InvoicesPage.customer_phone f)
        /\ DocumentStore.d_type d = Some (InvoicesPage.type f)
        /\ DocumentStore.d_items d
           = Some (map DocumentStore.storedItem (InvoicesPage.items f))
        /\ DocumentStore.d_totals d
           = Some (DocumentStore.storedTotals (InvoicesPage.totals f))
        /\ DocumentStore.d_currency_code d = Some (InvoicesPage.currency_code f)
        /\ DocumentPage.form s' = InvoicesPage.initialForm
        /\ DocumentPage.showCreate s' = false
        /\ DocumentPage.docs s'
           = d :: rev (filter (fun d => DocumentStore.d_user_id d = uid)
                              (DocumentStore.invoices (DocumentStore.shelf w)))
        /\ DocumentStore.toasts w'
           = (DocumentStore.toasts w ++ [Store.ToastSuccess "Document saved!"])%list).
Proof.
  intros Hp s' w' f. subst s' w' f.
  split; [| split; [| split]].
  - intros Hno. unfold DocumentPage.save. rewrite Hp, Hno. simpl. repeat split.
  - intros Hno Hname. unfold DocumentPage.save. rewrite Hp.
    destruct (JsString.trim (InvoicesPage.doc_no (DocumentPage.form s)));
      [contradiction |].
    rewrite Hname. simpl. repeat split.
  - intros m rest Hno Hname Hf. rewrite (save_run s w uid Hp Hno Hname), Hf.
    simpl. repeat split.
  - intros Hno Hname Hf. rewrite (save_run s w uid Hp Hno Hname), Hf.
    rewrite (refresh_calm _ _ uid) by (exact Hp || reflexivity).
    cbn [fst snd DocumentStore.run DocumentStore.shelf DocumentStore.invoices
         DocumentStore.toasts DocumentPage.form DocumentPage.showCreate
         DocumentPage.docs DocumentPage.setDocs DocumentPage.setFreshDocs].
    eexists. split; [reflexivity |].
    repeat (split; [reflexivity |]).
    split; [| reflexivity].
    rewrite filter_app, rev_app_distr, filter_cons. simpl.
    destruct (decide (uid = uid)); [reflexivity | contradiction].
Qed.

Section DocumentInvariants.

Import InvoicesPage DocumentStore DocumentPage.

(** What a handler that writes can have done to the store and the page. *)
Lemma save_outcome (s : Screen) (w : World) :
  let s' := fst (save s w) in
  let w' := snd (save s w) in
  (shelf w' = shelf w /\ s' = s)
  \/ exists uid,
       JsString.trim (doc_no (form s)) <> ""
       /\ JsString.trim (customer_name (form s)) <> ""
       /\ shelf w' = snd (run (InsertInvoice uid (payload (form s))) (shelf w))
       /\ form s' = initialForm
       /\ (docs s' = docs s
           \/ exists uid',
                docs s' = rev (filter (fun d => d_user_id d = uid') (invoices (shelf w')))).
Proof.
  cbv zeta. destruct (profile s) as [uid |] eqn:Hp;
    [| left; unfold save; rewrite Hp; now split].
  destruct (JsString.trim (doc_no (form s))) as [| a n] eqn:Hno;
    [left; unfold save; rewrite Hp, Hno; now split |].
  destruct (JsString.trim (customer_name (form s))) as [| b c] eqn:Hname;
    [left; unfold save; rewrite Hp, Hno, Hname; now split |].
  rewrite (save_run s w uid Hp) by (rewrite ?Hno, ?Hname; discriminate).
  destruct (faults w) as [| [m |] fs]; [| left; now split |].
  - right. exists uid.
    split; [discriminate |]. split; [discriminate |].
    match goal with
    | |- context [refresh ?s1 ?w1] =>
      destruct (refresh_outcome s1 w1) as [Hsh [Hs | (uid' & _ & Hs)]]
    end; rewrite Hsh, Hs; (split; [reflexivity |]); (split; [reflexivity |]).
    + now left.
    + right. exists uid'. reflexivity.
  - right. exists uid.
    split; [discriminate |]. split; [discriminate |].
    match goal with
    | |- context [refresh ?s1 ?w1] =>
      destruct (refresh_outcome s1 w1) as [Hsh [Hs | (uid' & _ & Hs)]]
    end; rewrite Hsh, Hs; (split; [reflexivity |]); (split; [reflexivity |]).
    + now left.
    + right. exists uid'. reflexivity.
Qed.

Lemma saveEdit_outcome (s : Screen) (w : World) :
  let s' := fst (saveEdit s w) in
  let w' := snd (saveEdit s w) in
  (shelf w' = shelf w /\ s' = s)
  \/ exists eid,
       JsString.trim (doc_no (form s)) <> ""
       /\ JsString.trim (customer_name (form s)) <> ""
       /\ shelf w' = snd (run (UpdateInvoice eid (payload (form s))) (shelf w))
       /\ form s' = form s
       /\ (docs s' = docs s
           \/ exists uid',
                docs s' = rev (filter (fun d => d_user_id d = uid') (invoices (shelf w')))).
Proof.
  cbv zeta. destruct (editingId s) as [[| e eid] |] eqn:He;
    try (left; unfold saveEdit; rewrite He; now split).
  destruct (JsString.trim (doc_no (form s))) as [| a n] eqn:Hno;
    [left; unfold saveEdit; rewrite He, Hno; now split |].
  destruct (JsString.trim (customer_name (form s))) as [| b c] eqn:Hname;
    [left; unfold saveEdit; rewrite He, Hno, Hname; now split |].
  rewrite (saveEdit_run s w (String e eid) He)
    by (rewrite ?Hno, ?Hname; discriminate).
  destruct (faults w) as [| [m |] fs]; [| left; now split |].
  - right. exists (String e eid).
    split; [discriminate |]. split; [discriminate |].
    match goal with
    | |- context [refresh ?s1 ?w1] =>
      destruct (refresh_outcome s1 w1) as [Hsh [Hs | (uid' & _ & Hs)]]
    end; rewrite Hsh, Hs; (split; [reflexivity |]); (split; [reflexivity |]).
    + now left.
    + right. exists uid'. reflexivity.
  - right. exists (String e eid).
    split; [discriminate |]. split; [discriminate |].
    match goal with
    | |- context [refresh ?s1 ?w1] =>
      destruct (refresh_outcome s1 w1) as [Hsh [Hs | (uid' & _ & Hs)]]
    end; rewrite Hsh, Hs; (split; [reflexivity |]); (split; [reflexivity |]).
    + now left.
    + right. exists uid'. reflexivity.
Qed.

Lemma deleteDoc_outcome (id : string) (s : Screen) (w : World) :
  let s' := fst (deleteDoc id s w) in
  let w' := snd (deleteDoc id s w) in
  (shelf w' = shelf w /\ s' = s)
  \/ (shelf w' = snd (run (DeleteInvoice id) (shelf w))
      /\ s' = setDocs (filter (fun d => d_id d <> id) (docs s)) s).
Proof.
  cbv zeta. unfold deleteDoc, DocumentStore.bind, supabase.
  destruct (faults w) as [| [m |] fs]; simpl; [right | left | right]; now split.
Qed.

End DocumentInvariants.

(** [save_checks_then_stores] on the first invoice of a user: the number
    and the name are stored without the spaces typed around them. *)
Lemma save_checks_then_stores_witness :
  let s := DocumentScenario.newInvoice in
  let w := DocumentScenario.emptyWorld in
  DocumentPage.profile s = Some "u1"
  /\ JsString.trim (InvoicesPage.doc_no (DocumentPage.form s)) <> ""
  /\ JsString.trim (InvoicesPage.customer_name (DocumentPage.form s)) <> ""
  /\ DocumentStore.faults w = []
  /\ exists d,
       DocumentStore.invoices (DocumentStore.shelf (snd (DocumentPage.save s w))) = [d]
       /\ DocumentStore.d_doc_no d = Some "INV-001"
       /\ DocumentStore.d_customer_name d = Some "Asha Traders"
       /\ DocumentPage.docs (fst (DocumentPage.save s w)) = [d]
       /\ DocumentPage.form (fst (DocumentPage.save s w)) = InvoicesPage.initialForm.
Proof.
  intros s w.
  assert (Hp : DocumentPage.profile s = Some "u1") by reflexivity.
  assert (Hno : JsString.trim (InvoicesPage.doc_no (DocumentPage.form s)) <> "")
    by discriminate.
  assert (Hname : JsString.trim (InvoicesPage.customer_name (DocumentPage.form s)) <> "")
    by discriminate.
  assert (Hf : DocumentStore.faults w = []) by reflexivity.
  repeat (split; [assumption |]).
  destruct (save_checks_then_stores s w "u1" Hp) as (_ & _ & _ & Hok).
  destruct (Hok Hno Hname Hf)
    as (d & Hinv & _ & Hdno & Hdname & _ & _ & _ & _ & _ & _ & Hform & _ & Hdocs & _).
  exists d. split; [exact Hinv |]. split; [exact Hdno |]. split; [exact Hdname |].
  split; [exact Hdocs | exact Hform].
Defined.

Section DocumentSteps.

Import InvoicesPage DocumentStore DocumentPage.

Lemma hasItems_docOf (id uid created : string) (x : Payload) :
  p_items x <> [] -> hasItems (docOf id uid created x).
Proof. unfold hasItems. simpl. now destruct (p_items x). Qed.

Lemma Forall_rev_filter {A} (P : A -> Prop) (Q : A -> Prop) `{forall x, Decision (Q x)}
    (l : list A) :
  Forall P l -> Forall P (rev (filter Q l)).
Proof.
  intros Hl. apply Forall_forall. intros x Hx.
  apply elem_of_rev, list_elem_of_filter in Hx as [_ Hx].
  rewrite Forall_forall in Hl. now apply Hl.
Qed.

Lemma Forall_filter_keep {A} (P : A -> Prop) (Q : A -> Prop)
    `{forall x, Decision (Q x)} (l : list A) :
  Forall P l -> Forall P (filter Q l).
Proof.
  intros Hl. apply Forall_forall. intros x Hx.
  apply list_elem_of_filter in Hx as [_ Hx].
  rewrite Forall_forall in Hl. now apply Hl.
Qed.

(** An assignment into an item of a listed document leaves the document
    as many items as it has. *)
Lemma hasItems_docsAfter (e : Event) (s : Screen) :
  Forall hasItems (docs s) -> Forall hasItems (docsAfter e s).
Proof.
  unfold docsAfter. destruct (assignment e) as [[idx fv] |]; [| auto].
  destruct (shared s) as [[id links] |]; [| auto].
  destruct (links !! idx) as [[i |] |]; auto.
  intros Hdocs. apply Forall_fmap. eapply Forall_impl; [exact Hdocs |].
  intros d Hd. simpl. destruct (decide (d_id d = id)); [| exact Hd].
  unfold hasItems in *. simpl.
  destruct (d_items d) as [[| x l] |]; simpl; auto. now destruct i.
Qed.

(** The form and the list hold one item object: what an assignment makes
    of the item of the form is what it makes of the item of the list. *)
Lemma heldItem_assignStored (fv : FieldValue) (i : StoredItem) :
  heldItem (assignStored fv i) = assign fv (heldItem i).
Proof. destruct fv; reflexivity. Qed.

Lemma edited_item_in_common (e : Event) (idx : nat) (fv : FieldValue)
    (f f' : InvoiceData) (i : StoredItem) :
  assignment e = Some (idx, fv) ->
  items f !! idx = Some (heldItem i) ->
  handle e f = Some f' ->
  items f' !! idx = Some (heldItem (assignStored fv i)).
Proof.
  intros He Hi Hf.
  assert (Hup : updateItem idx fv f = Some f')
    by (destruct e; simpl in He; try discriminate; injection He as <- <-; exact Hf).
  destruct (updateItem_items _ _ _ _ Hup) as (i0 & Hi0 & ->).
  rewrite Hi in Hi0. injection Hi0 as <-.
  rewrite list_lookup_insert_eq by (eapply lookup_lt_Some; exact Hi).
  now rewrite heldItem_assignStored.
Qed.

(** One step of the page keeps the items. *)
Lemma step_itemsKept (x y : Screen * World) :
  step x y -> itemsKept (fst x) (snd x) -> itemsKept (fst y) (snd y).
Proof.
  intros [a s w s' w' Hoff Hact] (Hform & Hdocs & Hstore). simpl in *.
  unfold itemsKept.
  destruct a; simpl in Hact, Hoff.
  - unfold DocumentStore.ret in Hact.
    destruct (handle e (form s)) as [f |] eqn:He; [| discriminate].
    injection Hact as <- <-. split; [| split; [| exact Hstore]].
    + simpl. eapply handle_nonempty; eauto.
    + simpl. now apply hasItems_docsAfter.
  - injection Hact as <- <-. now split.
  - injection Hact as <- <-. now split.
  - injection Hact as <- <-. now split.
  - injection Hact as <- <-. now split.
  - injection Hact as <- <-. now split.
  - injection Hact as <- <-. now split.
  - injection Hact as <- <-. now split.
  - injection Hact as <- <-. now split.
  - injection Hact as <- <-. now split.
  - injection Hact as <- <-. now split.
  - unfold DocumentStore.bind, DocumentStore.ret in Hact.
    destruct (save_outcome s w) as [[Hsh Hs] | (uid & _ & _ & Hsh & Hf & Hd)];
      cbv zeta in *; destruct (save s w) as [s1 w1]; simpl in *;
      injection Hact as <- <-.
    + subst s1. rewrite Hsh. now split.
    + assert (Hstore' : Forall hasItems (invoices (shelf w1))).
      { rewrite Hsh. simpl. apply Forall_app. split; [exact Hstore |].
        apply Forall_singleton. now apply hasItems_docOf. }
      split; [rewrite Hf; discriminate |]. split; [| exact Hstore'].
      destruct Hd as [-> | (uid' & ->)]; [exact Hdocs |].
      now apply Forall_rev_filter.
  - injection Hact as <- <-. split; [| now split]. simpl.
    rewrite Forall_forall in Hdocs. specialize (Hdocs d Hoff).
    unfold hasItems in Hdocs. destruct (d_items d) as [[| i its] |];
      [contradiction | discriminate | discriminate].
  - unfold DocumentStore.bind, DocumentStore.ret in Hact.
    destruct (saveEdit_outcome s w) as [[Hsh Hs] | (eid & _ & _ & Hsh & Hf & Hd)];
      cbv zeta in *; destruct (saveEdit s w) as [s1 w1]; simpl in *;
      injection Hact as <- <-.
    + subst s1. rewrite Hsh. now split.
    + assert (Hstore' : Forall hasItems (invoices (shelf w1))).
      { rewrite Hsh. simpl. apply Forall_fmap. eapply Forall_impl; [exact Hstore |].
        intros d Hd'. unfold updateDoc. simpl.
        destruct (decide (d_id d = eid)); [now apply hasItems_docOf | exact Hd']. }
      split; [now rewrite Hf |]. split; [| exact Hstore'].
      destruct Hd as [-> | (uid' & ->)]; [exact Hdocs |].
      now apply Forall_rev_filter.
  - unfold DocumentStore.bind, DocumentStore.ret in Hact.
    match type of Hact with
    | context [deleteDoc ?i s w] =>
      destruct (deleteDoc_outcome i s w) as [[Hsh Hs] | [Hsh Hs]];
        cbv zeta in *; destruct (deleteDoc i s w) as [s1 w1]
    end; simpl in *; injection Hact as <- <-; subst s1; rewrite Hsh.
    + now split.
    + split; [exact Hform |]. simpl. split; now apply Forall_filter_keep.
Qed.

Lemma wellNamed_docOf (id uid created : string) (f : InvoiceData) :
  JsString.trim (doc_no f) <> "" -> JsString.trim (customer_name f) <> "" ->
  wellNamed (docOf id uid created (payload f)).
Proof.
  intros Hno Hname. exists (JsString.trim (doc_no f)), (JsString.trim (customer_name f)).
  simpl. repeat split; try assumption; apply trim_trim.
Qed.

(** One step of the page keeps the names of the stored documents. *)
Lemma step_named (x y : Screen * World) :
  step x y ->
  Forall wellNamed (invoices (shelf (snd x))) ->
  Forall wellNamed (invoices (shelf (snd y))).
Proof.
  intros [a s w s' w' Hoff Hact] Hstore. simpl in *.
  destruct a; simpl in Hact;
    try (unfold DocumentStore.ret in Hact;
         first [ injection Hact as <- <-; exact Hstore
               | destruct (handle e (form s));
                 [injection Hact as <- <-; exact Hstore | discriminate] ]).
  - unfold DocumentStore.bind, DocumentStore.ret in Hact.
    destruct (save_outcome s w) as [[Hsh Hs] | (uid & Hno & Hname & Hsh & _)];
      cbv zeta in *; destruct (save s w) as [s1 w1]; simpl in *;
      injection Hact as <- <-; rewrite Hsh; [exact Hstore |].
    simpl. apply Forall_app. split; [exact Hstore |].
    apply Forall_singleton. now apply wellNamed_docOf.
  - unfold DocumentStore.bind, DocumentStore.ret in Hact.
    destruct (saveEdit_outcome s w) as [[Hsh Hs] | (eid & Hno & Hname & Hsh & _)];
      cbv zeta in *; destruct (saveEdit s w) as [s1 w1]; simpl in *;
      injection Hact as <- <-; rewrite Hsh; [exact Hstore |].
    simpl. apply Forall_fmap. eapply Forall_impl; [exact Hstore |].
    intros d Hd. unfold updateDoc. simpl.
    destruct (decide (d_id d = eid)); [now apply wellNamed_docOf | exact Hd].
  - unfold DocumentStore.bind, DocumentStore.ret in Hact.
    match type of Hact with
    | context [deleteDoc ?i s w] =>
      destruct (deleteDoc_outcome i s w) as [[Hsh Hs] | [Hsh Hs]];
        cbv zeta in *; destruct (deleteDoc i s w) as [s1 w1]
    end; simpl in *; injection Hact as <- <-; rewrite Hsh; [exact Hstore |].
    simpl. now apply Forall_filter_keep.
Qed.

(** Any number of steps does. *)
Lemma steps_itemsKept (x y : Screen * World) :
  rtc step x y -> itemsKept (fst x) (snd x) -> itemsKept (fst y) (snd y).
Proof.
  induction 1 as [x | x y z Hstep _ IH]; [auto |].
  intros Hkept. apply IH. eapply step_itemsKept; eauto.
Qed.

End DocumentSteps.

(** Whatever is done on the page, in whatever order and whichever calls
    fail, no document is left without an item: when the form has an item
    and every document shown and stored has one, this is so after every
    action (editing the form, saving, opening a document of the list for
    editing, updating, deleting, opening and closing the dialogs). *)
Theorem documents_keep_an_item
    (s s' : DocumentPage.Screen) (w w' : DocumentStore.World) :
  DocumentPage.itemsKept s w ->
  rtc DocumentPage.step (s, w) (s', w') ->
  DocumentPage.itemsKept s' w'.
Proof.
  intros Hkept Hsteps. exact (steps_itemsKept (s, w) (s', w') Hsteps Hkept).
Qed.

(** The same for the number and the customer name of the stored documents:
    when every stored document has both, not blank and without white space
    around them, this is so after every action on the page. *)
Theorem documents_keep_their_names
    (s s' : DocumentPage.Screen) (w w' : DocumentStore.World) :
  Forall DocumentPage.wellNamed (DocumentStore.invoices (DocumentStore.shelf w)) ->
  rtc DocumentPage.step (s, w) (s', w') ->
  Forall DocumentPage.wellNamed (DocumentStore.invoices (DocumentStore.shelf w')).
Proof.
  intros Hnamed Hsteps.
  change (Forall DocumentPage.wellNamed
            (DocumentStore.invoices (DocumentStore.shelf (snd (s', w'))))).
  change (Forall DocumentPage.wellNamed
            (DocumentStore.invoices (DocumentStore.shelf (snd (s, w))))) in Hnamed.
  induction Hsteps as [x | x y z Hstep _ IH]; [exact Hnamed |].
  apply IH. eapply step_named; eauto.
Qed.

(** [documents_keep_an_item] on the first invoice of a user: it is saved
    and opened again from the list, with its one item. *)
Lemma documents_keep_an_item_witness :
  let s := DocumentScenario.newInvoice in
  let w := DocumentScenario.emptyWorld in
  let s1 := fst (DocumentPage.save s w) in
  let w1 := snd (DocumentPage.save s w) in
  let d := DocumentStore.docOf "doc-0" "u1" "0"
             (DocumentPage.payload DocumentScenario.firstInvoice) in
  let s2 := DocumentPage.openEdit d s1 in
  DocumentPage.itemsKept s w
  /\ rtc DocumentPage.step (s, w) (s2, w1)
  /\ DocumentPage.itemsKept s2 w1
  /\ length (InvoicesPage.items (DocumentPage.form s2)) = 1.
Proof.
  intros s w s1 w1 d s2.
  assert (Hkept : DocumentPage.itemsKept s w).
  { split; [discriminate |]. split; constructor. }
  assert (Hsteps : rtc DocumentPage.step (s, w) (s2, w1)).
  { eapply rtc_l; [apply (DocumentPage.step_act DocumentPage.ClickSave s w s1 w1);
                   [exact I | reflexivity] |].
    apply rtc_once.
    apply (DocumentPage.step_act (DocumentPage.ClickOpenEdit d) s1 w1 s2 w1);
      [| reflexivity].
    simpl. apply list_elem_of_here. }
  split; [exact Hkept |]. split; [exact Hsteps |].
  split; [exact (documents_keep_an_item s s2 w w1 Hkept Hsteps) | reflexivity].
Defined.

(** [documents_keep_their_names] on the same run. *)
Lemma documents_keep_their_names_witness :
  let s := DocumentScenario.newInvoice in
  let w := DocumentScenario.emptyWorld in
  let s1 := fst (DocumentPage.save s w) in
  let w1 := snd (DocumentPage.save s w) in
  Forall DocumentPage.wellNamed (DocumentStore.invoices (DocumentStore.shelf w))
  /\ rtc DocumentPage.step (s, w) (s1, w1)
  /\ Forall DocumentPage.wellNamed (DocumentStore.invoices (DocumentStore.shelf w1))
  /\ DocumentStore.d_doc_no <$> DocumentStore.invoices (DocumentStore.shelf w1)
     = [Some "INV-001"].
Proof.
  intros s w s1 w1.
  assert (Hnamed : Forall DocumentPage.wellNamed
                     (DocumentStore.invoices (DocumentStore.shelf w)))
    by constructor.
  assert (Hsteps : rtc DocumentPage.step (s, w) (s1, w1)).
  { apply rtc_once.
    apply (DocumentPage.step_act DocumentPage.ClickSave s w s1 w1);
      [exact I | reflexivity]. }
  split; [exact Hnamed |]. split; [exact Hsteps |].
  split; [exact (documents_keep_their_names s s1 w w1 Hnamed Hsteps) | reflexivity].
Defined.

Section Reopening.

Import InvoicesPage DocumentStore DocumentPage.

Lemma orString_Some (x : string) : orString (Some x) "" = x.
Proof. now destruct x. Qed.

Lemma orString_nonempty (x fallback : string) :
  x <> "" -> orString (Some x) fallback = x.
Proof. now destruct x. Qed.

(** A number read back from JSON is written as it was. *)
Lemma jsonNumber_held (x : float) :
  jsonNumber (default PrimFloat.nan (jsonNumber x)) = jsonNumber x.
Proof.
  unfold jsonNumber.
  destruct (PrimFloat.is_finite x) eqn:Hfin; [| reflexivity].
  destruct (PrimFloat.is_zero x) eqn:Hzero; [reflexivity |].
  simpl. now rewrite Hfin, Hzero.
Qed.

Lemma storedItem_held (i : InvoiceItem) :
  storedItem (heldItem (storedItem i)) = storedItem i.
Proof.
  unfold storedItem, heldItem. simpl. now rewrite !jsonNumber_held.
Qed.

Lemma finite_not_nan (x : float) :
  PrimFloat.is_finite x = true -> PrimFloat.is_nan x = false.
Proof.
  unfold PrimFloat.is_finite. intros Hfin.
  destruct (PrimFloat.is_nan x); [discriminate | reflexivity].
Qed.

(** A finite number goes through JSON and [x || 0] and is written as it
    was. *)
Lemma jsonNumber_orNumber (x : float) :
  PrimFloat.is_finite x = true ->
  jsonNumber (orNumber (jsonNumber x)) = jsonNumber x.
Proof.
  intros Hfin. unfold jsonNumber at 2 3. rewrite Hfin.
  destruct (PrimFloat.is_zero x) eqn:Hzero; [reflexivity |].
  unfold orNumber, JsNumber.or0, JsNumber.falsy.
  rewrite (finite_not_nan x Hfin), Hzero. simpl.
  unfold jsonNumber. now rewrite Hfin, Hzero.
Qed.

End Reopening.

(** A document the page has stored and opens again is written back as it
    is when nothing is changed: the form shows the number and the name as
    they were stored (trimmed), the type, the address and the telephone of
    the form that was saved, and the record [saveEdit] builds from it is
    the stored one.  This needs finite totals and terms, note and currency
    that are not empty: [openEdit] replaces the others by [0] and by the
    defaults. *)
Theorem reopened_document_is_written_back
    (f : InvoicesPage.InvoiceData) (id uid created : string)
    (s : DocumentPage.Screen) :
  DocumentPage.plain f ->
  let d := DocumentStore.docOf id uid created (DocumentPage.payload f) in
  let g := DocumentPage.form (DocumentPage.openEdit d s) in
  DocumentPage.editingId (DocumentPage.openEdit d s) = Some id
  /\ InvoicesPage.type g = InvoicesPage.type f
  /\ InvoicesPage.doc_no g = JsString.trim (InvoicesPage.doc_no f)
  /\ InvoicesPage.customer_name g = JsString.trim (InvoicesPage.customer_name f)
  /\ InvoicesPage.customer_address g = InvoicesPage.customer_address f
  /\ InvoicesPage.customer_phone g = InvoicesPage.customer_phone f
  /\ length (InvoicesPage.items g) = length (InvoicesPage.items f)
  /\ DocumentStore.updateDoc id (DocumentPage.payload g) d = d.
Proof.
  intros (Hsub & Hpct & Htax & Htot & Hterms & Hnote & Hcur) d g.
  subst g d. cbn [DocumentPage.openEdit DocumentPage.form DocumentPage.editingId
                  DocumentStore.docOf DocumentStore.d_id DocumentStore.d_type
                  DocumentStore.d_doc_no DocumentStore.d_customer_name
                  DocumentStore.d_customer_address DocumentStore.d_customer_phone
                  DocumentStore.d_items DocumentStore.d_totals
                  DocumentStore.d_currency_code DocumentPage.payload
                  DocumentStore.p_type DocumentStore.p_doc_no
                  DocumentStore.p_customer_name DocumentStore.p_customer_address
                  DocumentStore.p_customer_phone DocumentStore.p_items
                  DocumentStore.p_totals DocumentStore.p_currency_code
                  InvoicesPage.type InvoicesPage.doc_no InvoicesPage.customer_name
                  InvoicesPage.customer_address InvoicesPage.customer_phone
                  InvoicesPage.items InvoicesPage.totals InvoicesPage.currency_code
                  default fmap option_fmap option_map].
  rewrite !orString_Some.
  split; [reflexivity |]. split; [reflexivity |]. split; [reflexivity |].
  split; [reflexivity |]. split; [reflexivity |]. split; [reflexivity |].
  unfold Datatypes.id.
  split.
  { rewrite !length_map. reflexivity. }
  unfold DocumentStore.updateDoc.
  cbn [DocumentStore.d_id DocumentStore.d_user_id DocumentStore.d_created_at
       DocumentStore.docOf].
  destruct (decide (id = id)) as [_ | Hne]; [| contradiction].
  unfold DocumentStore.docOf.
  cbn [DocumentStore.p_type DocumentStore.p_doc_no DocumentStore.p_customer_name
       DocumentStore.p_customer_address DocumentStore.p_customer_phone
       DocumentStore.p_items DocumentStore.p_totals DocumentStore.p_currency_code
       DocumentPage.payload InvoicesPage.type InvoicesPage.doc_no
       InvoicesPage.customer_name InvoicesPage.customer_address
       InvoicesPage.customer_phone InvoicesPage.items InvoicesPage.totals
       InvoicesPage.currency_code].
  rewrite !trim_trim.
  rewrite (orString_nonempty (InvoicesPage.currency_code f)) by exact Hcur.
  f_equal.
  - f_equal. rewrite <- !list_fmap_compose. apply list_fmap_ext.
    intros _ i _. apply storedItem_held.
  - f_equal. unfold DocumentStore.storedTotals.
    cbn [InvoicesPage.subtotal InvoicesPage.tax_percent InvoicesPage.tax_amount
         InvoicesPage.total InvoicesPage.terms InvoicesPage.note
         DocumentStore.s_subtotal DocumentStore.s_tax_percent
         DocumentStore.s_tax_amount DocumentStore.s_total DocumentStore.s_terms
         DocumentStore.s_note mbind option_bind].
    rewrite !jsonNumber_orNumber by assumption.
    rewrite (orString_nonempty (InvoicesPage.terms (InvoicesPage.totals f)))
      by exact Hterms.
    rewrite (orString_nonempty (InvoicesPage.note (InvoicesPage.totals f)))
      by exact Hnote.
    reflexivity.
Qed.

(** [reopened_document_is_written_back] on the first invoice. *)
Lemma reopened_document_is_written_back_witness :
  let f := DocumentScenario.firstInvoice in
  let d := DocumentStore.docOf "doc-0" "u1" "0" (DocumentPage.payload f) in
  let g := DocumentPage.form (DocumentPage.openEdit d DocumentScenario.newInvoice) in
  DocumentPage.plain f
  /\ InvoicesPage.doc_no g = "INV-001"
  /\ InvoicesPage.customer_name g = "Asha Traders"
  /\ DocumentStore.updateDoc "doc-0" (DocumentPage.payload g) d = d.
Proof.
  intros f d g.
  assert (Hplain : DocumentPage.plain f).
  { repeat split; (reflexivity || discriminate). }
  split; [exact Hplain |].
  destruct (reopened_document_is_written_back f "doc-0" "u1" "0"
              DocumentScenario.newInvoice Hplain)
    as (_ & _ & Hno & Hname & _ & _ & _ & Hback).
  split; [exact Hno |]. split; [exact Hname | exact Hback].
Defined.

Section DocumentList.

Import InvoicesPage DocumentStore DocumentPage.

Lemma filter_rev {A} (P : A -> Prop) `{forall x, Decision (P x)} (l : list A) :
  filter P (rev l) = rev (filter P l).
Proof.
  induction l as [| a l IH]; [reflexivity |].
  simpl. rewrite filter_app, IH, filter_cons.
  destruct (decide (P a)); simpl.
  - now rewrite filter_cons_True, filter_nil by assumption.
  - now rewrite filter_cons_False, filter_nil, app_nil_r by assumption.
Qed.

(** Deleting from the list shown is deleting from the store. *)
Lemma listed_delete (id uid : string) (l : list Doc) :
  filter (fun d => d_id d <> id) (rev (filter (fun d => d_user_id d = uid) l))
  = rev (filter (fun d => d_user_id d = uid) (filter (fun d => d_id d <> id) l)).
Proof.
  rewrite filter_rev. f_equal. rewrite !list_filter_filter.
  apply list_filter_iff. intros d. tauto.
Qed.

(** The items apart, the documents of a list are those of the list before
    an assignment into an item. *)
Lemma apart_docsAfter (e : Event) (s : Screen) :
  apartFromItems <$> docsAfter e s = apartFromItems <$> docs s.
Proof.
  unfold docsAfter. destruct (assignment e) as [[idx fv] |]; [| reflexivity].
  destruct (shared s) as [[id links] |]; [| reflexivity].
  destruct (links !! idx) as [[i |] |]; try reflexivity.
  rewrite <- list_fmap_compose. apply list_fmap_ext. intros _ d _. simpl.
  destruct (decide (d_id d = id)); [| reflexivity].
  unfold apartFromItems. simpl. f_equal.
  destruct (d_items d) as [l |]; simpl; [| reflexivity]. now rewrite length_alter.
Qed.

Lemma apart_delete (id : string) (l l' : list Doc) :
  apartFromItems <$> l = apartFromItems <$> l' ->
  apartFromItems <$> filter (fun d => d_id d <> id) l
  = apartFromItems <$> filter (fun d => d_id d <> id) l'.
Proof.
  revert l'. induction l as [| d l IH]; intros [| d' l'] Heq; try discriminate.
  - reflexivity.
  - rewrite !fmap_cons in Heq.
    assert (Hd : apartFromItems d = apartFromItems d') by congruence.
    assert (Hl : apartFromItems <$> l = apartFromItems <$> l') by congruence.
    assert (Hid : d_id d = d_id d')
      by exact (f_equal (fun p : Doc * option nat => d_id (fst p)) Hd).
    rewrite !filter_cons, <- Hid.
    destruct (decide (d_id d <> id)); simpl; [rewrite Hd; f_equal |]; now apply IH.
Qed.

(** One step in which no call fails keeps the list in step, the items
    apart. *)
Lemma step_listedButItems (x y : Screen * World) :
  step x y ->
  faults (snd x) = [] -> listedButItems (fst x) (snd x) ->
  faults (snd y) = [] /\ listedButItems (fst y) (snd y).
Proof.
  intros [a s w s' w' Hoff Hact] Hf (uid & Hp & Hdocs). simpl in *.
  unfold listedButItems.
  destruct a; simpl in Hact;
    try (unfold DocumentStore.ret in Hact;
         injection Hact as <- <-; split; [exact Hf | now exists uid]).
  - unfold DocumentStore.ret in Hact.
    destruct (handle e (form s)); [| discriminate].
    injection Hact as <- <-. split; [exact Hf |]. exists uid. split; [exact Hp |].
    simpl. now rewrite apart_docsAfter.
  - unfold DocumentStore.bind, DocumentStore.ret in Hact.
    destruct (JsString.trim (doc_no (form s))) as [| a n] eqn:Hno;
      [unfold save in Hact; rewrite Hp, Hno in Hact; simpl in Hact;
       injection Hact as <- <-; split; [exact Hf | now exists uid] |].
    destruct (JsString.trim (customer_name (form s))) as [| b c] eqn:Hname;
      [unfold save in Hact; rewrite Hp, Hno, Hname in Hact; simpl in Hact;
       injection Hact as <- <-; split; [exact Hf | now exists uid] |].
    rewrite (save_run s w uid Hp) in Hact by (rewrite ?Hno, ?Hname; discriminate).
    rewrite Hf in Hact.
    rewrite (refresh_calm _ _ uid) in Hact by (exact Hp || reflexivity).
    injection Hact as <- <-. split; [reflexivity |]. now exists uid.
  - unfold DocumentStore.bind, DocumentStore.ret in Hact.
    destruct (editingId s) as [[| e eid] |] eqn:He;
      try (unfold saveEdit in Hact; rewrite He in Hact; simpl in Hact;
           injection Hact as <- <-; split; [exact Hf | now exists uid]).
    destruct (JsString.trim (doc_no (form s))) as [| a n] eqn:Hno;
      [unfold saveEdit in Hact; rewrite He, Hno in Hact; simpl in Hact;
       injection Hact as <- <-; split; [exact Hf | now exists uid] |].
    destruct (JsString.trim (customer_name (form s))) as [| b c] eqn:Hname;
      [unfold saveEdit in Hact; rewrite He, Hno, Hname in Hact; simpl in Hact;
       injection Hact as <- <-; split; [exact Hf | now exists uid] |].
    rewrite (saveEdit_run s w (String e eid) He) in Hact
      by (rewrite ?Hno, ?Hname; discriminate).
    rewrite Hf in Hact.
    rewrite (refresh_calm _ _ uid) in Hact by (exact Hp || reflexivity).
    injection Hact as <- <-. split; [reflexivity |]. now exists uid.
  - unfold deleteDoc, DocumentStore.bind, DocumentStore.ret, supabase in Hact.
    rewrite Hf in Hact. simpl in Hact. injection Hact as <- <-.
    split; [reflexivity |]. exists uid. split; [exact Hp |].
    simpl. rewrite <- listed_delete. now apply apart_delete.
Qed.

Lemma steps_listedButItems (x y : Screen * World) :
  rtc step x y ->
  faults (snd x) = [] -> listedButItems (fst x) (snd x) ->
  faults (snd y) = [] /\ listedButItems (fst y) (snd y).
Proof.
  induction 1 as [x | x y z Hstep _ IH]; [auto |].
  intros Hf Hlisted.
  destruct (step_listedButItems x y Hstep Hf Hlisted) as [Hf' Hlisted'].
  now apply IH.
Qed.

(** An action other than an assignment into an item of a listed document
    keeps the list as the store has it, when no call fails. *)
Lemma act_listed (a : Action) (s s' : Screen) (w w' : World) :
  faults w = [] -> listed s w ->
  act a s w = (Some s', w') ->
  (forall e, a = Edit e -> docsAfter e s = docs s) ->
  listed s' w'.
Proof.
  intros Hf (uid & Hp & Hdocs) Hact Hquiet.
  unfold listed.
  destruct a; simpl in Hact;
    try (unfold DocumentStore.ret in Hact;
         injection Hact as <- <-; now exists uid).
  - unfold DocumentStore.ret in Hact.
    destruct (handle e (form s)); [| discriminate].
    injection Hact as <- <-. exists uid. split; [exact Hp |].
    simpl. now rewrite (Hquiet e eq_refl).
  - unfold DocumentStore.bind, DocumentStore.ret in Hact.
    destruct (JsString.trim (doc_no (form s))) as [| a n] eqn:Hno;
      [unfold save in Hact; rewrite Hp, Hno in Hact; simpl in Hact;
       injection Hact as <- <-; now exists uid |].
    destruct (JsString.trim (customer_name (form s))) as [| b c] eqn:Hname;
      [unfold save in Hact; rewrite Hp, Hno, Hname in Hact; simpl in Hact;
       injection Hact as <- <-; now exists uid |].
    rewrite (save_run s w uid Hp) in Hact by (rewrite ?Hno, ?Hname; discriminate).
    rewrite Hf in Hact.
    rewrite (refresh_calm _ _ uid) in Hact by (exact Hp || reflexivity).
    injection Hact as <- <-. now exists uid.
  - unfold DocumentStore.bind, DocumentStore.ret in Hact.
    destruct (editingId s) as [[| e eid] |] eqn:He;
      try (unfold saveEdit in Hact; rewrite He in Hact; simpl in Hact;
           injection Hact as <- <-; now exists uid).
    destruct (JsString.trim (doc_no (form s))) as [| a n] eqn:Hno;
      [unfold saveEdit in Hact; rewrite He, Hno in Hact; simpl in Hact;
       injection Hact as <- <-; now exists uid |].
    destruct (JsString.trim (customer_name (form s))) as [| b c] eqn:Hname;
      [unfold saveEdit in Hact; rewrite He, Hno, Hname in Hact; simpl in Hact;
       injection Hact as <- <-; now exists uid |].
    rewrite (saveEdit_run s w (String e eid) He) in Hact
      by (rewrite ?Hno, ?Hname; discriminate).
    rewrite Hf in Hact.
    rewrite (refresh_calm _ _ uid) in Hact by (exact Hp || reflexivity).
    injection Hact as <- <-. now exists uid.
  - unfold deleteDoc, DocumentStore.bind, DocumentStore.ret, supabase in Hact.
    rewrite Hf in Hact. simpl in Hact. injection Hact as <- <-.
    exists uid. split; [exact Hp |].
    simpl. rewrite Hdocs. apply listed_delete.
Qed.

Lemma listed_apart (s : Screen) (w : World) : listed s w -> listedButItems s w.
Proof. intros (uid & Hp & Hdocs). exists uid. split; [exact Hp | now rewrite Hdocs]. Qed.

End DocumentList.

(** While no call fails the list is in step with the store, but for what
    the items of its documents hold: when it shows the documents of the
    user, newest first, each with as many items as stored and otherwise as
    stored, it does so after every action on the page (a refused save
    changes nothing, [save] and [saveEdit] read the list again, [deleteDoc]
    removes the document from the list itself).  The items are apart because
    [openEdit] hands the items of the listed document to the form, and an edit
    of the form assigns into them: the list shows the edit before it is
    saved.  Any other action keeps a list that shows the documents as stored
    as it is. *)
Theorem document_list_stays_in_step
    (s s' : DocumentPage.Screen) (w w' : DocumentStore.World) :
  DocumentStore.faults w = [] ->
  DocumentPage.listedButItems s w ->
  rtc DocumentPage.step (s, w) (s', w') ->
  DocumentStore.faults w' = []
  /\ DocumentPage.listedButItems s' w'
  /\ (forall a s2 w2,
         DocumentPage.listed s' w' ->
         DocumentPage.act a s' w' = (Some s2, w2) ->
         (forall e, a = DocumentPage.Edit e ->
                    DocumentPage.docsAfter e s' = DocumentPage.docs s') ->
         DocumentPage.listed s2 w2).
Proof.
  intros Hf Hlisted Hsteps.
  destruct (steps_listedButItems (s, w) (s', w') Hsteps Hf Hlisted) as [Hf' Hlisted'].
  split; [exact Hf' |]. split; [exact Hlisted' |].
  intros a s2 w2 Hexact Hact Hquiet. exact (act_listed a s' s2 w' w2 Hf' Hexact Hact Hquiet).
Qed.

(** [document_list_stays_in_step] on the first invoice of a user: it is
    saved, opened from the list and its rate is set to 10.  The list then
    shows the rate 10 and the amount 10 for the document, whose stored rate
    and amount are 0: it shows the stored documents no more, but for the
    items it does. *)
Lemma document_list_stays_in_step_witness :
  let s := DocumentScenario.newInvoice in
  let w := DocumentScenario.emptyWorld in
  let s1 := fst (DocumentPage.save s w) in
  let w1 := snd (DocumentPage.save s w) in
  let d := DocumentStore.docOf "doc-0" "u1" "0"
             (DocumentPage.payload DocumentScenario.firstInvoice) in
  let s2 := DocumentPage.openEdit d s1 in
  let s3 := DocumentPage.edited (InvoicesPage.ChangeRate 0 10)
              (InvoicesPage.recalcTotals
                 [InvoicesPage.assign (InvoicesPage.Rate 10) InvoicesPage.blankItem]
                 0 (DocumentPage.form s2))
              s2 in
  DocumentStore.faults w = []
  /\ DocumentPage.listedButItems s w
  /\ rtc DocumentPage.step (s, w) (s3, w1)
  /\ DocumentPage.listedButItems s3 w1
  /\ DocumentPage.listed s2 w1
  /\ DocumentStore.invoices (DocumentStore.shelf w1) = [d]
  /\ (DocumentStore.d_items <$> DocumentPage.docs s3)
     = [Some [ {| DocumentStore.s_description := ""; DocumentStore.s_hsn := "";
                  DocumentStore.s_qty := Some 1%float;
                  DocumentStore.s_rate := Some 10%float;
                  DocumentStore.s_amount := Some 10%float |} ]]
  /\ ~ DocumentPage.listed s3 w1.
Proof.
  intros s w s1 w1 d s2 s3.
  assert (Hf : DocumentStore.faults w = []) by reflexivity.
  assert (Hlisted : DocumentPage.listedButItems s w) by (exists "u1"; now split).
  assert (Hsteps : rtc DocumentPage.step (s, w) (s3, w1)).
  { eapply rtc_l; [apply (DocumentPage.step_act DocumentPage.ClickSave s w s1 w1);
                   [exact I | reflexivity] |].
    eapply rtc_l; [apply (DocumentPage.step_act (DocumentPage.ClickOpenEdit d) s1 w1 s2 w1);
                   [simpl; apply list_elem_of_here | reflexivity] |].
    apply rtc_once.
    apply (DocumentPage.step_act
             (DocumentPage.Edit (InvoicesPage.ChangeRate 0 10)) s2 w1 s3 w1);
      [exact I | reflexivity]. }
  split; [exact Hf |]. split; [exact Hlisted |]. split; [exact Hsteps |].
  destruct (document_list_stays_in_step s s3 w w1 Hf Hlisted Hsteps) as (_ & Hstep & _).
  split; [exact Hstep |].
  split; [exists "u1"; split; reflexivity |].
  split; [reflexivity |]. split; [reflexivity |].
  intros (uid & Hp & Hdocs). injection Hp as <-.
  apply (f_equal (fmap DocumentStore.d_items)) in Hdocs.
  vm_compute in Hdocs. discriminate Hdocs.
Defined.

(** Deleting a document keeps the list in step with the store whatever the
    outcome of the call.  When it fails, the list and the store are as they
    were and the message is shown; when it succeeds, the documents with
    that identifier, and only they, are gone from the store and from the
    list, which is not read again. *)
Theorem delete_document_keeps_list_in_step
    (id : string) (s : DocumentPage.Screen) (w : DocumentStore.World) :
  DocumentPage.listed s w ->
  let s' := fst (DocumentPage.deleteDoc id s w) in
  let w' := snd (DocumentPage.deleteDoc id s w) in
  DocumentPage.listed s' w'
  /\ (forall m rest,
         DocumentStore.faults w = Some m :: rest ->
         s' = s /\ DocumentStore.shelf w' = DocumentStore.shelf w
         /\ DocumentStore.toasts w'
            = (DocumentStore.toasts w ++ [Store.ToastError m])%list)
  /\ ((forall m rest, DocumentStore.faults w <> Some m :: rest) ->
      (forall d, d ∈ DocumentStore.invoices (DocumentStore.shelf w')
                 <-> d ∈ DocumentStore.invoices (DocumentStore.shelf w)
                     /\ DocumentStore.d_id d <> id)
      /\ (forall d, d ∈ DocumentPage.docs s'
                    <-> d ∈ DocumentPage.docs s /\ DocumentStore.d_id d <> id)
      /\ DocumentStore.toasts w'
         = (DocumentStore.toasts w ++ [Store.ToastSuccess "Deleted"])%list).
Proof.
  intros (uid & Hp & Hdocs) s' w'. subst s' w'.
  unfold DocumentPage.deleteDoc, DocumentStore.bind, DocumentStore.supabase.
  destruct (DocumentStore.faults w) as [| [m |] fs] eqn:Hf; simpl.
  - split; [exists uid; split; [exact Hp |]; simpl; rewrite Hdocs;
            apply listed_delete |].
    split; [intros m rest Hm; discriminate |]. intros _.
    split; [| split; [| reflexivity]]; intros d;
      rewrite list_elem_of_filter; tauto.
  - split; [now exists uid |].
    split; [intros m' rest Hm; injection Hm as -> _; now repeat split |].
    intros Hnone. now destruct (Hnone m fs).
  - split; [exists uid; split; [exact Hp |]; simpl; rewrite Hdocs;
            apply listed_delete |].
    split; [intros m rest Hm; discriminate |]. intros _.
    split; [| split; [| reflexivity]]; intros d;
      rewrite list_elem_of_filter; tauto.
Qed.

(** [delete_document_keeps_list_in_step] on the saved first invoice, the
    call failing. *)
Lemma delete_document_keeps_list_in_step_witness :
  let s := fst (DocumentPage.save DocumentScenario.newInvoice
                  DocumentScenario.emptyWorld) in
  let w := {| DocumentStore.shelf :=
                DocumentStore.shelf
                  (snd (DocumentPage.save DocumentScenario.newInvoice
                          DocumentScenario.emptyWorld));
              DocumentStore.faults := [Some "offline"];
              DocumentStore.toasts := [] |} in
  DocumentPage.listed s w
  /\ fst (DocumentPage.deleteDoc "doc-0" s w) = s
  /\ DocumentStore.toasts (snd (DocumentPage.deleteDoc "doc-0" s w))
     = [Store.ToastError "offline"].
Proof.
  intros s w.
  assert (Hlisted : DocumentPage.listed s w) by (exists "u1"; now split).
  split; [exact Hlisted |].
  destruct (delete_document_keeps_list_in_step "doc-0" s w Hlisted)
    as (_ & Hfail & _).
  destruct (Hfail "offline" [] eq_refl) as (Hs & _ & Htoasts).
  split; [exact Hs | exact Htoasts].
Defined.

(** ** The items of the editor *)

Section EditorItems.

Import InvoicesPage DocumentStore DocumentPage.

(** An event on the items leaves an item, whatever the form. *)
Lemma handle_leaves_item (e : Event) (form form' : InvoiceData) :
  (forall v, e <> ChangeTaxPercent v) ->
  handle e form = Some form' -> items form' <> [].
Proof.
  intros Hitem. destruct e; simpl;
    try (intros Hup; destruct (updateItem_items _ _ _ _ Hup) as (i & Hi & ->);
         intros Heq; apply (f_equal length) in Heq;
         rewrite length_insert in Heq; destruct (items form); [easy | discriminate]).
  - intros [= <-]. simpl. destruct (items form); discriminate.
  - intros [= <-]. apply removeItem_nonempty.
  - now destruct (Hitem value).
Qed.

Lemma openEdit_items (d : Doc) (s : Screen) :
  items (form (openEdit d s)) <> [] <-> hasItems d.
Proof.
  unfold hasItems. simpl. destruct (d_items d) as [[| i l] |]; simpl; split; try easy.
Qed.

End EditorItems.



